(** * Plagiarism-Detector: the similarity detection engine

    A shallow embedding of [backend/app/services/similarity.py],
    [backend/app/services/detection.py], [backend/app/services/embeddings.py]
    and the [/compare] handler of [backend/app/api/analyze.py].

    Python floats are IEEE 754 binary64 values: they are modelled by the
    Standard Library's [spec_float] with [prec = 53] and [emax = 1024], whose
    comparison and arithmetic are executable.  Exceptions are modelled by a
    result type, NumPy arrays by lists of rows, and the embedding provider
    (sentence-transformers) by parameters of a Section. *)

From Stdlib Require Import String Ascii.
From Stdlib Require Import ZArith NArith Lia List Bool Sorted Permutation.
From Stdlib Require Import Floats.SpecFloat.
From stdpp Require Import base list sorting gmap.

Set Default Proof Using "Type".

(** ** Binary64 floats *)

Module F64.

Definition float64 : Type := spec_float.

Definition prec : Z := 53.
Definition emax : Z := 1024.

(** The literals of the source, as the nearest binary64 values. *)
Definition zero : float64 := S754_zero false.                         (* 0.0  *)
Definition one : float64 := S754_finite false 4503599627370496 (-52). (* 1.0  *)
Definition f0_1 : float64 := S754_finite false 7205759403792794 (-56). (* 0.1 *)
Definition f0_7 : float64 := S754_finite false 6305039478318694 (-53). (* 0.7 *)
Definition f0_8 : float64 := S754_finite false 7205759403792794 (-53). (* 0.8 *)
Definition f0_85 : float64 :=
  S754_finite false 7656119366529843 (-53).                           (* 0.85 *)

(** Python's [a < b], [a <= b], [a == b], [a >= b], [a > b] on floats. *)
Definition flt (a b : float64) : bool := SFltb a b.
Definition fle (a b : float64) : bool := SFleb a b.
Definition feq (a b : float64) : bool := SFeqb a b.
Definition fge (a b : float64) : bool := fle b a.
Definition fgt (a b : float64) : bool := flt b a.

Definition fadd : float64 -> float64 -> float64 := SFadd prec emax.
Definition fsub : float64 -> float64 -> float64 := SFsub prec emax.
Definition fmul : float64 -> float64 -> float64 := SFmul prec emax.
Definition fdiv : float64 -> float64 -> float64 := SFdiv prec emax.
Definition fsqrt : float64 -> float64 := SFsqrt prec emax.

(** [float(n)] for a Python int [n] (exact below [2^53]). *)
Definition of_Z (n : Z) : float64 := binary_normalize prec emax n 0 false.

Definition is_nan (a : float64) : bool :=
  match a with S754_nan => true | _ => false end.

End F64.

Import F64.

(** ** Python strings

    A [str] is a sequence of Unicode code points. *)

Abbreviation str := (list N).

(** A literal of the source. *)
Definition py (s : string) : str := map N_of_ascii (list_ascii_of_string s).

(** [ch.isspace()], the characters [str.strip] removes: CPython's
    [_PyUnicode_IsWhitespace]. *)
Definition isspace (c : N) : bool :=
  ((9 <=? c) && (c <=? 13) || (28 <=? c) && (c <=? 32) || (c =? 133)
   || (c =? 160) || (c =? 5760) || (8192 <=? c) && (c <=? 8202)
   || (c =? 8232) || (c =? 8233) || (c =? 8239) || (c =? 8287)
   || (c =? 12288))%N.

Fixpoint lstrip (s : str) : str :=
  match s with
  | [] => []
  | c :: s' => if isspace c then lstrip s' else s
  end.

Definition rstrip (s : str) : str := rev (lstrip (rev s)).

Definition strip (s : str) : str := rstrip (lstrip s).

(** [s.rfind(c)] for a one-character [c]: the highest index of [c] in [s],
    or [-1]. *)
Fixpoint rfind (s : str) (c : N) : Z :=
  match s with
  | [] => -1
  | x :: s' =>
      let r := rfind s' c in
      if (0 <=? r)%Z then (r + 1)%Z
      else if (x =? c)%N then 0%Z else (-1)%Z
  end.

(** [s[:k]] for any int [k]: a negative [k] counts from the end. *)
Definition slice_to (s : str) (k : Z) : str :=
  if (0 <=? k)%Z then take (Z.to_nat k) s
  else take (length s - Z.to_nat (- k)) s.

(** ** Exceptions and results *)

Inductive exn : Type :=
| ValueError (msg : str)
| RuntimeError (msg : str)
| IndexError
| HTTPException (status_code : nat) (detail : str).

Inductive result (A : Type) : Type :=
| Ok (a : A)
| Raise (e : exn).

Arguments Ok {A} a.
Arguments Raise {A} e.

#[global] Instance result_ret : MRet result := fun _ a => Ok a.
#[global] Instance result_bind : MBind result := fun _ _ f r =>
  match r with
  | Ok a => f a
  | Raise e => Raise e
  end.

(** [for x in xs: s = body(x, s)], stopping at the first exception. *)
Fixpoint for_in {S : Type} (xs : list nat) (body : nat -> S -> result S)
    (s : S) : result S :=
  match xs with
  | [] => Ok s
  | x :: xs' => s' ← body x s; for_in xs' body s'
  end.

(** [range(n)] and [range(a, n)]. *)
Definition range (n : nat) : list nat := seq 0 n.
Definition range_from (a n : nat) : list nat := seq a (n - a).

(** ** NumPy arrays of rank 2

    An array of shape [(n, d)] is the list of its [n] rows, each of length
    [d].  Indexing outside the shape raises [IndexError]. *)

Abbreviation ndarray := (list (list float64)).

Definition shape0 (a : ndarray) : nat := length a.

(** [a.size]: the number of elements, [n * d]. *)
Definition size (a : ndarray) : nat := list_sum (map (@length float64) a).

(** [np.zeros((n, d))]. *)
Definition zeros (n d : nat) : ndarray := replicate n (replicate d zero).

Definition lookup2 (a : ndarray) (i j : nat) : option float64 :=
  row ← a !! i; row !! j.

(** [a[i, j]] *)
Definition getitem (a : ndarray) (i j : nat) : result float64 :=
  match lookup2 a i j with
  | Some v => Ok v
  | None => Raise IndexError
  end.

(** [a[i]] *)
Definition getrow (a : ndarray) (i : nat) : result (list float64) :=
  match a !! i with
  | Some row => Ok row
  | None => Raise IndexError
  end.

(** [a[i, j] = v], in place. *)
Definition setitem (a : ndarray) (i j : nat) (v : float64) : result ndarray :=
  match lookup2 a i j with
  | Some _ => Ok (alter (fun row => <[j := v]> row) i a)
  | None => Raise IndexError
  end.

(** An [n] by [n] array. *)
Definition square (n : nat) (a : ndarray) : Prop :=
  length a = n /\ Forall (fun row => length row = n) a.

(** *** Reductions

    [np.mean], [np.max], [np.min] and [np.std] are NumPy's, not this
    program's.  In which order a sum is associated, and which of two values
    that compare equal ([0.0] and [-0.0]) a maximum returns, depend on the
    version of NumPy and on the vector instructions it is compiled for.
    The services are verified for every choice of the four reductions;
    [amax] and [amin] are [np.max] and [np.min] on an array that is not
    empty. *)

Class Reductions : Type := {
  np_mean : list float64 -> float64;
  amax : list float64 -> float64;
  amin : list float64 -> float64;
  np_std : list float64 -> float64
}.

(** [np.max] and [np.min] raise [ValueError] on an empty array. *)
Definition np_max `{!Reductions} (l : list float64) : result float64 :=
  match l with
  | [] =>
      Raise (ValueError (py "zero-size array to reduction operation maximum"))
  | _ => Ok (amax l)
  end.

Definition np_min `{!Reductions} (l : list float64) : result float64 :=
  match l with
  | [] =>
      Raise (ValueError (py "zero-size array to reduction operation minimum"))
  | _ => Ok (amin l)
  end.

(** **** The scalar loops

    One choice of the reductions, on which the services are run in the
    examples: the loops of NumPy that handle one element at a time.  A NumPy
    that compares several elements at once with vector instructions may
    return the other of two values that compare equal, [0.0] for [-0.0];
    the theorems hold for every choice of the reductions, and the examples
    run on arrays in which no two different values compare equal. *)

(** [np.maximum] and [np.minimum] of the scalar loop,
    [(io1 >= in2 || npy_isnan(io1)) ? io1 : in2]: a NaN once met is kept,
    and so is the earlier of two values that compare equal. *)
Definition maximum (a b : float64) : float64 :=
  if fge a b || is_nan a then a else b.

Definition minimum (a b : float64) : float64 :=
  if fle a b || is_nan a then a else b.

Definition scalar_amax (l : list float64) : float64 :=
  match l with
  | [] => zero
  | x :: l' => fold_left maximum l' x
  end.

Definition scalar_amin (l : list float64) : float64 :=
  match l with
  | [] => zero
  | x :: l' => fold_left minimum l' x
  end.

(** The pairwise summation of [np.add.reduce].  Fewer than 8 elements are
    added from left to right, starting from [-0.0], which changes none of
    them. *)
Definition sum_sequential (l : list float64) : float64 :=
  fold_left fadd l (S754_zero true).

(** A block of 8 to 128 elements: 8 partial sums, the [k]-th of the elements
    at the positions [k], [k + 8], [k + 16], ..., are added two by two;
    the last [length l mod 8] elements are then added one by one. *)
Fixpoint add_lanes (r l : list float64) (rounds : nat)
    : list float64 * list float64 :=
  match rounds with
  | 0 => (r, l)
  | S rounds' => add_lanes (zip_with fadd r (take 8 l)) (drop 8 l) rounds'
  end.

Definition sum_lanes (r : list float64) : float64 :=
  match r with
  | [r0; r1; r2; r3; r4; r5; r6; r7] =>
      fadd (fadd (fadd r0 r1) (fadd r2 r3)) (fadd (fadd r4 r5) (fadd r6 r7))
  | _ => zero
  end.

Definition sum_block (l : list float64) : float64 :=
  let '(r, rest) := add_lanes (take 8 l) (drop 8 l) (length l / 8 - 1) in
  fold_left fadd rest (sum_lanes r).

(** More than 128 elements are split in two, the first part of
    [n / 2 - (n / 2) mod 8] elements; [fuel] bounds the depth of the
    splitting. *)
Fixpoint pairwise_sum (fuel : nat) (l : list float64) : float64 :=
  let n := length l in
  if n <? 8 then sum_sequential l
  else if n <=? 128 then sum_block l
  else
    match fuel with
    | 0 => sum_block l
    | S fuel' =>
        let n2 := n / 2 - (n / 2) mod 8 in
        fadd (pairwise_sum fuel' (take n2 l)) (pairwise_sum fuel' (drop n2 l))
    end.

(** [np.sum]; the sum of no element is [0.0]. *)
Definition np_sum (l : list float64) : float64 :=
  match l with
  | [] => zero
  | _ => pairwise_sum (length l) l
  end.

(** [np.mean]: the sum divided by the number of elements, in binary64. *)
Definition scalar_mean (l : list float64) : float64 :=
  fdiv (np_sum l) (of_Z (Z.of_nat (length l))).

(** [np.std]: the square root of the mean of the squared deviations from
    the mean. *)
Definition scalar_std (l : list float64) : float64 :=
  let arrmean := scalar_mean l in
  fsqrt (scalar_mean (map (fun x => let d := fsub x arrmean in fmul d d) l)).

Definition scalar_loops : Reductions :=
  {| np_mean := scalar_mean; amax := scalar_amax; amin := scalar_amin;
     np_std := scalar_std |}.

#[global] Existing Instance scalar_loops.

(** ** [list.sort(key=..., reverse=True)]

    Python's sort compares keys with [<] only and is stable; with
    [reverse=True] the elements are sorted as if each comparison were
    reversed, and elements with equal keys keep their original order.  A
    stable insertion sort has this behaviour. *)

Section Sort.

Context {A : Type}.
Variable key : A -> float64.

Fixpoint insert_reverse (x : A) (l : list A) : list A :=
  match l with
  | [] => [x]
  | y :: l' =>
      if flt (key x) (key y) then y :: insert_reverse x l'
      else x :: y :: l'
  end.

Definition sort_reverse (l : list A) : list A :=
  foldr insert_reverse [] l.

End Sort.

(** ** [services/similarity.py] *)

Module SimilarityService.

Section Similarity.

(** [np.dot] of two rows: a BLAS routine whose order of accumulation is not
    fixed; nothing below depends on its value. *)
Variable np_dot : list float64 -> list float64 -> float64.

(** The body of the two loops of [calculate_similarity_matrix]. *)
Definition similarity_cell (embeddings : ndarray) (i j : nat)
    (similarity_matrix : ndarray) : result ndarray :=
  if decide (i = j) then
    setitem similarity_matrix i j one
  else if decide (i < j) then
    ei ← getrow embeddings i;
    ej ← getrow embeddings j;
    let similarity := np_dot ei ej in
    similarity_matrix ← setitem similarity_matrix i j similarity;
    setitem similarity_matrix j i similarity
  else Ok similarity_matrix.

Definition calculate_similarity_matrix (embeddings : ndarray)
    : result ndarray :=
  if decide (size embeddings = 0) then
    Raise (ValueError (py "Empty embeddings array provided"))
  else
    let n_texts := shape0 embeddings in
    let similarity_matrix := zeros n_texts n_texts in
    for_in (range n_texts) (fun i similarity_matrix =>
      for_in (range n_texts) (fun j similarity_matrix =>
        similarity_cell embeddings i j similarity_matrix)
        similarity_matrix)
      similarity_matrix.

End Similarity.

(** A raw pair [(index1, index2, similarity_score)]. *)
Definition raw_pair : Type := nat * nat * float64.

Definition score (p : raw_pair) : float64 := p.2.

Definition valid_threshold (threshold : float64) : bool :=
  fle zero threshold && fle threshold one.

(** The two loops of [find_similar_pairs], before the sort. *)
Definition scan_pairs (similarity_matrix : ndarray) (threshold : float64)
    : result (list raw_pair) :=
  let n_texts := shape0 similarity_matrix in
  for_in (range n_texts) (fun i similar_pairs =>
    for_in (range_from (i + 1) n_texts) (fun j similar_pairs =>
      similarity ← getitem similarity_matrix i j;
      if fge similarity threshold then
        Ok (similar_pairs ++ [(i, j, similarity)])
      else Ok similar_pairs)
      similar_pairs)
    [].

Definition find_similar_pairs (similarity_matrix : ndarray)
    (threshold : float64) : result (list raw_pair) :=
  if negb (valid_threshold threshold) then
    Raise (ValueError (py "Threshold must be between 0.0 and 1.0"))
  else
    similar_pairs ← scan_pairs similarity_matrix threshold;
    Ok (sort_reverse score similar_pairs).

Record statistics : Type := {
  total_pairs : nat;
  mean_similarity : float64;
  max_similarity : float64;
  min_similarity : float64;
  std_similarity : float64
}.

(** The upper triangle, row by row. *)
Definition upper_triangle_of (similarity_matrix : ndarray)
    : result (list float64) :=
  let n_texts := shape0 similarity_matrix in
  for_in (range n_texts) (fun i upper_triangle =>
    for_in (range_from (i + 1) n_texts) (fun j upper_triangle =>
      v ← getitem similarity_matrix i j;
      Ok (upper_triangle ++ [v]))
      upper_triangle)
    [].

Section Summary.

Context `{!Reductions}.

Definition get_similarity_statistics (similarity_matrix : ndarray)
    : result statistics :=
  upper_triangle ← upper_triangle_of similarity_matrix;
  match upper_triangle with
  | [] =>
      Ok {| total_pairs := 0; mean_similarity := zero;
            max_similarity := zero; min_similarity := zero;
            std_similarity := zero |}
  | _ =>
      mx ← np_max upper_triangle;
      mn ← np_min upper_triangle;
      Ok {| total_pairs := length upper_triangle;
            mean_similarity := np_mean upper_triangle;
            max_similarity := mx;
            min_similarity := mn;
            std_similarity := np_std upper_triangle |}
  end.

End Summary.

End SimilarityService.

(** ** [config.py] *)

Module settings.

Definition DEFAULT_MODEL : str := py "miniLM".

Definition MODELS : list (str * str) :=
  [ (py "miniLM", py "all-MiniLM-L6-v2");
    (py "mpnet", py "all-mpnet-base-v2");
    (py "jina-small", py "jina-embeddings-v2-small-en") ].

Fixpoint dict_get (d : list (str * str)) (k : str) : option str :=
  match d with
  | [] => None
  | (k', v) :: d' => if decide (k = k') then Some v else dict_get d' k
  end.

(** [MODELS.get(model_key, MODELS[DEFAULT_MODEL])]; the default key is in
    the dictionary. *)
Definition get_model_name (model_key : str) : str :=
  let fallback := default [] (dict_get MODELS DEFAULT_MODEL) in
  default fallback (dict_get MODELS model_key).

Definition get_available_models : list str := map fst MODELS.

End settings.

(** ** The world outside the engine

    The embedding provider (the sentence-transformers library) and the
    clock are parameters.  A call of the provider that raises is [inl msg],
    with [msg] the text of its exception.  The state holds the models the
    embedding service has loaded, the number of clock readings made so far,
    and a log of the calls made to the provider. *)

Inductive provider_call : Type :=
| LoadCall (model_name : str) (trust_remote_code : bool)
| EncodeCall (texts : list str).

Section World.

(** A loaded [SentenceTransformer]. *)
Variable Model : Type.

Record World : Type := {
  _models : gmap str Model;
  clock : nat;
  calls : list provider_call
}.

Definition M (A : Type) : Type := World -> result A * World.

Definition retM {A : Type} (a : A) : M A := fun w => (Ok a, w).

Definition raiseM {A : Type} (e : exn) : M A := fun w => (Raise e, w).

Definition bindM {A B : Type} (m : M A) (f : A -> M B) : M B := fun w =>
  match m w with
  | (Ok a, w') => f a w'
  | (Raise e, w') => (Raise e, w')
  end.

(** A computation of the engine, which touches no state. *)
Definition liftM {A : Type} (r : result A) : M A := fun w => (r, w).

(** [try: body / except Exception as e: handler(e)] *)
Definition try_except {A : Type} (body : M A) (handler : exn -> M A) : M A :=
  fun w =>
    match body w with
    | (Ok a, w') => (Ok a, w')
    | (Raise e, w') => handler e w'
    end.

End World.

Arguments _models {Model} w.
Arguments clock {Model} w.
Arguments calls {Model} w.
Arguments retM {Model A} a.
Arguments raiseM {Model A} e.
Arguments bindM {Model A B} m f.
Arguments liftM {Model A} r.
Arguments try_except {Model A} body handler.

#[global] Instance M_ret {Model : Type} : MRet (M Model) :=
  fun _ a => retM a.
#[global] Instance M_bind {Model : Type} : MBind (M Model) :=
  fun _ _ f m => bindM m f.

(** ** [services/embeddings.py] *)

Module EmbeddingService.

Section Embeddings.

Variable Model : Type.

(** [SentenceTransformer(model_name, trust_remote_code=...)] *)
Variable SentenceTransformer : str -> bool -> str + Model.

(** [model.encode(texts, convert_to_numpy=True, normalize_embeddings=True,
    ...)] *)
Variable encode : Model -> list str -> str + ndarray.

Definition new_model (model_name : str) (trust_remote_code : bool)
    : M Model (str + Model) := fun w =>
  (Ok (SentenceTransformer model_name trust_remote_code),
   {| _models := _models w; clock := clock w;
      calls := calls w ++ [LoadCall model_name trust_remote_code] |}).

Definition call_encode (model : Model) (texts : list str)
    : M Model (str + ndarray) := fun w =>
  (Ok (encode model texts),
   {| _models := _models w; clock := clock w;
      calls := calls w ++ [EncodeCall texts] |}).

Definition store_model (model_key : str) (model : Model) : M Model unit :=
  fun w =>
    (Ok tt,
     {| _models := <[model_key := model]> (_models w); clock := clock w;
        calls := calls w |}).

Definition _load_model (model_key : str) : M Model Model := fun w =>
  match _models w !! model_key with
  | Some model => (Ok model, w)
  | None =>
      let model_name := settings.get_model_name model_key in
      let trust_remote := bool_decide (model_key = py "jina-small") in
      (r ← new_model model_name trust_remote;
       match r with
       | inr model =>
           _ ← store_model model_key model;
           retM model
       | inl e =>
           raiseM (RuntimeError
             (py "Failed to load model " ++ model_key ++ py ": " ++ e))
       end) w
  end.

Definition generate_embeddings (texts : list str) (model_key : str)
    : M Model ndarray :=
  match texts with
  | [] => raiseM (ValueError (py "No texts provided for embedding generation"))
  | _ =>
      if negb (bool_decide (model_key ∈ settings.get_available_models)) then
        raiseM (ValueError (py "Invalid model key: " ++ model_key))
      else
        model ← _load_model model_key;
        r ← call_encode model texts;
        match r with
        | inr embeddings => retM embeddings
        | inl e =>
            raiseM (RuntimeError (py "Failed to generate embeddings: " ++ e))
        end
  end.

(** [is_model_loaded], [unload_model] and [clear_all_models]. *)
Definition is_model_loaded (model_key : str) : M Model bool := fun w =>
  (Ok (bool_decide (is_Some (_models w !! model_key))), w).

Definition unload_model (model_key : str) : M Model unit := fun w =>
  match _models w !! model_key with
  | Some _ =>
      (Ok tt,
       {| _models := delete model_key (_models w); clock := clock w;
          calls := calls w |})
  | None => (Ok tt, w)
  end.

Definition clear_all_models : M Model unit := fun w =>
  (Ok tt, {| _models := ∅; clock := clock w; calls := calls w |}).

End Embeddings.

(** The table [_model_info] and [get_model_info]. *)
Record model_info : Type := {
  name : str;
  description : str;
  dimensions : nat
}.

Definition _model_info : list (str * model_info) :=
  [ (py "miniLM",
     {| name := py "all-MiniLM-L6-v2";
        description :=
          py "Lightweight model, fast inference, good for general use";
        dimensions := 384 |});
    (py "mpnet",
     {| name := py "all-mpnet-base-v2";
        description :=
          py "High-quality embeddings, balanced speed and accuracy";
        dimensions := 768 |});
    (py "jina-small",
     {| name := py "jina-embeddings-v2-small-en";
        description := py "Jina AI model, optimized for semantic search";
        dimensions := 512 |}) ].

Fixpoint info_get (d : list (str * model_info)) (k : str)
    : option model_info :=
  match d with
  | [] => None
  | (k', v) :: d' => if decide (k = k') then Some v else info_get d' k
  end.

Definition get_model_info (model_key : str) : result model_info :=
  match info_get _model_info model_key with
  | Some info => Ok info
  | None => Raise (ValueError (py "Unknown model key: " ++ model_key))
  end.

End EmbeddingService.

(** ** [services/detection.py] *)

Module DetectionService.

Import SimilarityService.

(** [SimilarityPair] of [models/schema.py], as its constructor is called. *)
Record SimilarityPair : Type := {
  index_1 : nat;
  index_2 : nat;
  similarity : float64;
  text_1_preview : str;
  text_2_preview : str
}.

Record metadata : Type := {
  model_used : str;
  threshold_used : float64;
  total_comparisons : nat;
  execution_time : float64;
  similarity_stats : statistics
}.

Record report : Type := {
  similarity_score : float64;
  is_highly_similar : bool;
  is_moderately_similar : bool;
  text1_preview : str;
  text2_preview : str;
  report_model_used : str;
  analysis_time : float64
}.

(** [_create_text_preview(text, max_length)].  [last_space > max_length *
    0.8] compares an int with a float: the int is taken as a float, which is
    exact for the lengths of strings. *)
Definition _create_text_preview (text : str) (max_length : nat) : str :=
  let text := strip text in
  if decide (length text <= max_length) then text
  else
    let truncated := rstrip (take max_length text) in
    let last_space := rfind truncated 32 in
    let truncated :=
      if fgt (of_Z last_space) (fmul (of_Z (Z.of_nat max_length)) f0_8)
      then slice_to truncated last_space
      else truncated in
    truncated ++ py "...".

(** [texts[i]] *)
Definition text_at (texts : list str) (i : nat) : result str :=
  match texts !! i with
  | Some t => Ok t
  | None => Raise IndexError
  end.

Fixpoint _create_similarity_pairs (similar_pairs_raw : list raw_pair)
    (texts : list str) : result (list SimilarityPair) :=
  match similar_pairs_raw with
  | [] => Ok []
  | (index1, index2, sim) :: rest =>
      t1 ← text_at texts index1;
      t2 ← text_at texts index2;
      let similarity_pair :=
        {| index_1 := index1; index_2 := index2; similarity := sim;
           text_1_preview := _create_text_preview t1 100;
           text_2_preview := _create_text_preview t2 100 |} in
      similarity_pairs ← _create_similarity_pairs rest texts;
      Ok (similarity_pair :: similarity_pairs)
  end.

Section Detection.

Variable Model : Type.
Variable SentenceTransformer : str -> bool -> str + Model.
Variable encode : Model -> list str -> str + ndarray.
Variable np_dot : list float64 -> list float64 -> float64.

(** The successive readings of [time.time()]. *)
Variable time_time : nat -> float64.

Context `{!Reductions}.

Definition now : M Model float64 := fun w =>
  (Ok (time_time (clock w)),
   {| _models := _models w; clock := S (clock w); calls := calls w |}).

Definition analyze_texts (texts : list str) (model_key : str)
    (threshold : float64)
    : M Model (ndarray * list SimilarityPair * metadata) :=
  start_time ← now;
  embeddings ←
    EmbeddingService.generate_embeddings Model SentenceTransformer encode
      texts model_key;
  similarity_matrix ← liftM (calculate_similarity_matrix np_dot embeddings);
  similar_pairs_raw ← liftM (find_similar_pairs similarity_matrix threshold);
  plagiarized_pairs ←
    liftM (_create_similarity_pairs similar_pairs_raw texts);
  end_time ← now;
  let execution_time := fsub end_time start_time in
  let total_comparisons := length texts * (length texts - 1) / 2 in
  stats ← liftM (get_similarity_statistics similarity_matrix);
  retM (similarity_matrix, plagiarized_pairs,
        {| model_used := model_key; threshold_used := threshold;
           total_comparisons := total_comparisons;
           execution_time := execution_time;
           similarity_stats := stats |}).

Definition get_text_similarity_report (text1 text2 : str) (model_key : str)
    : M Model report :=
  let texts := [text1; text2] in
  r ← analyze_texts texts model_key zero;
  let '(similarity_matrix, _, meta) := r in
  similarity_score ← liftM (getitem similarity_matrix 0 1);
  retM {| similarity_score := similarity_score;
          is_highly_similar := fge similarity_score f0_85;
          is_moderately_similar := fge similarity_score f0_7;
          text1_preview := _create_text_preview text1 100;
          text2_preview := _create_text_preview text2 100;
          report_model_used := model_key;
          analysis_time := execution_time meta |}.

(** ** [api/analyze.py]: the [/compare] handler *)

(** The [try] block. *)
Definition compare_two_texts_try (text1 text2 : str) (model_key : str)
    : M Model report :=
  if bool_decide (strip text1 = []) || bool_decide (strip text2 = []) then
    raiseM (ValueError (py "Both texts must be non-empty"))
  else
    get_text_similarity_report text1 text2 model_key.

(** The [except] clauses: [ValueError] first, then any [Exception]. *)
Definition compare_two_texts_except (e : exn) : M Model report :=
  match e with
  | ValueError msg =>
      raiseM (HTTPException 400 (py "Invalid input: " ++ msg))
  | _ =>
      raiseM (HTTPException 500
        (py "An unexpected error occurred during text comparison"))
  end.

Definition compare_two_texts (text1 text2 : str) (model_key : str)
    : M Model report :=
  try_except (compare_two_texts_try text1 text2 model_key)
    compare_two_texts_except.

(** [detect_potential_plagiarism]; [similarity_matrix.tolist()] is the
    list of rows the matrix already is. *)
Record detection_result : Type := {
  high_confidence_plagiarism : list SimilarityPair;
  moderate_confidence_plagiarism : list SimilarityPair;
  result_similarity_matrix : ndarray;
  result_metadata : metadata
}.

Definition detect_potential_plagiarism (texts : list str) (model_key : str)
    (strict_threshold moderate_threshold : float64)
    : M Model detection_result :=
  r ← analyze_texts texts model_key moderate_threshold;
  let '(similarity_matrix, _, meta) := r in
  strict_pairs ←
    liftM (find_similar_pairs similarity_matrix strict_threshold);
  moderate_pairs ←
    liftM (find_similar_pairs similarity_matrix moderate_threshold);
  strict_similarity_pairs ←
    liftM (_create_similarity_pairs strict_pairs texts);
  moderate_similarity_pairs ←
    liftM (_create_similarity_pairs moderate_pairs texts);
  retM {| high_confidence_plagiarism := strict_similarity_pairs;
          moderate_confidence_plagiarism := moderate_similarity_pairs;
          result_similarity_matrix := similarity_matrix;
          result_metadata := meta |}.

(** ** [api/analyze.py]: the other handlers

    A request is read through its fields [texts], [model_key] and
    [threshold]; [AnalyzeResponse] and [HealthResponse] of
    [models/schema.py] are records of the fields their constructors are
    given. *)

Record AnalyzeResponse : Type := {
  response_similarity_matrix : ndarray;
  response_plagiarized_pairs : list SimilarityPair;
  response_model_used : str;
  response_threshold_used : float64;
  response_total_comparisons : nat;
  response_execution_time : float64
}.

Record HealthResponse : Type := {
  status : str;
  version : str;
  models_loaded : bool
}.

(** [/analyze] *)
Definition analyze_plagiarism_try (texts : list str) (model_key : str)
    (threshold : float64) : M Model AnalyzeResponse :=
  r ← analyze_texts texts model_key threshold;
  let '(similarity_matrix, plagiarized_pairs, meta) := r in
  retM {| response_similarity_matrix := similarity_matrix;
          response_plagiarized_pairs := plagiarized_pairs;
          response_model_used := model_used meta;
          response_threshold_used := threshold_used meta;
          response_total_comparisons := total_comparisons meta;
          response_execution_time := execution_time meta |}.

Definition analyze_plagiarism_except (e : exn) : M Model AnalyzeResponse :=
  match e with
  | ValueError msg =>
      raiseM (HTTPException 400 (py "Invalid input: " ++ msg))
  | RuntimeError msg =>
      raiseM (HTTPException 500 (py "Analysis failed: " ++ msg))
  | _ =>
      raiseM (HTTPException 500
        (py "An unexpected error occurred during analysis"))
  end.

Definition analyze_plagiarism (texts : list str) (model_key : str)
    (threshold : float64) : M Model AnalyzeResponse :=
  try_except (analyze_plagiarism_try texts model_key threshold)
    analyze_plagiarism_except.

(** [/analyze/detailed]: the strict threshold is [0.85], the moderate one
    the threshold of the request. *)
Definition analyze_plagiarism_detailed_except (e : exn)
    : M Model detection_result :=
  match e with
  | ValueError msg =>
      raiseM (HTTPException 400 (py "Invalid input: " ++ msg))
  | _ =>
      raiseM (HTTPException 500
        (py "An unexpected error occurred during detailed analysis"))
  end.

Definition analyze_plagiarism_detailed (texts : list str) (model_key : str)
    (threshold : float64) : M Model detection_result :=
  try_except (detect_potential_plagiarism texts model_key f0_85 threshold)
    analyze_plagiarism_detailed_except.

(** [/health] *)
Definition health_check : M Model HealthResponse :=
  try_except
    (loaded ←
       try_except
         (_ ← EmbeddingService._load_model Model SentenceTransformer
                settings.DEFAULT_MODEL;
          retM true)
         (fun _ => retM false);
     retM {| status := py "healthy"; version := py "1.0.0";
             models_loaded := loaded |})
    (fun _ => raiseM (HTTPException 500 (py "Health check failed"))).

End Detection.

End DetectionService.

(** ** [utils/preprocessing.py] *)

Module TextPreprocessor.

(** [re.sub(r'\s+', ' ', text)]: every maximal run of whitespace becomes one
    space.  [in_run] tells that the character before was whitespace. *)
Fixpoint collapse_whitespace (in_run : bool) (text : str) : str :=
  match text with
  | [] => []
  | c :: text' =>
      if isspace c then
        if in_run then collapse_whitespace true text'
        else 32%N :: collapse_whitespace true text'
      else c :: collapse_whitespace false text'
  end.

Definition clean_text (text : str) : str :=
  match text with
  | [] => []
  | _ => strip (collapse_whitespace false text)
  end.

(** [string.punctuation], the characters [33-47], [58-64], [91-96] and
    [123-126]. *)
Definition punctuation : str :=
  [33; 34; 35; 36; 37; 38; 39; 40; 41; 42; 43; 44; 45; 46; 47; 58; 59; 60;
   61; 62; 63; 64; 91; 92; 93; 94; 95; 96; 123; 124; 125; 126]%N.

(** [text.translate(str.maketrans('', '', chars))]: the characters of
    [chars] are deleted. *)
Definition delete_chars (chars : str) (text : str) : str :=
  List.filter (fun c => negb (bool_decide (c ∈ chars))) text.

(** The pattern of [remove_urls]:
    [http[s]?://(?:[a-zA-Z]|[0-9]|[$-_@.&+]|[!*\\(\\),]|(?:%[0-9a-fA-F][0-9a-fA-F]))+].
    Each alternative of the group starts with a character that is a
    lowercase letter, in the range from [$] to [_] (which holds the digits,
    the capitals and [%]), or [!]; the group matches one such character at
    a time, so that the pattern matches [http://] or [https://] followed by
    the longest run of at least one of these characters. *)
Definition url_char (c : N) : bool :=
  ((97 <=? c) && (c <=? 122) || (36 <=? c) && (c <=? 95) || (c =? 33))%N.

Fixpoint starts_with (prefix text : str) : bool :=
  match prefix, text with
  | [], _ => true
  | p :: prefix', c :: text' => (p =? c)%N && starts_with prefix' text'
  | _ :: _, [] => false
  end.

Fixpoint run_length (f : N -> bool) (text : str) : nat :=
  match text with
  | c :: text' => if f c then S (run_length f text') else 0
  | [] => 0
  end.

(** The length of the match of the pattern at the start of [text]. *)
Definition url_match (text : str) : option nat :=
  let scheme :=
    if starts_with (py "https://") text then Some 8
    else if starts_with (py "http://") text then Some 7
    else None in
  match scheme with
  | Some k =>
      match run_length url_char (drop k text) with
      | 0 => None
      | S r => Some (k + S r)
      end
  | None => None
  end.

(** [re.sub(url_pattern, '', text)]: from left to right, a match is dropped
    and the search goes on after it; [skip] counts the characters of the
    current match still to drop. *)
Fixpoint sub_urls (skip : nat) (text : str) : str :=
  match text with
  | [] => []
  | c :: text' =>
      match skip with
      | S k => sub_urls k text'
      | 0 =>
          match url_match text with
          | Some (S k) => sub_urls k text'
          | _ => c :: sub_urls 0 text'
          end
      end
  end.

Definition remove_urls (text : str) : str :=
  match text with
  | [] => []
  | _ => clean_text (sub_urls 0 text)
  end.

(** [[^a-zA-Z0-9\s]] and [[^a-zA-Z0-9]] keep these characters. *)
Definition alnum (c : N) : bool :=
  ((97 <=? c) && (c <=? 122) || (65 <=? c) && (c <=? 90)
   || (48 <=? c) && (c <=? 57))%N.

Definition remove_special_characters (text : str) (keep_spaces : bool)
    : str :=
  match text with
  | [] => []
  | _ =>
      let text :=
        if keep_spaces then List.filter (fun c => alnum c || isspace c) text
        else List.filter alnum text in
      clean_text text
  end.

(** [text.split()]: the maximal runs of characters that are not
    whitespace; [word] is the run being read. *)
Fixpoint split_whitespace (word : str) (text : str) : list str :=
  match text with
  | [] => match word with [] => [] | _ => [word] end
  | c :: text' =>
      if isspace c then
        match word with
        | [] => split_whitespace [] text'
        | _ => word :: split_whitespace [] text'
        end
      else split_whitespace (word ++ [c]) text'
  end.

(** [re.split(r'[.!?]+', text)]: the pieces between the maximal runs of
    [.], [!] and [?]; [in_run] tells that the character before was one of
    them, [piece] is the piece being read. *)
Definition sentence_end (c : N) : bool :=
  ((c =? 46) || (c =? 33) || (c =? 63))%N.

Fixpoint split_sentences (in_run : bool) (piece : str) (text : str)
    : list str :=
  match text with
  | [] => [piece]
  | c :: text' =>
      if sentence_end c then
        if in_run then split_sentences true piece text'
        else piece :: split_sentences true [] text'
      else split_sentences false (piece ++ [c]) text'
  end.

(** [text.split('\n\n')]: the pieces between the occurrences of two line
    feeds, found from left to right; [held] tells that the character before
    was a line feed that belongs to no separator yet. *)
Fixpoint split_paragraphs (held : bool) (piece : str) (text : str)
    : list str :=
  match text with
  | [] => if held then [piece ++ [10%N]] else [piece]
  | c :: text' =>
      if (c =? 10)%N then
        if held then piece :: split_paragraphs false [] text'
        else split_paragraphs true piece text'
      else
        split_paragraphs false
          (if held then piece ++ [10%N; c] else piece ++ [c]) text'
  end.

Record text_stats : Type := {
  char_count : nat;
  word_count : nat;
  sentence_count : nat;
  paragraph_count : nat
}.

(** [len([s for s in pieces if s.strip()])] *)
Definition count_not_blank (pieces : list str) : nat :=
  length (List.filter (fun s => negb (bool_decide (strip s = []))) pieces).

Definition get_text_stats (text : str) : text_stats :=
  match text with
  | [] =>
      {| char_count := 0; word_count := 0; sentence_count := 0;
         paragraph_count := 0 |}
  | _ =>
      let words := split_whitespace [] text in
      let sentences := split_sentences false [] text in
      let paragraphs := split_paragraphs false [] text in
      {| char_count := length text;
         word_count := length words;
         sentence_count := count_not_blank sentences;
         paragraph_count := count_not_blank paragraphs |}
  end.

Section Preprocessing.

(** [str.lower], the lowercase mapping of Unicode. *)
Variable lower : str -> str.

(** [re.sub(email_pattern, '', text)] for the pattern
    [\b[A-Za-z0-9._%+-]+@[A-Za-z0-9.-]+\.[A-Z|a-z]{2,}\b]. *)
Variable sub_emails : str -> str.

Definition normalize_text (text : str) (remove_punctuation : bool) : str :=
  match text with
  | [] => []
  | _ =>
      let text := lower text in
      let text :=
        if remove_punctuation then delete_chars punctuation text else text in
      clean_text text
  end.

Definition remove_emails (text : str) : str :=
  match text with
  | [] => []
  | _ => clean_text (sub_emails text)
  end.

(** The flags [remove_urls], [remove_emails], [normalize] and
    [remove_punctuation] of the source are [with_urls_removed],
    [with_emails_removed], [normalized] and [remove_punctuation]. *)
Definition preprocess_for_similarity (text : str)
    (with_urls_removed with_emails_removed normalized remove_punctuation
       : bool) : str :=
  match text with
  | [] => []
  | _ =>
      let processed_text := clean_text text in
      let processed_text :=
        if with_urls_removed then remove_urls processed_text
        else processed_text in
      let processed_text :=
        if with_emails_removed then remove_emails processed_text
        else processed_text in
      let processed_text :=
        if normalized then normalize_text processed_text remove_punctuation
        else processed_text in
      processed_text
  end.

Definition preprocess_texts (texts : list str)
    (with_urls_removed with_emails_removed normalized remove_punctuation
       : bool) : list str :=
  map (fun text =>
         preprocess_for_similarity text with_urls_removed
           with_emails_removed normalized remove_punctuation) texts.

End Preprocessing.

End TextPreprocessor.

(** * Facts *)

(** *** Order facts about binary64 comparison

    Every comparison with a NaN is false; on the other values [flt] is a
    strict weak order whose equivalence is [feq] (which identifies [0.0]
    and [-0.0]). *)

Section FloatOrder.

Local Ltac cmp_cases :=
  repeat match goal with
  | |- context [Z.compare ?a ?b] =>
      destruct (Z.compare_spec a b); subst
  | H : context [Z.compare ?a ?b] |- _ =>
      destruct (Z.compare_spec a b); subst
  | |- context [Pos.compare_cont Eq ?a ?b] =>
      change (Pos.compare_cont Eq a b) with (Pos.compare a b);
      destruct (Pos.compare_spec a b); subst
  | H : context [Pos.compare_cont Eq ?a ?b] |- _ =>
      change (Pos.compare_cont Eq a b) with (Pos.compare a b) in H;
      destruct (Pos.compare_spec a b); subst
  end.

Local Ltac float_cases :=
  intros; unfold fge, fgt in *;
  unfold fle, flt, feq, SFleb, SFltb, SFeqb, is_nan in *;
  repeat match goal with
  | x : float64 |- _ => destruct x as [[]|[]| |[] ? ?]
  | x : spec_float |- _ => destruct x as [[]|[]| |[] ? ?]
  end;
  cbn [SFcompare CompOpp] in *;
  try discriminate; try reflexivity; try tauto;
  cmp_cases; cbn [CompOpp] in *;
  try discriminate; try reflexivity; try tauto; try lia.

Lemma fle_not_nan (a b : float64) :
  fle a b = true -> is_nan a = false /\ is_nan b = false.
Proof. float_cases. Qed.

Lemma flt_not_nan (a b : float64) :
  flt a b = true -> is_nan a = false /\ is_nan b = false.
Proof. float_cases. Qed.

Lemma feq_not_nan (a b : float64) :
  feq a b = true -> is_nan a = false /\ is_nan b = false.
Proof. float_cases. Qed.

Lemma fle_lt_or_eq (a b : float64) :
  fle a b = true <-> flt a b = true \/ feq a b = true.
Proof. float_cases; intuition discriminate. Qed.

Lemma flt_le (a b : float64) : flt a b = true -> fle a b = true.
Proof. float_cases. Qed.

Lemma flt_asym (a b : float64) : flt a b = true -> flt b a = false.
Proof. float_cases. Qed.

Lemma not_flt_fle (a b : float64) :
  is_nan a = false -> is_nan b = false -> flt a b = false -> fle b a = true.
Proof. float_cases. Qed.

Lemma fle_not_lt (a b : float64) : fle a b = true -> flt b a = false.
Proof. float_cases. Qed.

Lemma feq_sym (a b : float64) : feq a b = true -> feq b a = true.
Proof. float_cases. Qed.

Lemma feq_not_lt (a b : float64) : feq a b = true -> flt a b = false.
Proof. float_cases. Qed.

Lemma feq_refl_not_nan (a : float64) : is_nan a = false -> feq a a = true.
Proof.
  float_cases; try (rewrite Pos.compare_refl in *);
    try (rewrite Z.compare_refl in *); try discriminate; try lia.
Qed.

Lemma fle_trans (a b c : float64) :
  fle a b = true -> fle b c = true -> fle a c = true.
Proof. float_cases. Qed.

Lemma flt_le_trans (a b c : float64) :
  flt a b = true -> fle b c = true -> fle a c = true.
Proof. float_cases. Qed.

Lemma feq_trans (a b c : float64) :
  feq a b = true -> feq b c = true -> feq a c = true.
Proof. float_cases. Qed.

(** Negative transitivity: what a comparison sort relies on. *)
Lemma not_flt_trans (a b c : float64) :
  is_nan b = false -> flt a b = false -> flt b c = false -> flt a c = false.
Proof. float_cases. Qed.

Lemma feq_lt_l (a b c : float64) : feq a b = true -> flt a c = flt b c.
Proof. float_cases. Qed.

Lemma feq_lt_r (a b c : float64) : feq a b = true -> flt c a = flt c b.
Proof. float_cases. Qed.

Lemma fle_refl (a : float64) : is_nan a = false -> fle a a = true.
Proof. intros Ha. apply fle_lt_or_eq. right. by apply feq_refl_not_nan. Qed.

Lemma fle_total (a b : float64) :
  is_nan a = false -> is_nan b = false -> fle a b = false -> fle b a = true.
Proof. float_cases. Qed.

End FloatOrder.

(** ** Loops *)

(** A loop that never raises establishes an invariant indexed by the
    elements already visited. *)
Lemma for_in_invariant {S : Type} (I : list nat -> S -> Prop)
    (body : nat -> S -> result S) (xs pre : list nat) (s : S) :
  I pre s ->
  (forall done x s0, I done s0 -> x ∈ xs ->
     exists s1, body x s0 = Ok s1 /\ I (done ++ [x]) s1) ->
  exists s', for_in xs body s = Ok s' /\ I (pre ++ xs) s'.
Proof.
  revert pre s. induction xs as [|x xs IH]; intros pre s Hs Hstep; simpl.
  - exists s. by rewrite app_nil_r.
  - destruct (Hstep pre x s Hs) as (s1 & -> & H1); [left|].
    simpl. destruct (IH (pre ++ [x]) s1 H1) as (s' & Hs' & HI).
    + intros done y s0 H0 Hy. apply Hstep; [done|by right].
    + exists s'. split; [done|]. by rewrite <- app_assoc in HI.
Qed.

(** ** Arrays *)

Lemma square_lookup2 (n : nat) (a : ndarray) (i j : nat) :
  square n a -> i < n -> j < n -> is_Some (lookup2 a i j).
Proof.
  intros [Hlen Hrows] Hi Hj. unfold lookup2.
  destruct (lookup_lt_is_Some_2 a i) as [row Hrow]; [lia|].
  rewrite Hrow. simpl. apply lookup_lt_is_Some_2.
  rewrite Forall_forall in Hrows.
  rewrite (Hrows row); [done|]. by eapply list_elem_of_lookup_2.
Qed.

Lemma square_lookup2_None (n : nat) (a : ndarray) (i j : nat) :
  square n a -> n <= i \/ n <= j -> lookup2 a i j = None.
Proof.
  intros [Hlen Hrows] Hij. unfold lookup2.
  destruct (a !! i) as [row|] eqn:Hrow; [|done]. simpl.
  apply lookup_ge_None_2.
  rewrite Forall_forall in Hrows.
  rewrite (Hrows row); [|by eapply list_elem_of_lookup_2].
  apply lookup_lt_Some in Hrow. lia.
Qed.

Lemma square_zeros (n : nat) : square n (zeros n n).
Proof.
  split; unfold zeros; [by rewrite length_replicate|].
  apply Forall_forall. intros row Hrow.
  apply elem_of_replicate in Hrow as [-> _]. by rewrite length_replicate.
Qed.

Lemma lookup2_zeros (n i j : nat) :
  i < n -> j < n -> lookup2 (zeros n n) i j = Some zero.
Proof.
  intros Hi Hj. unfold lookup2, zeros.
  rewrite lookup_replicate_2 by done. simpl. by rewrite lookup_replicate_2.
Qed.

(** Writing a cell of a square array succeeds, keeps the shape, and changes
    that cell only. *)
Lemma setitem_square (n : nat) (a : ndarray) (i j : nat) (v : float64) :
  square n a -> i < n -> j < n ->
  exists a', setitem a i j v = Ok a' /\ square n a' /\
    forall x y, lookup2 a' x y =
      if decide (x = i /\ y = j) then Some v else lookup2 a x y.
Proof.
  intros Hsq Hi Hj. unfold setitem.
  destruct (square_lookup2 n a i j Hsq Hi Hj) as [old Hold].
  rewrite Hold. eexists. split; [done|].
  destruct Hsq as [Hlen Hrows]. split; [split|].
  - by rewrite length_alter.
  - rewrite Forall_forall in Hrows. apply Forall_forall. intros row Hrow.
    apply list_elem_of_lookup in Hrow as [k Hk].
    destruct (decide (k = i)) as [->|Hne].
    + unfold lookup2 in Hold. destruct (a !! i) as [r|] eqn:Hr; [|done].
      rewrite list_lookup_alter_eq, Hr in Hk. simpl in Hk.
      injection Hk as <-. rewrite length_insert. apply Hrows.
      by eapply list_elem_of_lookup_2.
    + rewrite list_lookup_alter_ne in Hk by done. apply Hrows.
      by eapply list_elem_of_lookup_2.
  - intros x y. unfold lookup2 in *.
    destruct (a !! i) as [r|] eqn:Hr; [|done]. simpl in Hold.
    destruct (decide (x = i)) as [->|Hne].
    + rewrite list_lookup_alter_eq, Hr. simpl.
      destruct (decide (y = j)) as [->|Hney].
      * rewrite decide_True by done. apply list_lookup_insert_eq.
        by eapply lookup_lt_Some.
      * rewrite decide_False by tauto. by apply list_lookup_insert_ne.
    + rewrite list_lookup_alter_ne by done.
      rewrite decide_False by tauto. done.
Qed.

Lemma getitem_Ok (a : ndarray) (i j : nat) (v : float64) :
  getitem a i j = Ok v <-> lookup2 a i j = Some v.
Proof.
  unfold getitem. destruct (lookup2 a i j); split; congruence.
Qed.

(** ** [calculate_similarity_matrix] *)

Section CalculateSimilarityMatrix.

Import SimilarityService.

Variable np_dot : list float64 -> list float64 -> float64.
Variable embeddings : ndarray.

#[local] Abbreviation n_texts := (length embeddings).

(** The invariant of both loops: the array is [n] by [n] and symmetric, and
    the diagonal cells of [D] hold [1.0]. *)
Definition sym_diag (n : nat) (D : nat -> Prop) (m : ndarray) : Prop :=
  square n m /\
  (forall x y, lookup2 m x y = lookup2 m y x) /\
  (forall x, D x -> lookup2 m x x = Some one).

Lemma sym_diag_zeros (n : nat) : sym_diag n (fun _ => False) (zeros n n).
Proof.
  split; [apply square_zeros|]. split; [|tauto].
  intros x y. destruct (decide (x < n /\ y < n)) as [[Hx Hy]|Hout].
  - by rewrite !lookup2_zeros.
  - rewrite !(square_lookup2_None n) by (apply square_zeros || lia). done.
Qed.

Lemma sym_diag_weaken (n : nat) (D D' : nat -> Prop) (m : ndarray) :
  (forall x, D' x -> D x) -> sym_diag n D m -> sym_diag n D' m.
Proof. intros HD (Hsq & Hsym & Hdiag). split; [done|]. split; auto. Qed.

Lemma similarity_cell_invariant (D : nat -> Prop) (i j : nat) (m : ndarray) :
  i < n_texts -> j < n_texts -> sym_diag n_texts D m ->
  exists m', similarity_cell np_dot embeddings i j m = Ok m' /\
    sym_diag n_texts (fun x => D x \/ (x = i /\ i = j)) m'.
Proof.
  intros Hi Hj (Hsq & Hsym & Hdiag). unfold similarity_cell.
  destruct (decide (i = j)) as [<-|Hne].
  - destruct (setitem_square _ m i i one Hsq Hi Hi) as (m' & -> & Hsq' & Hm').
    exists m'. split; [done|]. split; [done|]. split.
    + intros x y. rewrite !Hm'. repeat case_decide; try done; try lia.
      all: destruct_and?; subst; tauto.
    + intros x Hx. rewrite Hm'. case_decide; [done|].
      destruct Hx as [Hx|[-> _]]; [by apply Hdiag|tauto].
  - destruct (decide (i < j)) as [Hlt|Hge].
    + unfold getrow.
      destruct (lookup_lt_is_Some_2 embeddings i Hi) as [ei ->].
      destruct (lookup_lt_is_Some_2 embeddings j Hj) as [ej ->]. simpl.
      destruct (setitem_square n_texts m i j (np_dot ei ej) Hsq Hi Hj)
        as (m1 & -> & Hsq1 & Hm1). simpl.
      destruct (setitem_square n_texts m1 j i (np_dot ei ej) Hsq1 Hj Hi)
        as (m2 & -> & Hsq2 & Hm2).
      exists m2. split; [done|]. split; [done|]. split.
      * intros x y. rewrite !Hm2, !Hm1.
        repeat case_decide; try done; destruct_and?; subst; try lia; tauto.
      * intros x Hx. rewrite Hm2, Hm1.
        repeat case_decide; destruct_and?; subst; try lia.
        destruct Hx as [Hx|[_ Hx]]; [by apply Hdiag|done].
    + exists m. split; [done|]. split; [done|]. split; [done|].
      intros x [Hx|[_ Hx]]; [by apply Hdiag|done].
Qed.

Lemma similarity_row_invariant (D : nat -> Prop) (i : nat) (m : ndarray) :
  i < n_texts -> sym_diag n_texts D m ->
  exists m',
    for_in (range n_texts)
      (fun j m0 => similarity_cell np_dot embeddings i j m0) m = Ok m' /\
    sym_diag n_texts (fun x => D x \/ x = i) m'.
Proof.
  intros Hi Hm.
  destruct (for_in_invariant
    (fun done m0 => sym_diag n_texts (fun x => D x \/ (x = i /\ i ∈ done)) m0)
    (fun j m0 => similarity_cell np_dot embeddings i j m0)
    (range n_texts) [] m) as (m' & Hrun & Hm').
  - eapply sym_diag_weaken; [|exact Hm]. intros x [Hx|[_ Hx]]; [done|].
    by apply elem_of_nil in Hx.
  - intros done j m0 H0 Hj. apply elem_of_seq in Hj.
    destruct (similarity_cell_invariant
      (fun x => D x \/ (x = i /\ i ∈ done)) i j m0) as (m1 & -> & H1);
      [done|lia|exact H0|].
    exists m1. split; [done|]. eapply sym_diag_weaken; [|exact H1].
    intros x [Hx|[-> Hx]]; simpl.
    + left. by left.
    + apply elem_of_app in Hx as [Hx|Hx]; [left; right; done|].
      apply list_elem_of_singleton in Hx. right. done.
  - exists m'. split; [done|]. eapply sym_diag_weaken; [|exact Hm'].
    intros x [Hx| ->]; [by left|]. right. split; [done|].
    apply elem_of_seq. lia.
Qed.

Lemma similarity_matrix_invariant :
  exists m',
    for_in (range n_texts) (fun i m =>
      for_in (range n_texts)
        (fun j m0 => similarity_cell np_dot embeddings i j m0) m)
      (zeros n_texts n_texts) = Ok m' /\
    sym_diag n_texts (fun x => x < n_texts) m'.
Proof.
  destruct (for_in_invariant
    (fun done m0 => sym_diag n_texts (fun x => x ∈ done) m0)
    (fun i m => for_in (range n_texts)
       (fun j m0 => similarity_cell np_dot embeddings i j m0) m)
    (range n_texts) [] (zeros n_texts n_texts)) as (m' & Hrun & Hm').
  - eapply sym_diag_weaken; [|apply sym_diag_zeros].
    intros x Hx. by apply elem_of_nil in Hx.
  - intros done i m0 H0 Hi. apply elem_of_seq in Hi.
    destruct (similarity_row_invariant (fun x => x ∈ done) i m0)
      as (m1 & -> & H1); [lia|exact H0|].
    exists m1. split; [done|]. eapply sym_diag_weaken; [|exact H1].
    intros x Hx. apply elem_of_app in Hx as [Hx|Hx]; [by left|].
    apply list_elem_of_singleton in Hx. by right.
  - exists m'. split; [done|]. eapply sym_diag_weaken; [|exact Hm'].
    intros x Hx. apply elem_of_seq. simpl. lia.
Qed.

(** C1.  Whenever [calculate_similarity_matrix] returns a matrix (which it
    does for every array with at least one element), that matrix is [n] by
    [n] for the [n] input vectors, the cells [(i, j)] and [(j, i)] hold the
    same float for all [i, j < n], and every diagonal entry is exactly
    [1.0], whatever the vectors hold and whatever [np.dot] computes. *)
Theorem calculate_similarity_matrix_symmetric_unit_diagonal :
  (size embeddings <> 0 ->
   exists m, calculate_similarity_matrix np_dot embeddings = Ok m) /\
  (forall m, calculate_similarity_matrix np_dot embeddings = Ok m ->
     square n_texts m /\
     (forall i j, i < n_texts -> j < n_texts ->
        exists v, getitem m i j = Ok v /\ getitem m j i = Ok v) /\
     (forall i, i < n_texts -> getitem m i i = Ok one)).
Proof.
  destruct similarity_matrix_invariant
    as (m' & Hrun & Hsq & Hsym & Hdiag).
  unfold calculate_similarity_matrix, shape0. split.
  - intros Hsize. rewrite decide_False by done. by exists m'.
  - intros m. case_decide; [done|]. rewrite Hrun. intros [= <-].
    split; [done|]. split.
    + intros i j Hi Hj.
      destruct (square_lookup2 _ m' i j Hsq Hi Hj) as [v Hv].
      exists v. rewrite !getitem_Ok. by rewrite <- (Hsym i j).
    + intros i Hi. apply getitem_Ok. by apply Hdiag.
Qed.

End CalculateSimilarityMatrix.

(** The matrix of three one-dimensional vectors, with a product that
    multiplies their first components. *)
Definition dot1 (u v : list float64) : float64 :=
  fmul (default zero (head u)) (default zero (head v)).

Definition three_vectors : ndarray := [[one]; [f0_7]; [f0_1]].

Lemma calculate_similarity_matrix_witness :
  let m := [[one; f0_7; f0_1];
            [f0_7; one; S754_finite false 5044031582654955 (-56)];
            [f0_1; S754_finite false 5044031582654955 (-56); one]] in
  SimilarityService.calculate_similarity_matrix dot1 three_vectors = Ok m /\
  (square 3 m /\
   (forall i j, i < 3 -> j < 3 ->
      exists v, getitem m i j = Ok v /\ getitem m j i = Ok v) /\
   (forall i, i < 3 -> getitem m i i = Ok one)).
Proof.
  intros m. assert (Hrun :
    SimilarityService.calculate_similarity_matrix dot1 three_vectors = Ok m)
    by (vm_compute; reflexivity).
  split; [exact Hrun|].
  exact (proj2
    (calculate_similarity_matrix_symmetric_unit_diagonal dot1 three_vectors)
    m Hrun).
Defined.

(** ** The sort *)

Section SortFacts.

Context {A : Type}.
Variable key : A -> float64.

(** [a] may stand before [b] in a descending order of keys. *)
Definition not_below (a b : A) : Prop := flt (key a) (key b) = false.

(** The elements whose key compares equal to [k]. *)
Definition same_key (k : float64) (a : A) : Prop := feq (key a) k = true.

#[local] Instance same_key_dec (k : float64) (a : A) : Decision (same_key k a).
Proof. unfold same_key. apply _. Defined.

Lemma insert_reverse_perm (x : A) (l : list A) :
  insert_reverse key x l ≡ₚ x :: l.
Proof.
  induction l as [|y l IH]; simpl; [done|].
  destruct (flt (key x) (key y)); [|done].
  rewrite IH. apply Permutation_swap.
Qed.

Lemma sort_reverse_perm (l : list A) : sort_reverse key l ≡ₚ l.
Proof.
  induction l as [|x l IH]; simpl; [done|].
  rewrite insert_reverse_perm. by rewrite IH.
Qed.

Lemma insert_reverse_sorted (x : A) (l : list A) :
  Forall (fun y => is_nan (key y) = false) l ->
  StronglySorted not_below l ->
  StronglySorted not_below (insert_reverse key x l).
Proof.
  intros Hnan Hl. induction Hl as [|y l Hl IH Hy]; simpl.
  - repeat constructor.
  - apply Forall_cons in Hnan as [Hynan Hnan].
    destruct (flt (key x) (key y)) eqn:Hxy.
    + constructor; [by apply IH|].
      rewrite insert_reverse_perm. constructor; [|done].
      by apply flt_asym.
    + constructor; [by constructor|]. constructor; [done|].
      rewrite Forall_forall in Hy. apply Forall_forall. intros z Hz.
      eapply not_flt_trans; [exact Hynan|exact Hxy|by apply Hy].
Qed.

Lemma sort_reverse_sorted (l : list A) :
  Forall (fun y => is_nan (key y) = false) l ->
  StronglySorted not_below (sort_reverse key l).
Proof.
  induction l as [|x l IH]; intros Hnan; simpl; [constructor|].
  apply Forall_cons in Hnan as [_ Hnan].
  apply insert_reverse_sorted; [|by apply IH].
  by rewrite sort_reverse_perm.
Qed.

(** Stability: the elements of one key keep the order they came in. *)
Lemma insert_reverse_stable (k : float64) (x : A) (l : list A) :
  filter (same_key k) (insert_reverse key x l) = filter (same_key k) (x :: l).
Proof.
  induction l as [|y l IH]; simpl; [done|].
  destruct (flt (key x) (key y)) eqn:Hxy; [|done].
  rewrite filter_cons, IH, !filter_cons.
  destruct (decide (same_key k y)) as [Hy|Hy];
    destruct (decide (same_key k x)) as [Hx|Hx]; try done.
  unfold same_key in *.
  assert (feq (key x) (key y) = true) as Heq
    by (eapply feq_trans; [exact Hx|by apply feq_sym]).
  apply feq_not_lt in Heq. congruence.
Qed.

Lemma sort_reverse_stable (k : float64) (l : list A) :
  filter (same_key k) (sort_reverse key l) = filter (same_key k) l.
Proof.
  induction l as [|x l IH]; simpl; [done|].
  rewrite insert_reverse_stable, !filter_cons. by rewrite IH.
Qed.

Lemma StronglySorted_filter_keep (R : relation A) (P : A -> Prop)
    `{!forall a, Decision (P a)} (l : list A) :
  StronglySorted R l -> StronglySorted R (filter P l).
Proof.
  induction 1 as [|x l Hl IH Hx]; [constructor|].
  rewrite filter_cons. destruct (decide (P x)); [|done].
  constructor; [done|]. rewrite Forall_forall in Hx.
  apply Forall_forall. intros y Hy. apply list_elem_of_filter in Hy as [_ Hy].
  by apply Hx.
Qed.

(** A list in descending order of keys in which every class of equal keys
    is in the order [R] is in the order "greater key first, then [R]". *)
Lemma StronglySorted_classes (R : relation A) (l : list A) :
  Forall (fun y => is_nan (key y) = false) l ->
  StronglySorted not_below l ->
  (forall k, StronglySorted R (filter (same_key k) l)) ->
  StronglySorted
    (fun a b => fgt (key a) (key b) = true \/
                (feq (key a) (key b) = true /\ R a b)) l.
Proof.
  intros Hnan Hl. induction Hl as [|x l Hl IH Hx]; intros Hcls; [constructor|].
  apply Forall_cons in Hnan as [Hxnan Hnan].
  assert (same_key (key x) x) as Hxx by (by apply feq_refl_not_nan).
  constructor.
  - apply IH; [done|]. intros k. specialize (Hcls k).
    rewrite filter_cons in Hcls. destruct (decide (same_key k x)); [|done].
    by apply StronglySorted_inv in Hcls as [? _].
  - specialize (Hcls (key x)). rewrite filter_cons_True in Hcls by done.
    apply StronglySorted_inv in Hcls as [_ Hcls].
    rewrite Forall_forall in Hx, Hnan, Hcls.
    apply Forall_forall. intros y Hy.
    assert (fle (key y) (key x) = true) as Hle
      by (apply not_flt_fle; [done|by apply Hnan|by apply Hx]).
    apply fle_lt_or_eq in Hle as [Hlt|Heq]; [by left|]. right.
    split; [by apply feq_sym|]. apply Hcls.
    apply list_elem_of_filter. done.
Qed.

End SortFacts.

(** ** [find_similar_pairs] *)

Section FindSimilarPairs.

Import SimilarityService.

(** The index pair of a raw pair, and the ascending order of index pairs. *)
Definition indices (p : raw_pair) : nat * nat := (p.1.1, p.1.2).

Definition index_lt (p q : raw_pair) : Prop :=
  p.1.1 < q.1.1 \/ (p.1.1 = q.1.1 /\ p.1.2 < q.1.2).

(** The order of the output: greater score first, and among pairs whose
    scores compare equal, smaller index pair first. *)
Definition pair_before (p q : raw_pair) : Prop :=
  fgt (score p) (score q) = true \/
  (feq (score p) (score q) = true /\ index_lt p q).

(** What one cell of the upper triangle adds to [similar_pairs]. *)
Definition cell_pairs (m : ndarray) (threshold : float64) (i j : nat)
    : list raw_pair :=
  match lookup2 m i j with
  | Some v => if fge v threshold then [(i, j, v)] else []
  | None => []
  end.

(** [similar_pairs] when the loops are over. *)
Definition upper_pairs (n : nat) (m : ndarray) (threshold : float64)
    : list raw_pair :=
  i ← range n; j ← range_from (i + 1) n; cell_pairs m threshold i j.

Lemma for_in_append {B : Type} (g : nat -> list B)
    (body : nat -> list B -> result (list B)) (xs : list nat) (acc : list B) :
  (forall x acc0, x ∈ xs -> body x acc0 = Ok (acc0 ++ g x)) ->
  for_in xs body acc = Ok (acc ++ (xs ≫= g)).
Proof.
  revert acc. induction xs as [|x xs IH]; intros acc Hbody; simpl.
  - by rewrite app_nil_r.
  - rewrite Hbody by left. simpl. rewrite IH.
    + by rewrite <- app_assoc.
    + intros y acc0 Hy. apply Hbody. by right.
Qed.

Lemma scan_pairs_square (n : nat) (m : ndarray) (threshold : float64) :
  square n m -> scan_pairs m threshold = Ok (upper_pairs n m threshold).
Proof.
  intros Hsq. unfold scan_pairs, upper_pairs, shape0.
  destruct Hsq as [Hlen Hrows]. rewrite Hlen.
  rewrite (for_in_append
    (fun i => range_from (i + 1) n ≫= cell_pairs m threshold i)); [done|].
  intros i acc Hi. apply for_in_append. intros j acc0 Hj.
  apply elem_of_seq in Hi. apply elem_of_seq in Hj.
  destruct (square_lookup2 n m i j) as [v Hv]; [done|lia|lia|].
  unfold getitem, cell_pairs. rewrite Hv. simpl.
  destruct (fge v threshold); [done|by rewrite app_nil_r].
Qed.

Lemma elem_of_upper_pairs (n : nat) (m : ndarray) (threshold : float64)
    (i j : nat) (s : float64) :
  (i, j, s) ∈ upper_pairs n m threshold <->
  i < j /\ j < n /\ lookup2 m i j = Some s /\ fge s threshold = true.
Proof.
  unfold upper_pairs. rewrite list_elem_of_bind. split.
  - intros (i' & Hin & Hi'). apply list_elem_of_bind in Hin as (j' & Hin & Hj').
    apply elem_of_seq in Hi'. apply elem_of_seq in Hj'.
    unfold cell_pairs in Hin. destruct (lookup2 m i' j') as [v|] eqn:Hv;
      [|by apply elem_of_nil in Hin].
    destruct (fge v threshold) eqn:Hge; [|by apply elem_of_nil in Hin].
    apply list_elem_of_singleton in Hin. injection Hin as -> -> ->.
    repeat split; try done; lia.
  - intros (Hij & Hj & Hv & Hge). exists i. split; [|apply elem_of_seq; lia].
    apply list_elem_of_bind. exists j. split; [|apply elem_of_seq; lia].
    unfold cell_pairs. rewrite Hv, Hge. by apply list_elem_of_singleton.
Qed.

Lemma StronglySorted_seq (a n : nat) : StronglySorted Nat.lt (seq a n).
Proof.
  revert a. induction n as [|n IH]; intros a; simpl; constructor; [done|].
  apply Forall_forall. intros x Hx. apply elem_of_seq in Hx.
  unfold Nat.lt. lia.
Qed.

Lemma StronglySorted_bind {B C : Type} (S : relation B) (R : relation C)
    (f : B -> list C) (l : list B) :
  StronglySorted S l ->
  (forall x, x ∈ l -> StronglySorted R (f x)) ->
  (forall x y a b, S x y -> a ∈ f x -> b ∈ f y -> R a b) ->
  StronglySorted R (l ≫= f).
Proof.
  intros Hl Hf HR. induction Hl as [|x l Hl IH Hx]; [constructor|].
  rewrite bind_cons. apply StronglySorted_app. split; [|split].
  - intros a b Ha Hb. apply list_elem_of_bind in Hb as (y & Hb & Hy).
    rewrite Forall_forall in Hx. eapply HR; [by apply Hx|done..].
  - apply Hf. left.
  - apply IH. intros y Hy. apply Hf. by right.
Qed.

(** The loops meet the cells in ascending order of index pairs. *)
Lemma upper_pairs_sorted (n : nat) (m : ndarray) (threshold : float64) :
  StronglySorted index_lt (upper_pairs n m threshold).
Proof.
  assert (Hcell : forall i j p, p ∈ cell_pairs m threshold i j ->
            p.1.1 = i /\ p.1.2 = j).
  { intros i j p. unfold cell_pairs.
    destruct (lookup2 m i j) as [v|]; [|by intros ?%elem_of_nil].
    destruct (fge v threshold); [|by intros ?%elem_of_nil].
    by intros ->%list_elem_of_singleton. }
  unfold upper_pairs.
  apply (StronglySorted_bind Nat.lt); [apply StronglySorted_seq| |].
  - intros i _.
    apply (StronglySorted_bind Nat.lt); [apply StronglySorted_seq| |].
    + intros j _. unfold cell_pairs.
      destruct (lookup2 m i j) as [v|]; [|constructor].
      destruct (fge v threshold); repeat constructor.
    + intros j j' p q Hjj' Hp%Hcell Hq%Hcell. right. unfold Nat.lt in Hjj'.
      lia.
  - intros i i' p q Hii' Hp Hq.
    apply list_elem_of_bind in Hp as (j & Hp%Hcell & _).
    apply list_elem_of_bind in Hq as (j' & Hq%Hcell & _).
    left. unfold Nat.lt in Hii'. lia.
Qed.

Lemma index_lt_NoDup (l : list raw_pair) :
  StronglySorted index_lt l -> NoDup (indices <$> l).
Proof.
  induction 1 as [|p l Hl IH Hp]; simpl; constructor; [|done].
  intros Hin. apply list_elem_of_fmap in Hin as (q & Hq & Hin).
  rewrite Forall_forall in Hp. specialize (Hp q Hin).
  unfold indices in Hq. injection Hq as H1 H2. unfold index_lt in Hp. lia.
Qed.

(** On a square matrix and a valid threshold the function returns the
    stable descending sort of the pairs met by the loops. *)
Lemma find_similar_pairs_square (n : nat) (m : ndarray) (threshold : float64) :
  square n m -> valid_threshold threshold = true ->
  find_similar_pairs m threshold
    = Ok (sort_reverse score (upper_pairs n m threshold)).
Proof.
  intros Hsq Hvalid. unfold find_similar_pairs.
  rewrite Hvalid. simpl. by rewrite (scan_pairs_square n).
Qed.

Lemma upper_pairs_not_nan (n : nat) (m : ndarray) (threshold : float64) :
  Forall (fun p => is_nan (score p) = false) (upper_pairs n m threshold).
Proof.
  apply Forall_forall. intros [[i j] s] Hp.
  apply elem_of_upper_pairs in Hp as (_ & _ & _ & Hge).
  unfold fge in Hge. by apply fle_not_nan in Hge as [_ ?].
Qed.

Lemma for_in_raise {S : Type} (P : exn -> Prop)
    (body : nat -> S -> result S) (xs : list nat) (s : S) (e : exn) :
  (forall x s0 e0, body x s0 = Raise e0 -> P e0) ->
  for_in xs body s = Raise e -> P e.
Proof.
  intros Hbody. revert s. induction xs as [|x xs IH]; intros s; simpl; [done|].
  destruct (body x s) as [s1|e1] eqn:Hx; simpl.
  - apply IH.
  - intros [= <-]. by eapply Hbody.
Qed.

(** The scan raises nothing but [IndexError]. *)
Lemma scan_pairs_raise (m : ndarray) (threshold : float64) (e : exn) :
  scan_pairs m threshold = Raise e -> e = IndexError.
Proof.
  unfold scan_pairs. apply (for_in_raise (fun e => e = IndexError)).
  intros i acc e0.
  apply (for_in_raise (fun e => e = IndexError)). intros j acc0 e1.
  unfold getitem. destruct (lookup2 m i j) as [v|]; simpl; [|congruence].
  by destruct (fge v threshold).
Qed.

Lemma pair_before_antisym (p q : raw_pair) :
  pair_before p q -> pair_before q p -> p = q.
Proof.
  unfold pair_before, fgt, index_lt.
  intros [Hpq|[Hpq Hi]] [Hqp|[Hqp Hi']]; exfalso.
  - apply flt_asym in Hpq. congruence.
  - apply feq_not_lt in Hqp. congruence.
  - apply feq_not_lt in Hpq. congruence.
  - lia.
Qed.

(** C2.  On a square matrix and a threshold in [[0.0, 1.0]],
    [find_similar_pairs] returns a list that holds exactly the triples
    [(i, j, s)] with [i < j], [s] the matrix entry at [(i, j)] and
    [s >= threshold]; no index pair occurs twice in it. *)
Theorem find_similar_pairs_exact (n : nat) (m : ndarray)
    (threshold : float64) :
  square n m -> valid_threshold threshold = true ->
  exists l, find_similar_pairs m threshold = Ok l /\
    NoDup (indices <$> l) /\
    forall i j s, (i, j, s) ∈ l <->
      i < j /\ j < n /\ getitem m i j = Ok s /\ fge s threshold = true.
Proof.
  intros Hsq Hvalid. eexists. split; [by apply find_similar_pairs_square|].
  split.
  - rewrite sort_reverse_perm. apply index_lt_NoDup, upper_pairs_sorted.
  - intros i j s. rewrite sort_reverse_perm, elem_of_upper_pairs.
    by rewrite getitem_Ok.
Qed.

(** C3.  The list returned by [find_similar_pairs] is in descending order of
    score, pairs whose scores compare equal being in ascending order of
    [(index1, index2)]; it is the only arrangement of its pairs in that
    order, so the output is determined by the matrix and the threshold. *)
Theorem find_similar_pairs_sorted (n : nat) (m : ndarray)
    (threshold : float64) :
  square n m -> valid_threshold threshold = true ->
  exists l, find_similar_pairs m threshold = Ok l /\
    StronglySorted pair_before l /\
    (forall l', l' ≡ₚ l -> StronglySorted pair_before l' -> l' = l).
Proof.
  intros Hsq Hvalid. eexists. split; [by apply find_similar_pairs_square|].
  assert (StronglySorted pair_before
            (sort_reverse score (upper_pairs n m threshold))) as Hsorted.
  { apply (StronglySorted_classes score index_lt).
    - rewrite sort_reverse_perm. apply upper_pairs_not_nan.
    - apply sort_reverse_sorted, upper_pairs_not_nan.
    - intros k. rewrite sort_reverse_stable.
      apply StronglySorted_filter_keep, upper_pairs_sorted. }
  split; [done|]. intros l' Hperm Hl'.
  eapply StronglySorted_unique_strong; [|done..].
  intros p q _ _. apply pair_before_antisym.
Qed.

(** C4.  On a square matrix, every pair returned for a threshold is also
    returned for any lower threshold. *)
Theorem find_similar_pairs_threshold_monotone (n : nat) (m : ndarray)
    (threshold1 threshold2 : float64) :
  square n m ->
  valid_threshold threshold1 = true -> valid_threshold threshold2 = true ->
  flt threshold1 threshold2 = true ->
  exists l1 l2,
    find_similar_pairs m threshold1 = Ok l1 /\
    find_similar_pairs m threshold2 = Ok l2 /\
    forall p, p ∈ l2 -> p ∈ l1.
Proof.
  intros Hsq Hv1 Hv2 Hlt. do 2 eexists.
  split; [by apply find_similar_pairs_square|].
  split; [by apply find_similar_pairs_square|].
  intros [[i j] s]. rewrite !sort_reverse_perm, !elem_of_upper_pairs.
  intros (Hij & Hj & Hs & Hge). repeat split; try done.
  unfold fge in *. by eapply flt_le_trans.
Qed.

(** C6.  [find_similar_pairs] raises [ValueError] exactly when the threshold
    is not in [[0.0, 1.0]]; with a threshold in that interval it returns on
    every square matrix; and with a threshold outside it the outcome is the
    same whatever the matrix, even one whose scan would fail, so that no
    entry is read before the check. *)
Theorem find_similar_pairs_validation :
  (forall m threshold,
     (exists msg, find_similar_pairs m threshold = Raise (ValueError msg)) <->
     ~ (fle zero threshold = true /\ fle threshold one = true)) /\
  (forall n m threshold,
     square n m -> fle zero threshold = true -> fle threshold one = true ->
     exists l, find_similar_pairs m threshold = Ok l) /\
  (forall m m' threshold,
     ~ (fle zero threshold = true /\ fle threshold one = true) ->
     find_similar_pairs m threshold = find_similar_pairs m' threshold).
Proof.
  assert (Hvalid : forall t, valid_threshold t = true <->
            fle zero t = true /\ fle t one = true).
  { intros t. unfold valid_threshold. apply andb_true_iff. }
  split; [|split].
  - intros m t. rewrite <- Hvalid. unfold find_similar_pairs.
    destruct (valid_threshold t); simpl.
    + split; [|done]. intros [msg Hmsg].
      destruct (scan_pairs m t) as [l|e] eqn:Hscan; [done|].
      apply scan_pairs_raise in Hscan. simpl in Hmsg. congruence.
    + split; [done|]. intros _. by eexists.
  - intros n m t Hsq H0 H1. eexists.
    apply (find_similar_pairs_square n); [done|]. by apply Hvalid.
  - intros m m' t. rewrite <- Hvalid. unfold find_similar_pairs.
    by destruct (valid_threshold t).
Qed.

(** C10.  Two square matrices of one size that agree on every entry
    [(i, j)] with [i < j] give the same output for every valid threshold. *)
Theorem find_similar_pairs_upper_triangle_only (n : nat) (m1 m2 : ndarray)
    (threshold : float64) :
  square n m1 -> square n m2 ->
  (forall i j, i < j -> j < n -> getitem m1 i j = getitem m2 i j) ->
  valid_threshold threshold = true ->
  exists l, find_similar_pairs m1 threshold = Ok l /\
            find_similar_pairs m2 threshold = Ok l.
Proof.
  intros Hsq1 Hsq2 Hagree Hvalid. eexists.
  split; [by apply find_similar_pairs_square|].
  rewrite (find_similar_pairs_square n) by done. do 2 f_equal.
  unfold upper_pairs. apply Forall_bind_ext, Forall_forall. intros i Hi.
  apply Forall_bind_ext, Forall_forall. intros j Hj.
  apply elem_of_seq in Hi. apply elem_of_seq in Hj.
  specialize (Hagree i j). unfold getitem in Hagree. unfold cell_pairs.
  destruct (square_lookup2 n m1 i j) as [v1 Hv1]; [done|lia|lia|].
  destruct (square_lookup2 n m2 i j) as [v2 Hv2]; [done|lia|lia|].
  rewrite Hv1, Hv2 in *.
  assert (v1 = v2) as -> by (injection Hagree; [done|lia|lia]).
  done.
Qed.

End FindSimilarPairs.

(** *** The scenario of three documents

    The matrix [[1, 0.9, 0.2], [0.9, 1, 0.3], [0.2, 0.3, 1]]. *)

Definition f0_9 : float64 := S754_finite false 8106479329266893 (-53).
Definition f0_2 : float64 := S754_finite false 7205759403792794 (-55).
Definition f0_3 : float64 := S754_finite false 5404319552844595 (-54).

Definition scenario_matrix : ndarray :=
  [[one; f0_9; f0_2]; [f0_9; one; f0_3]; [f0_2; f0_3; one]].

(** The same upper triangle under another diagonal and lower triangle. *)
Definition scenario_upper : ndarray :=
  [[zero; f0_9; f0_2]; [S754_nan; f0_1; f0_3]; [one; one; f0_7]].

Lemma square_scenario_matrix : square 3 scenario_matrix.
Proof. split; [reflexivity|]. repeat constructor. Defined.

Lemma square_scenario_upper : square 3 scenario_upper.
Proof. split; [reflexivity|]. repeat constructor. Defined.

Example find_similar_pairs_scenario :
  SimilarityService.find_similar_pairs scenario_matrix f0_7
    = Ok [(0, 1, f0_9)].
Proof. reflexivity. Qed.

(** Pairs whose scores compare equal ([0.0] and [-0.0]) stay in the order of
    the scan, ascending in [(index1, index2)]. *)
Example find_similar_pairs_ties :
  SimilarityService.find_similar_pairs
    [[one; S754_zero true; f0_7; zero];
     [zero; one; zero; S754_zero true];
     [zero; zero; one; zero];
     [zero; zero; zero; one]] zero
    = Ok [(0, 2, f0_7); (0, 1, S754_zero true); (0, 3, zero); (1, 2, zero);
          (1, 3, S754_zero true); (2, 3, zero)].
Proof. reflexivity. Qed.

Example find_similar_pairs_scenario_all :
  SimilarityService.find_similar_pairs scenario_matrix zero
    = Ok [(0, 1, f0_9); (1, 2, f0_3); (0, 2, f0_2)].
Proof. reflexivity. Qed.

Lemma find_similar_pairs_exact_witness :
  square 3 scenario_matrix /\
  SimilarityService.valid_threshold f0_7 = true /\
  exists l, SimilarityService.find_similar_pairs scenario_matrix f0_7 = Ok l /\
    NoDup (indices <$> l) /\
    forall i j s, (i, j, s) ∈ l <->
      i < j /\ j < 3 /\ getitem scenario_matrix i j = Ok s /\
      fge s f0_7 = true.
Proof.
  split; [exact square_scenario_matrix|]. split; [reflexivity|].
  exact (find_similar_pairs_exact 3 scenario_matrix f0_7
           square_scenario_matrix eq_refl).
Defined.

Lemma find_similar_pairs_sorted_witness :
  square 3 scenario_matrix /\
  SimilarityService.valid_threshold zero = true /\
  exists l, SimilarityService.find_similar_pairs scenario_matrix zero = Ok l /\
    StronglySorted pair_before l /\
    (forall l', l' ≡ₚ l -> StronglySorted pair_before l' -> l' = l).
Proof.
  split; [exact square_scenario_matrix|]. split; [reflexivity|].
  exact (find_similar_pairs_sorted 3 scenario_matrix zero
           square_scenario_matrix eq_refl).
Defined.

Lemma find_similar_pairs_threshold_monotone_witness :
  square 3 scenario_matrix /\
  SimilarityService.valid_threshold f0_2 = true /\
  SimilarityService.valid_threshold f0_7 = true /\
  flt f0_2 f0_7 = true /\
  exists l1 l2,
    SimilarityService.find_similar_pairs scenario_matrix f0_2 = Ok l1 /\
    SimilarityService.find_similar_pairs scenario_matrix f0_7 = Ok l2 /\
    forall p, p ∈ l2 -> p ∈ l1.
Proof.
  split; [exact square_scenario_matrix|]. do 3 (split; [reflexivity|]).
  exact (find_similar_pairs_threshold_monotone 3 scenario_matrix f0_2 f0_7
           square_scenario_matrix eq_refl eq_refl eq_refl).
Defined.

Lemma find_similar_pairs_validation_witness :
  (exists msg,
     SimilarityService.find_similar_pairs scenario_matrix S754_nan
       = Raise (ValueError msg)) /\
  (exists l, SimilarityService.find_similar_pairs scenario_matrix one = Ok l) /\
  SimilarityService.find_similar_pairs scenario_matrix (S754_infinity false)
    = SimilarityService.find_similar_pairs [[one]; []] (S754_infinity false).
Proof.
  destruct find_similar_pairs_validation as (Hiff & Hok & Hsame).
  split; [|split].
  - apply Hiff. intros [H _]. discriminate H.
  - apply (Hok 3); [exact square_scenario_matrix|reflexivity|reflexivity].
  - apply Hsame. intros [_ H]. discriminate H.
Defined.

Lemma find_similar_pairs_upper_triangle_only_witness :
  square 3 scenario_matrix /\ square 3 scenario_upper /\
  (forall i j, i < j -> j < 3 ->
     getitem scenario_matrix i j = getitem scenario_upper i j) /\
  SimilarityService.valid_threshold f0_2 = true /\
  exists l,
    SimilarityService.find_similar_pairs scenario_matrix f0_2 = Ok l /\
    SimilarityService.find_similar_pairs scenario_upper f0_2 = Ok l.
Proof.
  assert (Hagree : forall i j, i < j -> j < 3 ->
            getitem scenario_matrix i j = getitem scenario_upper i j).
  { intros i j Hij Hj.
    destruct j as [|[|[|j]]]; [lia| | |lia];
      destruct i as [|[|i]]; try lia; reflexivity. }
  split; [exact square_scenario_matrix|].
  split; [exact square_scenario_upper|].
  split; [exact Hagree|]. split; [reflexivity|].
  exact (find_similar_pairs_upper_triangle_only 3 scenario_matrix
           scenario_upper f0_2 square_scenario_matrix square_scenario_upper
           Hagree eq_refl).
Defined.

(** ** [get_similarity_statistics] *)

Section Statistics.

Import SimilarityService.

Context `{!Reductions}.

(** What one cell adds to [upper_triangle], and the list when the loops are
    over. *)
Definition cell_value (m : ndarray) (i j : nat) : list float64 :=
  match lookup2 m i j with
  | Some v => [v]
  | None => []
  end.

Definition upper_values (n : nat) (m : ndarray) : list float64 :=
  i ← range n; j ← range_from (i + 1) n; cell_value m i j.

Definition zero_statistics : statistics :=
  {| total_pairs := 0; mean_similarity := zero; max_similarity := zero;
     min_similarity := zero; std_similarity := zero |}.

Lemma upper_triangle_of_square (n : nat) (m : ndarray) :
  square n m -> upper_triangle_of m = Ok (upper_values n m).
Proof.
  intros Hsq. unfold upper_triangle_of, upper_values, shape0.
  destruct Hsq as [Hlen Hrows]. rewrite Hlen.
  rewrite (for_in_append
    (fun i => range_from (i + 1) n ≫= cell_value m i)); [done|].
  intros i acc Hi. apply for_in_append. intros j acc0 Hj.
  apply elem_of_seq in Hi. apply elem_of_seq in Hj.
  destruct (square_lookup2 n m i j) as [v Hv]; [done|lia|lia|].
  unfold getitem, cell_value. by rewrite Hv.
Qed.

Lemma elem_of_upper_values (n : nat) (m : ndarray) (v : float64) :
  v ∈ upper_values n m <->
  exists i j, i < j /\ j < n /\ lookup2 m i j = Some v.
Proof.
  unfold upper_values. rewrite list_elem_of_bind. split.
  - intros (i & Hin & Hi). apply list_elem_of_bind in Hin as (j & Hin & Hj).
    apply elem_of_seq in Hi. apply elem_of_seq in Hj.
    unfold cell_value in Hin. destruct (lookup2 m i j) as [w|] eqn:Hw;
      [|by apply elem_of_nil in Hin].
    apply list_elem_of_singleton in Hin as ->.
    exists i, j. repeat split; try done; lia.
  - intros (i & j & Hij & Hj & Hv). exists i. split; [|apply elem_of_seq; lia].
    apply list_elem_of_bind. exists j. split; [|apply elem_of_seq; lia].
    unfold cell_value. rewrite Hv. by apply list_elem_of_singleton.
Qed.

Lemma length_bind_singletons {B C : Type} (f : B -> list C) (l : list B) :
  (forall x, x ∈ l -> length (f x) = 1) -> length (l ≫= f) = length l.
Proof.
  induction l as [|x l IH]; intros Hf; [done|].
  rewrite bind_cons, length_app, Hf by left. simpl. f_equal.
  apply IH. intros y Hy. apply Hf. by right.
Qed.

Lemma length_bind_triangle {C : Type} (f : nat -> list C) (k a : nat) :
  (forall i, a <= i < a + k -> length (f i) = a + k - (i + 1)) ->
  2 * length (seq a k ≫= f) = k * (k - 1).
Proof.
  revert a. induction k as [|k IH]; intros a Hf; [done|].
  simpl seq. rewrite bind_cons, length_app, Hf by lia.
  specialize (IH (S a)). rewrite Nat.mul_add_distr_l, IH.
  - replace (a + S k - (a + 1)) with k by lia. destruct k; simpl; lia.
  - intros i Hi. rewrite Hf by lia. lia.
Qed.

Lemma length_upper_values (n : nat) (m : ndarray) :
  square n m -> length (upper_values n m) = n * (n - 1) / 2.
Proof.
  intros Hsq.
  assert (2 * length (upper_values n m) = n * (n - 1)) as Htwice.
  { unfold upper_values, range. apply length_bind_triangle. intros i Hi.
    unfold range_from. rewrite length_bind_singletons.
    - rewrite length_seq. lia.
    - intros j Hj. apply elem_of_seq in Hj.
      destruct (square_lookup2 n m i j) as [v Hv]; [done|lia|lia|].
      unfold cell_value. by rewrite Hv. }
  rewrite <- Htwice. rewrite Nat.mul_comm. by rewrite Nat.div_mul.
Qed.

(** What [np.max] and [np.min] promise on an array that is not empty and
    holds no NaN: an element of the array that no element exceeds, and one
    that exceeds no element. *)
Definition bounding : Prop :=
  forall l, l <> [] -> Forall (fun y => is_nan y = false) l ->
    amax l ∈ l /\ Forall (fun y => fle y (amax l) = true) l /\
    amin l ∈ l /\ Forall (fun y => fle (amin l) y = true) l.

Lemma triangle_pos (n : nat) : 2 <= n -> 1 <= n * (n - 1) / 2.
Proof.
  intros Hn. apply Nat.div_le_lower_bound; [lia|].
  destruct n as [|[|n]]; lia.
Qed.

(** C5, amended.  On an [n] by [n] matrix [get_similarity_statistics]
    returns, without raising, a record whose [total_pairs] is
    [n * (n - 1) / 2]; for [n <= 1] every field is zero; for [n >= 2] the
    four statistics are [np.mean], [np.max], [np.min] and [np.std] of the
    [n * (n - 1) / 2] entries of the upper triangle; and when
    [total_pairs > 0], [np.max] and [np.min] keep their promise and no entry of
    the upper triangle is a NaN, [min_similarity] and [max_similarity] are
    entries of the upper triangle, every entry of the upper triangle lies
    between them, and so [min_similarity <= max_similarity].  The mean is
    not bounded by them. *)
Theorem get_similarity_statistics_consistent (n : nat) (m : ndarray) :
  square n m ->
  exists st, get_similarity_statistics m = Ok st /\
    total_pairs st = n * (n - 1) / 2 /\
    (n <= 1 -> st = zero_statistics) /\
    (2 <= n ->
     exists upper_triangle,
       upper_triangle_of m = Ok upper_triangle /\
       length upper_triangle = n * (n - 1) / 2 /\
       (forall v, v ∈ upper_triangle <->
          exists i j, i < j /\ j < n /\ getitem m i j = Ok v) /\
       mean_similarity st = np_mean upper_triangle /\
       max_similarity st = amax upper_triangle /\
       min_similarity st = amin upper_triangle /\
       std_similarity st = np_std upper_triangle) /\
    (0 < total_pairs st -> bounding ->
     (forall i j v, i < j -> j < n -> getitem m i j = Ok v ->
        is_nan v = false) ->
     fle (min_similarity st) (max_similarity st) = true /\
     (exists i j, i < j /\ j < n /\ getitem m i j = Ok (min_similarity st)) /\
     (exists i j, i < j /\ j < n /\ getitem m i j = Ok (max_similarity st)) /\
     (forall i j v, i < j -> j < n -> getitem m i j = Ok v ->
        fle (min_similarity st) v = true /\
        fle v (max_similarity st) = true)).
Proof.
  intros Hsq. unfold get_similarity_statistics.
  pose proof (upper_triangle_of_square n m Hsq) as Hupper.
  rewrite Hupper. simpl.
  pose proof (length_upper_values n m Hsq) as Hlen.
  pose proof (elem_of_upper_values n m) as Hmem.
  destruct (upper_values n m) as [|x l]; simpl in *.
  - eexists. split; [done|]. split; [done|]. split; [done|]. split.
    + intros Hn%triangle_pos. simpl in Hn. lia.
    + simpl. lia.
  - eexists. split; [done|]. simpl. split; [done|].
    split; [|split].
    + intros Hn.
      assert (n * (n - 1) = 0) as Hz by (destruct n as [|[|?]]; lia).
      rewrite Hz in Hlen. discriminate Hlen.
    + intros _. exists (x :: l). split; [done|]. split; [done|].
      split; [|done]. intros v. rewrite Hmem.
      by setoid_rewrite getitem_Ok.
    + intros _ Hbounding Hnan.
      assert (Forall (fun y => is_nan y = false) (x :: l)) as Hall.
      { apply Forall_forall. intros v Hv.
        apply Hmem in Hv as (i & j & ? & ? & ?).
        apply (Hnan i j); [done..|]. by apply getitem_Ok. }
      destruct (Hbounding (x :: l)) as (Hmax & Hmaxall & Hmin & Hminall);
        [done|done|].
      rewrite Forall_forall in Hmaxall, Hminall.
      split; [by apply Hmaxall|]. split; [|split].
      * apply Hmem in Hmin as (i & j & ? & ? & ?). exists i, j.
        by rewrite getitem_Ok.
      * apply Hmem in Hmax as (i & j & ? & ? & ?). exists i, j.
        by rewrite getitem_Ok.
      * intros i j v Hij Hj Hv. apply getitem_Ok in Hv.
        assert (v ∈ x :: l) as Hin by (apply Hmem; eauto).
        split; [by apply Hminall|by apply Hmaxall].
Qed.

End Statistics.

(** The scalar loops keep the promise of [np.max] and [np.min]. *)
Lemma fold_maximum_spec (l : list float64) (x : float64) :
  is_nan x = false -> Forall (fun y => is_nan y = false) l ->
  let r := fold_left maximum l x in
  r ∈ x :: l /\ is_nan r = false /\ Forall (fun y => fle y r = true) (x :: l).
Proof.
  revert x. induction l as [|y l IH]; intros x Hx Hl; simpl.
  - split; [left|]. split; [done|]. constructor; [by apply fle_refl|done].
  - apply Forall_cons in Hl as [Hy Hl].
    assert (is_nan (maximum x y) = false /\ maximum x y ∈ [x; y] /\
            fle x (maximum x y) = true /\ fle y (maximum x y) = true)
      as (Hm & Hin & Hxm & Hym).
    { unfold maximum, fge. rewrite Hx, orb_false_r.
      destruct (fle y x) eqn:Hyx.
      - repeat split; [done|left|by apply fle_refl|done].
      - repeat split; [done|right; left|by apply fle_total|by apply fle_refl]. }
    destruct (IH (maximum x y) Hm Hl) as (Hr & Hrnan & Hall).
    apply Forall_cons in Hall as [Hmr Hall].
    split; [|split; [done|]].
    + apply elem_of_cons in Hr as [->|Hr]; [|by do 2 right].
      apply elem_of_cons in Hin as [->|Hin]; [left|].
      apply list_elem_of_singleton in Hin as ->. right. left.
    + constructor; [by eapply fle_trans|].
      constructor; [by eapply fle_trans|done].
Qed.

Lemma fold_minimum_spec (l : list float64) (x : float64) :
  is_nan x = false -> Forall (fun y => is_nan y = false) l ->
  let r := fold_left minimum l x in
  r ∈ x :: l /\ is_nan r = false /\ Forall (fun y => fle r y = true) (x :: l).
Proof.
  revert x. induction l as [|y l IH]; intros x Hx Hl; simpl.
  - split; [left|]. split; [done|]. constructor; [by apply fle_refl|done].
  - apply Forall_cons in Hl as [Hy Hl].
    assert (is_nan (minimum x y) = false /\ minimum x y ∈ [x; y] /\
            fle (minimum x y) x = true /\ fle (minimum x y) y = true)
      as (Hm & Hin & Hxm & Hym).
    { unfold minimum. rewrite Hx, orb_false_r.
      destruct (fle x y) eqn:Hxy.
      - repeat split; [done|left|by apply fle_refl|done].
      - repeat split; [done|right; left|by apply fle_total|by apply fle_refl]. }
    destruct (IH (minimum x y) Hm Hl) as (Hr & Hrnan & Hall).
    apply Forall_cons in Hall as [Hmr Hall].
    split; [|split; [done|]].
    + apply elem_of_cons in Hr as [->|Hr]; [|by do 2 right].
      apply elem_of_cons in Hin as [->|Hin]; [left|].
      apply list_elem_of_singleton in Hin as ->. right. left.
    + constructor; [by eapply fle_trans|].
      constructor; [by eapply fle_trans|done].
Qed.

Lemma scalar_loops_bounding : @bounding scalar_loops.
Proof.
  intros [|x l] Hne Hall; [done|]. apply Forall_cons in Hall as [Hx Hl].
  destruct (fold_maximum_spec l x Hx Hl) as (Hmax & _ & Hmaxall).
  destruct (fold_minimum_spec l x Hx Hl) as (Hmin & _ & Hminall).
  done.
Qed.

(** Three documents whose pairwise similarities are all [0.1]. *)
Definition tenth_matrix : ndarray :=
  [[one; f0_1; f0_1]; [f0_1; one; f0_1]; [f0_1; f0_1; one]].

Lemma square_tenth_matrix : square 3 tenth_matrix.
Proof. split; [reflexivity|]. repeat constructor. Defined.

(** On that matrix the three entries of the upper triangle are added from
    left to right, and the mean, [(0.1 + 0.1 + 0.1) / 3] in binary64, is
    [0.10000000000000002], above the maximum [0.1]. *)
Lemma get_similarity_statistics_mean_above_max :
  exists st,
    @SimilarityService.get_similarity_statistics scalar_loops tenth_matrix
      = Ok st /\
    SimilarityService.total_pairs st = 3 /\
    SimilarityService.min_similarity st = f0_1 /\
    SimilarityService.max_similarity st = f0_1 /\
    SimilarityService.mean_similarity st
      = fdiv (fadd (fadd f0_1 f0_1) f0_1) (of_Z 3) /\
    SimilarityService.mean_similarity st
      = S754_finite false 7205759403792795 (-56) /\
    fle (SimilarityService.mean_similarity st)
        (SimilarityService.max_similarity st) = false.
Proof. eexists. repeat split. Qed.

(** Five documents whose pairwise similarities are all [0.1]: the ten
    entries of the upper triangle are added pairwise, their sum is [1.0],
    and the mean is [0.1]. *)
Example get_similarity_statistics_five_documents :
  let row i := map (fun j => if Nat.eqb i j then one else f0_1) (seq 0 5) in
  @SimilarityService.get_similarity_statistics scalar_loops
      (map row (seq 0 5))
    = Ok {| SimilarityService.total_pairs := 10;
            SimilarityService.mean_similarity := f0_1;
            SimilarityService.max_similarity := f0_1;
            SimilarityService.min_similarity := f0_1;
            SimilarityService.std_similarity := zero |}.
Proof. vm_compute; reflexivity. Qed.

Lemma get_similarity_statistics_consistent_witness :
  square 3 scenario_matrix /\
  @bounding scalar_loops /\
  exists st,
    @SimilarityService.get_similarity_statistics scalar_loops scenario_matrix
      = Ok st /\
    SimilarityService.total_pairs st = 3 * (3 - 1) / 2 /\
    (3 <= 1 -> st = zero_statistics) /\
    (2 <= 3 ->
     exists upper_triangle,
       SimilarityService.upper_triangle_of scenario_matrix
         = Ok upper_triangle /\
       length upper_triangle = 3 * (3 - 1) / 2 /\
       (forall v, v ∈ upper_triangle <->
          exists i j, i < j /\ j < 3 /\ getitem scenario_matrix i j = Ok v) /\
       SimilarityService.mean_similarity st = scalar_mean upper_triangle /\
       SimilarityService.max_similarity st = scalar_amax upper_triangle /\
       SimilarityService.min_similarity st = scalar_amin upper_triangle /\
       SimilarityService.std_similarity st = scalar_std upper_triangle) /\
    (0 < SimilarityService.total_pairs st -> @bounding scalar_loops ->
     (forall i j v, i < j -> j < 3 -> getitem scenario_matrix i j = Ok v ->
        is_nan v = false) ->
     fle (SimilarityService.min_similarity st)
         (SimilarityService.max_similarity st) = true /\
     (exists i j, i < j /\ j < 3 /\
        getitem scenario_matrix i j
          = Ok (SimilarityService.min_similarity st)) /\
     (exists i j, i < j /\ j < 3 /\
        getitem scenario_matrix i j
          = Ok (SimilarityService.max_similarity st)) /\
     (forall i j v, i < j -> j < 3 -> getitem scenario_matrix i j = Ok v ->
        fle (SimilarityService.min_similarity st) v = true /\
        fle v (SimilarityService.max_similarity st) = true)).
Proof.
  split; [exact square_scenario_matrix|].
  split; [exact scalar_loops_bounding|].
  exact (@get_similarity_statistics_consistent scalar_loops 3 scenario_matrix
           square_scenario_matrix).
Defined.

(** With no document or a single one there is no pair, and every field is
    zero. *)
Example get_similarity_statistics_empty :
  SimilarityService.get_similarity_statistics [] = Ok zero_statistics /\
  SimilarityService.get_similarity_statistics [[one]] = Ok zero_statistics.
Proof. split; reflexivity. Qed.

(** ** [_create_text_preview] *)

Section TextPreview.

Import DetectionService.

Lemma lstrip_drop (s : str) :
  exists k, lstrip s = drop k s.
Proof.
  induction s as [|c s [k IH]]; simpl; [by exists 0|].
  destruct (isspace c); [by exists (S k)|by exists 0].
Qed.

Lemma rstrip_take (s : str) :
  exists k, rstrip s = take k s.
Proof.
  unfold rstrip. destruct (lstrip_drop (rev s)) as [k ->].
  exists (length s - k). rewrite skipn_rev. apply rev_involutive.
Qed.

Lemma take_prefix_of (k : nat) (s : str) : take k s `prefix_of` s.
Proof. exists (drop k s). by rewrite take_drop. Qed.

Lemma rfind_bounds (s : str) (c : N) :
  (-1 <= rfind s c < Z.of_nat (length s))%Z.
Proof.
  induction s as [|x s IH]; simpl rfind; simpl length; [lia|].
  destruct (Z.leb_spec 0 (rfind s c)); [lia|].
  destruct (x =? c)%N; lia.
Qed.

Lemma rfind_lookup (s : str) (c : N) :
  (0 <= rfind s c)%Z -> s !! Z.to_nat (rfind s c) = Some c.
Proof.
  induction s as [|x s IH]; simpl rfind; [lia|].
  destruct (Z.leb_spec 0 (rfind s c)) as [Hr|Hr].
  - intros _. replace (Z.to_nat (rfind s c + 1)) with (S (Z.to_nat (rfind s c)))
      by lia. simpl. by apply IH.
  - destruct (N.eqb_spec x c) as [->|]; [done|lia].
Qed.

(** [last_space > 100 * 0.8] is [last_space > 80]: the product is the
    float [80.0]. *)
Lemma last_space_test (k : Z) :
  (-1 <= k <= 100)%Z ->
  fgt (of_Z k) (fmul (of_Z (Z.of_nat 100)) f0_8) = (80 <? k)%Z.
Proof.
  intros Hk.
  assert (forallb (fun i =>
            Bool.eqb (fgt (of_Z (Z.of_nat i - 1))
                          (fmul (of_Z (Z.of_nat 100)) f0_8))
                     (80 <? Z.of_nat i - 1)%Z) (seq 0 102) = true) as Hall
    by (vm_compute; reflexivity).
  rewrite forallb_forall in Hall.
  specialize (Hall (Z.to_nat (k + 1))).
  replace (Z.of_nat (Z.to_nat (k + 1)) - 1)%Z with k in Hall by lia.
  apply eqb_prop, Hall, in_seq. lia.
Qed.

(** The policy of [_create_text_preview] with the budget of 100 characters.
    The preview of a text whose stripped form has at most 100 characters is
    that form.  Otherwise it is an initial part of the
    stripped text, of at most 100 characters, followed by ["..."]: the
    first 100 characters without their trailing whitespace, cut further at
    their last space when that space stands after index 80.  The preview
    has at most 103 characters. *)
Theorem create_text_preview_bounded (text : str) :
  let stripped := strip text in
  let preview := _create_text_preview text 100 in
  let truncated := rstrip (take 100 stripped) in
  let last_space := rfind truncated 32 in
  (length stripped <= 100 -> preview = stripped) /\
  (100 < length stripped ->
     exists kept,
       preview = kept ++ py "..." /\
       kept `prefix_of` stripped /\
       length kept <= 100 /\
       ((80 < last_space)%Z ->
          kept = take (Z.to_nat last_space) truncated /\
          truncated !! Z.to_nat last_space = Some 32%N /\
          80 < length kept) /\
       ((last_space <= 80)%Z -> kept = truncated)) /\
  length preview <= 103.
Proof.
  intros stripped preview truncated last_space.
  assert (length truncated <= 100) as Htrunc.
  { unfold truncated. destruct (rstrip_take (take 100 stripped)) as [k ->].
    rewrite !length_take. lia. }
  assert (truncated `prefix_of` stripped) as Hpre.
  { unfold truncated. destruct (rstrip_take (take 100 stripped)) as [k ->].
    etrans; apply take_prefix_of. }
  pose proof (rfind_bounds truncated 32) as Hfind. fold last_space in Hfind.
  assert (preview =
    if decide (length stripped <= 100) then stripped
    else (if (80 <? last_space)%Z
          then take (Z.to_nat last_space) truncated else truncated)
         ++ py "...") as Hpreview.
  { unfold preview, _create_text_preview. fold stripped.
    destruct (decide (length stripped <= 100)); [done|].
    fold truncated. fold last_space. rewrite last_space_test by lia.
    destruct (Z.ltb_spec 80 last_space); [|done].
    unfold slice_to. by rewrite (proj2 (Z.leb_le 0 last_space)) by lia. }
  rewrite Hpreview. clear Hpreview.
  destruct (decide (length stripped <= 100)) as [Hshort|Hlong].
  - split; [done|]. split; [lia|lia].
  - split; [lia|]. split.
    + intros _. eexists. split; [done|].
      destruct (Z.ltb_spec 80 last_space) as [Hfar|Hnear].
      * split; [etrans; [apply take_prefix_of|done]|].
        rewrite length_take. split; [lia|]. split; [|lia].
        intros _. split; [done|]. split; [apply rfind_lookup; lia|lia].
      * split; [done|]. split; [done|]. split; [lia|done].
    + rewrite length_app. change (length (py "...")) with 3.
      destruct (Z.ltb_spec 80 last_space); [rewrite length_take|]; lia.
Qed.

End TextPreview.

(** C8.  The preview is not bounded at 100 characters, the maximum length
    the docstring of [_create_text_preview] gives it: for a text of 101
    letters [a] it is the first 100 letters followed by the three dots, 103
    characters, more than the text itself has. *)
Lemma create_text_preview_exceeds_budget :
  DetectionService._create_text_preview (replicate 101 97%N) 100
    = replicate 100 97%N ++ py "..." /\
  length (DetectionService._create_text_preview (replicate 101 97%N) 100)
    = 103.
Proof. split; vm_compute; reflexivity. Qed.

(** A cut at the last space, and a cut at the limit. *)
Example create_text_preview_word_boundary :
  DetectionService._create_text_preview
    (replicate 90 97%N ++ py " " ++ replicate 20 98%N) 100
    = replicate 90 97%N ++ py "...".
Proof. vm_compute; reflexivity. Qed.

Example create_text_preview_hard_limit :
  DetectionService._create_text_preview
    (replicate 50 97%N ++ py " " ++ replicate 70 98%N) 100
    = replicate 50 97%N ++ py " " ++ replicate 49 98%N ++ py "...".
Proof. vm_compute; reflexivity. Qed.

(** ** The pipeline: empty and blank inputs *)

Section Pipeline.

Import DetectionService.

Variable Model : Type.
Variable SentenceTransformer : str -> bool -> str + Model.
Variable encode : Model -> list str -> str + ndarray.
Variable np_dot : list float64 -> list float64 -> float64.
Variable time_time : nat -> float64.
Context `{!Reductions}.

(** C7.  With an empty list of texts [analyze_texts] raises the
    [ValueError] of [generate_embeddings]: the clock has been read once, no
    model has been loaded and the provider has not been called.  Given no
    vector, or vectors of no component, [calculate_similarity_matrix]
    raises [ValueError]. *)
Theorem empty_input_rejected (model_key : str) (threshold : float64)
    (w : World Model) (n : nat) :
  analyze_texts Model SentenceTransformer encode np_dot time_time
      [] model_key threshold w
    = (Raise (ValueError (py "No texts provided for embedding generation")),
       {| _models := _models w; clock := S (clock w); calls := calls w |}) /\
  SimilarityService.calculate_similarity_matrix np_dot []
    = Raise (ValueError (py "Empty embeddings array provided")) /\
  SimilarityService.calculate_similarity_matrix np_dot (replicate n [])
    = Raise (ValueError (py "Empty embeddings array provided")).
Proof.
  split; [done|]. split; [done|].
  unfold SimilarityService.calculate_similarity_matrix.
  rewrite decide_True; [done|].
  unfold size. induction n as [|n IH]; simpl; [done|exact IH].
Qed.

(** C9, amended.  When either text is blank after [strip], the [try] block
    of the [/compare] handler raises [ValueError] without calling
    [get_text_similarity_report], and the handler reports it as an HTTP 400
    error: the state is as before, so that no model is loaded, the provider
    is not called and the clock is not read. *)
Theorem compare_two_texts_blank (text1 text2 model_key : str)
    (w : World Model) :
  strip text1 = [] \/ strip text2 = [] ->
  compare_two_texts_try Model SentenceTransformer encode np_dot time_time
      text1 text2 model_key w
    = (Raise (ValueError (py "Both texts must be non-empty")), w) /\
  compare_two_texts Model SentenceTransformer encode np_dot time_time
      text1 text2 model_key w
    = (Raise (HTTPException 400
         (py "Invalid input: Both texts must be non-empty")), w).
Proof.
  intros Hblank.
  assert (bool_decide (strip text1 = []) || bool_decide (strip text2 = [])
          = true) as Htest.
  { apply orb_true_iff. rewrite !bool_decide_eq_true. exact Hblank. }
  assert (compare_two_texts_try Model SentenceTransformer encode np_dot
            time_time text1 text2 model_key w
          = (Raise (ValueError (py "Both texts must be non-empty")), w))
    as Htry.
  { unfold compare_two_texts_try. by rewrite Htest. }
  split; [exact Htry|].
  unfold compare_two_texts, try_except. by rewrite Htry.
Qed.

End Pipeline.

(** *** A provider for the examples

    One model, which embeds every text as the vector [[1.0]]. *)

Definition unit_transformer (model_name : str) (trust_remote_code : bool)
    : str + unit := inr tt.

Definition unit_encode (model : unit) (texts : list str) : str + ndarray :=
  inr (map (fun _ => [one]) texts).

Definition still_clock (tick : nat) : float64 := zero.

Definition fresh_world : World unit :=
  {| _models := ∅; clock := 0; calls := [] |}.

Lemma compare_two_texts_blank_witness :
  (strip (py "  ") = [] \/ strip (py "some text") = []) /\
  (DetectionService.compare_two_texts_try unit unit_transformer unit_encode
       dot1 still_clock (py "  ") (py "some text") (py "miniLM") fresh_world
     = (Raise (ValueError (py "Both texts must be non-empty")), fresh_world) /\
   DetectionService.compare_two_texts unit unit_transformer unit_encode dot1
       still_clock (py "  ") (py "some text") (py "miniLM") fresh_world
     = (Raise (HTTPException 400
          (py "Invalid input: Both texts must be non-empty")), fresh_world)).
Proof.
  assert (strip (py "  ") = [] \/ strip (py "some text") = []) as Hblank
    by (left; reflexivity).
  split; [exact Hblank|].
  exact (compare_two_texts_blank unit unit_transformer unit_encode dot1
           still_clock (py "  ") (py "some text") (py "miniLM") fresh_world
           Hblank).
Defined.

(** Called with a blank text, [get_text_similarity_report] itself raises
    nothing: it loads the model, has both texts embedded and returns a
    report. *)
Lemma get_text_similarity_report_blank :
  strip (py "  ") = [] /\
  exists r w,
    DetectionService.get_text_similarity_report unit unit_transformer
        unit_encode dot1 still_clock (py "  ") (py "some text") (py "miniLM")
        fresh_world
      = (Ok r, w) /\
    DetectionService.similarity_score r = one /\
    calls w = [LoadCall (py "all-MiniLM-L6-v2") false;
               EncodeCall [py "  "; py "some text"]].
Proof.
  split; [reflexivity|]. eexists. eexists. split; [reflexivity|].
  split; reflexivity.
Qed.

(** The handler on two texts that are not blank. *)
Example compare_two_texts_identical :
  exists r w,
    DetectionService.compare_two_texts unit unit_transformer unit_encode dot1
        still_clock (py "same") (py "same") (py "miniLM") fresh_world
      = (Ok r, w) /\
    DetectionService.similarity_score r = one /\
    DetectionService.is_highly_similar r = true /\
    DetectionService.is_moderately_similar r = true.
Proof. eexists. eexists. split; [reflexivity|]. repeat split. Qed.

(** An empty list of texts reaches neither the loader nor the encoder. *)
Example analyze_texts_empty :
  DetectionService.analyze_texts unit unit_transformer unit_encode dot1
      still_clock [] (py "miniLM") f0_7 fresh_world
    = (Raise (ValueError (py "No texts provided for embedding generation")),
       {| _models := ∅; clock := 1; calls := [] |}).
Proof. reflexivity. Qed.

(** * Further facts *)

(** ** The entries of the similarity matrix *)

Section SimilarityMatrixEntries.

Import SimilarityService.

Variable np_dot : list float64 -> list float64 -> float64.
Variable embeddings : ndarray.

#[local] Abbreviation n_texts := (length embeddings).

(** The cells [(a, b)] and [(b, a)] of the pairs [a < b] in [P] hold the
    product of the rows [a] and [b]. *)
Definition dot_filled (P : nat -> nat -> Prop) (m : ndarray) : Prop :=
  square n_texts m /\
  forall a b ea eb, a < b -> P a b ->
    embeddings !! a = Some ea -> embeddings !! b = Some eb ->
    lookup2 m a b = Some (np_dot ea eb) /\
    lookup2 m b a = Some (np_dot ea eb).

Lemma dot_filled_weaken (P P' : nat -> nat -> Prop) (m : ndarray) :
  (forall a b, P' a b -> P a b) -> dot_filled P m -> dot_filled P' m.
Proof. intros HP [Hsq Hm]. split; [done|]. eauto. Qed.

Lemma similarity_cell_dot (P : nat -> nat -> Prop) (i j : nat)
    (m : ndarray) :
  i < n_texts -> j < n_texts -> dot_filled P m ->
  exists m', similarity_cell np_dot embeddings i j m = Ok m' /\
    dot_filled (fun a b => P a b \/ (a = i /\ b = j)) m'.
Proof.
  intros Hi Hj [Hsq Hm]. unfold similarity_cell.
  destruct (decide (i = j)) as [<-|Hne].
  - destruct (setitem_square _ m i i one Hsq Hi Hi) as (m' & -> & Hsq' & Hm').
    exists m'. split; [done|]. split; [done|].
    intros a b ea eb Hab HP Ha Hb. rewrite !Hm'.
    rewrite !decide_False by lia.
    destruct HP as [HP|[-> ->]]; [by apply Hm|lia].
  - destruct (decide (i < j)) as [Hlt|Hge].
    + unfold getrow.
      destruct (lookup_lt_is_Some_2 embeddings i Hi) as [ei Hei].
      destruct (lookup_lt_is_Some_2 embeddings j Hj) as [ej Hej].
      rewrite Hei, Hej. simpl.
      destruct (setitem_square _ m i j (np_dot ei ej) Hsq Hi Hj)
        as (m1 & -> & Hsq1 & Hm1). simpl.
      destruct (setitem_square _ m1 j i (np_dot ei ej) Hsq1 Hj Hi)
        as (m2 & -> & Hsq2 & Hm2).
      exists m2. split; [done|]. split; [done|].
      intros a b ea eb Hab HP Ha Hb. rewrite !Hm2, !Hm1.
      destruct (decide (a = i /\ b = j)) as [[-> ->]|Hother].
      * rewrite Hei in Ha. rewrite Hej in Hb.
        injection Ha as <-. injection Hb as <-.
        rewrite decide_False by lia. rewrite decide_True by done. done.
      * destruct HP as [HP|HP]; [|tauto].
        rewrite !decide_False by lia. by apply Hm.
    + exists m. split; [done|]. split; [done|].
      intros a b ea eb Hab [HP|[-> ->]] Ha Hb; [by apply Hm|lia].
Qed.

Lemma similarity_row_dot (P : nat -> nat -> Prop) (i : nat) (m : ndarray) :
  i < n_texts -> dot_filled P m ->
  exists m',
    for_in (range n_texts)
      (fun j m0 => similarity_cell np_dot embeddings i j m0) m = Ok m' /\
    dot_filled (fun a b => P a b \/ (a = i /\ b < n_texts)) m'.
Proof.
  intros Hi Hm.
  destruct (for_in_invariant
    (fun done m0 => dot_filled (fun a b => P a b \/ (a = i /\ b ∈ done)) m0)
    (fun j m0 => similarity_cell np_dot embeddings i j m0)
    (range n_texts) [] m) as (m' & Hrun & Hm').
  - eapply dot_filled_weaken; [|exact Hm]. intros a b [HP|[_ Hb]]; [done|].
    by apply elem_of_nil in Hb.
  - intros done j m0 H0 Hj. apply elem_of_seq in Hj.
    destruct (similarity_cell_dot
      (fun a b => P a b \/ (a = i /\ b ∈ done)) i j m0) as (m1 & -> & H1);
      [done|lia|exact H0|].
    exists m1. split; [done|]. eapply dot_filled_weaken; [|exact H1].
    intros a b [HP|[-> Hb]]; simpl.
    + left. by left.
    + apply elem_of_app in Hb as [Hb|Hb]; [left; right; done|].
      apply list_elem_of_singleton in Hb. right. done.
  - exists m'. split; [done|]. eapply dot_filled_weaken; [|exact Hm'].
    intros a b [HP|[-> Hb]]; [by left|]. right. split; [done|].
    apply elem_of_seq. lia.
Qed.

Lemma similarity_matrix_dot :
  exists m',
    for_in (range n_texts) (fun i m =>
      for_in (range n_texts)
        (fun j m0 => similarity_cell np_dot embeddings i j m0) m)
      (zeros n_texts n_texts) = Ok m' /\
    dot_filled (fun a b => a < n_texts /\ b < n_texts) m'.
Proof.
  destruct (for_in_invariant
    (fun done m0 => dot_filled (fun a b => a ∈ done /\ b < n_texts) m0)
    (fun i m => for_in (range n_texts)
       (fun j m0 => similarity_cell np_dot embeddings i j m0) m)
    (range n_texts) [] (zeros n_texts n_texts)) as (m' & Hrun & Hm').
  - split; [apply square_zeros|]. intros a b ea eb _ [Ha _].
    by apply elem_of_nil in Ha.
  - intros done i m0 H0 Hi. apply elem_of_seq in Hi.
    destruct (similarity_row_dot
      (fun a b => a ∈ done /\ b < n_texts) i m0)
      as (m1 & -> & H1); [lia|exact H0|].
    exists m1. split; [done|]. eapply dot_filled_weaken; [|exact H1].
    intros a b [Ha Hb]. apply elem_of_app in Ha as [Ha|Ha]; [by left|].
    apply list_elem_of_singleton in Ha. by right.
  - exists m'. split; [done|]. eapply dot_filled_weaken; [|exact Hm'].
    intros a b [Ha Hb]. split; [|done]. apply elem_of_seq. simpl. lia.
Qed.

(** X2.  When the array of embeddings has an element,
    [calculate_similarity_matrix] returns a matrix whose entries [(i, j)]
    and [(j, i)], for [i < j], are both [np.dot(embeddings[i],
    embeddings[j])], the product taken once with the row of the smaller
    index first. *)
Theorem calculate_similarity_matrix_entries :
  size embeddings <> 0 ->
  exists m, calculate_similarity_matrix np_dot embeddings = Ok m /\
    forall i j, i < j -> j < n_texts ->
      exists ei ej,
        embeddings !! i = Some ei /\ embeddings !! j = Some ej /\
        getitem m i j = Ok (np_dot ei ej) /\
        getitem m j i = Ok (np_dot ei ej).
Proof.
  intros Hsize. destruct similarity_matrix_dot as (m & Hrun & Hsq & Hm).
  exists m. unfold calculate_similarity_matrix, shape0.
  rewrite decide_False by done. split; [exact Hrun|].
  intros i j Hij Hj.
  destruct (lookup_lt_is_Some_2 embeddings i) as [ei Hei]; [lia|].
  destruct (lookup_lt_is_Some_2 embeddings j) as [ej Hej]; [lia|].
  exists ei, ej. rewrite !getitem_Ok.
  destruct (Hm i j ei ej) as [H1 H2]; try done; lia.
Qed.

End SimilarityMatrixEntries.

Lemma calculate_similarity_matrix_entries_witness :
  size three_vectors <> 0 /\
  exists m,
    SimilarityService.calculate_similarity_matrix dot1 three_vectors = Ok m /\
    forall i j, i < j -> j < 3 ->
      exists ei ej,
        three_vectors !! i = Some ei /\ three_vectors !! j = Some ej /\
        getitem m i j = Ok (dot1 ei ej) /\
        getitem m j i = Ok (dot1 ei ej).
Proof.
  assert (size three_vectors <> 0) as Hsize by (vm_compute; lia).
  split; [exact Hsize|].
  exact (calculate_similarity_matrix_entries dot1 three_vectors Hsize).
Defined.

(** ** More on [find_similar_pairs] *)

Section FindSimilarPairsMore.

Import SimilarityService.

Lemma for_in_Ok_inv {S : Type} (body : nat -> S -> result S)
    (xs : list nat) (s s' : S) (x : nat) :
  for_in xs body s = Ok s' -> x ∈ xs ->
  exists s0 s1, body x s0 = Ok s1.
Proof.
  revert s. induction xs as [|y xs IH]; intros s Hrun Hx.
  - by apply elem_of_nil in Hx.
  - simpl in Hrun. destruct (body y s) as [s1|e] eqn:Hy; [|done].
    apply elem_of_cons in Hx as [->|Hx]; [by eauto|].
    simpl in Hrun. by eapply IH.
Qed.

(** The scan succeeds as soon as the cells it reads exist. *)
Lemma scan_pairs_defined (m : ndarray) (threshold : float64) :
  (forall i j, i < j -> j < length m -> is_Some (lookup2 m i j)) ->
  scan_pairs m threshold = Ok (upper_pairs (length m) m threshold).
Proof.
  intros Hcells. unfold scan_pairs, upper_pairs, shape0.
  rewrite (for_in_append
    (fun i => range_from (i + 1) (length m) ≫= cell_pairs m threshold i));
    [done|].
  intros i acc Hi. apply for_in_append. intros j acc0 Hj.
  apply elem_of_seq in Hi. apply elem_of_seq in Hj.
  destruct (Hcells i j) as [v Hv]; [lia|lia|].
  unfold getitem, cell_pairs. rewrite Hv. simpl.
  destruct (fge v threshold); [done|by rewrite app_nil_r].
Qed.

Lemma scan_pairs_Ok_inv (m : ndarray) (threshold : float64)
    (l : list raw_pair) (i j : nat) :
  scan_pairs m threshold = Ok l -> i < j -> j < length m ->
  is_Some (lookup2 m i j).
Proof.
  unfold scan_pairs, shape0. intros Hrun Hij Hj.
  destruct (for_in_Ok_inv _ _ _ _ i Hrun) as (acc & acc' & Hrow).
  { apply elem_of_seq. lia. }
  destruct (for_in_Ok_inv _ _ _ _ j Hrow) as (acc0 & acc1 & Hcell).
  { apply elem_of_seq. lia. }
  unfold getitem in Hcell. by destruct (lookup2 m i j).
Qed.

(** The cells of the strict upper triangle of a matrix of [n] rows. *)
Definition upper_cells (n : nat) : list (nat * nat) :=
  i ← range n; j ← range_from (i + 1) n; [(i, j)].

Lemma elem_of_upper_cells (n i j : nat) :
  (i, j) ∈ upper_cells n <-> i < j /\ j < n.
Proof.
  unfold upper_cells. rewrite list_elem_of_bind. split.
  - intros (i' & Hin & Hi). apply list_elem_of_bind in Hin as (j' & Hin & Hj).
    apply list_elem_of_singleton in Hin. injection Hin as -> ->.
    apply elem_of_seq in Hi. apply elem_of_seq in Hj. lia.
  - intros [Hij Hj]. exists i. split; [|apply elem_of_seq; lia].
    apply list_elem_of_bind. exists j. split; [|apply elem_of_seq; lia].
    by apply list_elem_of_singleton.
Qed.

(** X3.  With a threshold in [[0.0, 1.0]], [find_similar_pairs] returns a
    list exactly when every cell [(i, j)] with [i < j] below the number of
    rows exists, and raises [IndexError] exactly when one of them does not,
    as in a matrix with fewer columns than rows. *)
Theorem find_similar_pairs_index_error (m : ndarray) (threshold : float64) :
  valid_threshold threshold = true ->
  ((exists l, find_similar_pairs m threshold = Ok l) <->
   (forall i j, i < j -> j < length m -> is_Some (lookup2 m i j))) /\
  (find_similar_pairs m threshold = Raise IndexError <->
   (exists i j, i < j /\ j < length m /\ lookup2 m i j = None)).
Proof.
  intros Hvalid.
  assert (Hok : (exists l, find_similar_pairs m threshold = Ok l) <->
    (forall i j, i < j -> j < length m -> is_Some (lookup2 m i j))).
  { unfold find_similar_pairs. rewrite Hvalid. simpl. split.
    - intros [l Hl] i j Hij Hj.
      destruct (scan_pairs m threshold) as [l0|e] eqn:Hscan; [|done].
      by eapply scan_pairs_Ok_inv.
    - intros Hcells. rewrite scan_pairs_defined by done. by eexists. }
  split; [exact Hok|]. split.
  - intros Hraise.
    destruct (decide (Forall (fun c => is_Some (lookup2 m c.1 c.2))
                        (upper_cells (length m)))) as [Hall|Hnot].
    + rewrite Forall_forall in Hall.
      destruct (proj2 Hok) as [l Hl]; [|congruence].
      intros i j Hij Hj. apply (Hall (i, j)). by apply elem_of_upper_cells.
    + apply not_Forall_Exists in Hnot; [|apply _].
      apply Exists_exists in Hnot as ([i j] & Hin & Hnone).
      apply elem_of_upper_cells in Hin as [Hij Hj]. exists i, j.
      split; [done|]. split; [done|]. simpl in Hnone.
      destruct (lookup2 m i j); [|done]. exfalso. apply Hnone. by eexists.
  - intros (i & j & Hij & Hj & Hnone).
    unfold find_similar_pairs. rewrite Hvalid. simpl.
    destruct (scan_pairs m threshold) as [l|e] eqn:Hscan.
    + pose proof (scan_pairs_Ok_inv _ _ _ i j Hscan Hij Hj) as [v Hv].
      congruence.
    + simpl. by rewrite (scan_pairs_raise _ _ _ Hscan).
Qed.

Lemma length_bind_le {B C D : Type} (f : B -> list C) (g : B -> list D)
    (l : list B) :
  (forall x, x ∈ l -> length (f x) <= length (g x)) ->
  length (l ≫= f) <= length (l ≫= g).
Proof.
  induction l as [|x l IH]; intros Hfg; [done|].
  rewrite !bind_cons, !length_app.
  pose proof (Hfg x (list_elem_of_here x l)).
  assert (length (l ≫= f) <= length (l ≫= g)); [|lia].
  apply IH. intros y Hy. apply Hfg. by right.
Qed.

Lemma length_bind_ext {B C D : Type} (f : B -> list C) (g : B -> list D)
    (l : list B) :
  (forall x, x ∈ l -> length (f x) = length (g x)) ->
  length (l ≫= f) = length (l ≫= g).
Proof.
  induction l as [|x l IH]; intros Hfg; [done|].
  rewrite !bind_cons, !length_app, (Hfg x) by left. f_equal.
  apply IH. intros y Hy. apply Hfg. by right.
Qed.

(** X4.  On an [n] by [n] matrix and a valid threshold the number of pairs
    returned is at most [n * (n - 1) / 2], and is [n * (n - 1) / 2] when
    every entry above the diagonal reaches the threshold. *)
Theorem find_similar_pairs_count (n : nat) (m : ndarray)
    (threshold : float64) :
  square n m -> valid_threshold threshold = true ->
  exists l, find_similar_pairs m threshold = Ok l /\
    length l <= n * (n - 1) / 2 /\
    ((forall i j v, i < j -> j < n -> getitem m i j = Ok v ->
        fge v threshold = true) ->
     length l = n * (n - 1) / 2).
Proof.
  intros Hsq Hvalid. eexists. split; [by apply find_similar_pairs_square|].
  rewrite (Permutation_length (sort_reverse_perm score _)).
  rewrite <- (length_upper_values n m Hsq). unfold upper_pairs, upper_values.
  split.
  - apply length_bind_le. intros i _. apply length_bind_le. intros j _.
    unfold cell_pairs, cell_value. destruct (lookup2 m i j) as [v|]; [|done].
    destruct (fge v threshold); simpl; lia.
  - intros Hall. apply length_bind_ext. intros i Hi.
    apply length_bind_ext. intros j Hj.
    apply elem_of_seq in Hi. apply elem_of_seq in Hj.
    unfold cell_pairs, cell_value.
    destruct (lookup2 m i j) as [v|] eqn:Hv; [|done].
    rewrite (Hall i j v); [done|lia|lia|by apply getitem_Ok].
Qed.

End FindSimilarPairsMore.

(** Three rows of two columns. *)
Definition narrow_matrix : ndarray := [[one; f0_9]; [f0_9; one]; [f0_2; f0_3]].

Lemma find_similar_pairs_index_error_witness :
  SimilarityService.valid_threshold f0_7 = true /\
  SimilarityService.find_similar_pairs narrow_matrix f0_7 = Raise IndexError /\
  exists l, SimilarityService.find_similar_pairs scenario_matrix f0_7 = Ok l.
Proof.
  split; [reflexivity|].
  destruct (find_similar_pairs_index_error narrow_matrix f0_7 eq_refl)
    as [_ Hraise].
  split; [|by eexists].
  apply Hraise. exists 0, 2. split; [lia|]. split; [simpl; lia|reflexivity].
Defined.

Lemma find_similar_pairs_count_witness :
  square 3 scenario_matrix /\
  SimilarityService.valid_threshold f0_2 = true /\
  exists l,
    SimilarityService.find_similar_pairs scenario_matrix f0_2 = Ok l /\
    length l <= 3 * (3 - 1) / 2 /\
    ((forall i j v, i < j -> j < 3 -> getitem scenario_matrix i j = Ok v ->
        fge v f0_2 = true) ->
     length l = 3 * (3 - 1) / 2).
Proof.
  split; [exact square_scenario_matrix|]. split; [reflexivity|].
  exact (find_similar_pairs_count 3 scenario_matrix f0_2
           square_scenario_matrix eq_refl).
Defined.

(** ** [_create_similarity_pairs] *)

Section SimilarityPairs.

Import SimilarityService DetectionService.

(** The record made of a raw pair, when both indices are positions of
    [texts]. *)
Definition pair_record (texts : list str) (p : raw_pair)
    : option SimilarityPair :=
  t1 ← texts !! p.1.1;
  t2 ← texts !! p.1.2;
  Some {| index_1 := p.1.1; index_2 := p.1.2; similarity := p.2;
          text_1_preview := _create_text_preview t1 100;
          text_2_preview := _create_text_preview t2 100 |}.

Lemma create_similarity_pairs_mapM (raw : list raw_pair) (texts : list str) :
  _create_similarity_pairs raw texts =
    match mapM (pair_record texts) raw with
    | Some ps => Ok ps
    | None => Raise IndexError
    end.
Proof.
  induction raw as [|[[i j] s] raw IH]; [done|].
  simpl. rewrite IH. unfold text_at, pair_record. simpl.
  destruct (texts !! i) as [t1|]; [|done]. simpl.
  destruct (texts !! j) as [t2|]; [|done]. simpl.
  by destruct (mapM _ raw).
Qed.

Lemma pair_record_is_Some (texts : list str) (p : raw_pair) :
  is_Some (pair_record texts p) <->
  p.1.1 < length texts /\ p.1.2 < length texts.
Proof.
  unfold pair_record. rewrite <- !lookup_lt_is_Some.
  destruct (texts !! p.1.1) as [t1|]; simpl.
  - destruct (texts !! p.1.2) as [t2|]; simpl.
    + split; [intros _; split; by eexists|by eexists].
    + split; [by intros [? ?]|by intros [_ [? ?]]].
  - split; [by intros [? ?]|by intros [[? ?] _]].
Qed.

(** X5.  [_create_similarity_pairs] returns a list exactly when both indices
    of every raw pair are positions of [texts], and raises [IndexError]
    otherwise.  The list it returns has one record per raw pair, in the same
    order, with the indices and the score of the pair and the previews of
    the two texts. *)
Theorem create_similarity_pairs_spec (raw : list raw_pair)
    (texts : list str) :
  ((exists ps, _create_similarity_pairs raw texts = Ok ps) <->
   Forall (fun p => p.1.1 < length texts /\ p.1.2 < length texts) raw) /\
  (forall e, _create_similarity_pairs raw texts = Raise e -> e = IndexError) /\
  (forall ps, _create_similarity_pairs raw texts = Ok ps ->
     Forall2 (fun p r =>
       index_1 r = p.1.1 /\ index_2 r = p.1.2 /\ similarity r = p.2 /\
       exists t1 t2,
         texts !! p.1.1 = Some t1 /\ texts !! p.1.2 = Some t2 /\
         text_1_preview r = _create_text_preview t1 100 /\
         text_2_preview r = _create_text_preview t2 100) raw ps).
Proof.
  rewrite create_similarity_pairs_mapM. split; [|split].
  - split.
    + intros [ps Hps].
      destruct (mapM (pair_record texts) raw) as [ps'|] eqn:Hmap; [|done].
      apply mapM_Some in Hmap. apply Forall_forall. intros p Hp.
      apply pair_record_is_Some.
      apply list_elem_of_lookup in Hp as [k Hk].
      destruct (Forall2_lookup_l _ _ _ _ _ Hmap Hk) as (r & _ & Hr).
      by eexists.
    + intros Hall.
      destruct (mapM (pair_record texts) raw) as [ps'|] eqn:Hmap;
        [by eexists|].
      exfalso. apply mapM_None in Hmap. apply Exists_exists in Hmap.
      destruct Hmap as (p & Hp & Hnone). rewrite Forall_forall in Hall.
      apply Hall, pair_record_is_Some in Hp. rewrite Hnone in Hp.
      by destruct Hp.
  - intros e. destruct (mapM (pair_record texts) raw); congruence.
  - intros ps. destruct (mapM (pair_record texts) raw) as [ps'|] eqn:Hmap;
      [|done].
    intros [= <-]. apply mapM_Some in Hmap.
    eapply Forall2_impl; [exact Hmap|]. intros p r Hr. simpl in Hr.
    unfold pair_record in Hr.
    destruct (texts !! p.1.1) as [t1|]; [|done]. simpl in Hr.
    destruct (texts !! p.1.2) as [t2|]; [|done]. simpl in Hr.
    injection Hr as <-. simpl. repeat split. by exists t1, t2.
Qed.

End SimilarityPairs.

(** ** The embedding service *)

Section EmbeddingFacts.

Import EmbeddingService.

Variable Model : Type.
Variable SentenceTransformer : str -> bool -> str + Model.
Variable encode : Model -> list str -> str + ndarray.

#[local] Abbreviation load := (_load_model Model SentenceTransformer).
#[local] Abbreviation embed :=
  (generate_embeddings Model SentenceTransformer encode).

(** The call [_load_model] makes when the model is not in the cache. *)
Definition load_call (model_key : str) : provider_call :=
  LoadCall (settings.get_model_name model_key)
    (bool_decide (model_key = py "jina-small")).

Lemma load_model_hit (model_key : str) (model : Model) (w : World Model) :
  _models w !! model_key = Some model -> load model_key w = (Ok model, w).
Proof. intros Hhit. unfold _load_model. by rewrite Hhit. Qed.

Lemma load_model_miss (model_key : str) (w : World Model) :
  _models w !! model_key = None ->
  load model_key w =
    match SentenceTransformer (settings.get_model_name model_key)
            (bool_decide (model_key = py "jina-small")) with
    | inr model =>
        (Ok model,
         {| _models := <[model_key := model]> (_models w); clock := clock w;
            calls := calls w ++ [load_call model_key] |})
    | inl e =>
        (Raise (RuntimeError
           (py "Failed to load model " ++ model_key ++ py ": " ++ e)),
         {| _models := _models w; clock := clock w;
            calls := calls w ++ [load_call model_key] |})
    end.
Proof.
  intros Hmiss. unfold _load_model. rewrite Hmiss.
  unfold mbind, M_bind, bindM, new_model. simpl.
  by destruct (SentenceTransformer _ _).
Qed.

(** X6.  [generate_embeddings] rejects a model key that is not one of the
    available models with [ValueError], before any call of the provider:
    the state is as before. *)
Theorem generate_embeddings_invalid_key (texts : list str) (model_key : str)
    (w : World Model) :
  model_key ∉ settings.get_available_models ->
  embed texts model_key w =
    (Raise (ValueError
       (match texts with
        | [] => py "No texts provided for embedding generation"
        | _ => py "Invalid model key: " ++ model_key
        end)), w).
Proof.
  intros Hkey. unfold generate_embeddings. destruct texts as [|t texts];
    [done|].
  by rewrite bool_decide_eq_false_2.
Qed.

(** X7.  A model that [_load_model] has returned is in the cache under its
    key, the other keys are as before, and loading the key again returns
    the same model without calling the provider or changing the state. *)
Theorem load_model_cached (model_key : str) (model : Model)
    (w w1 : World Model) :
  load model_key w = (Ok model, w1) ->
  _models w1 !! model_key = Some model /\
  (forall k, k <> model_key -> _models w1 !! k = _models w !! k) /\
  load model_key w1 = (Ok model, w1).
Proof.
  intros Hload.
  assert (_models w1 !! model_key = Some model /\
          forall k, k <> model_key -> _models w1 !! k = _models w !! k)
    as [Hin Hothers].
  { destruct (_models w !! model_key) as [model0|] eqn:Hlook.
    - rewrite (load_model_hit _ _ _ Hlook) in Hload.
      injection Hload as <- <-. done.
    - rewrite (load_model_miss _ _ Hlook) in Hload.
      destruct (SentenceTransformer _ _) as [e|model0]; [done|].
      injection Hload as <- <-. simpl. split.
      + apply lookup_insert_eq.
      + intros k Hk. by apply lookup_insert_ne. }
  split; [done|]. split; [done|]. by apply load_model_hit.
Qed.

(** X8.  When the model is not in the cache and its constructor raises,
    [_load_model] raises [RuntimeError] with the text of that exception and
    leaves the cache as it was, so that the next call tries the constructor
    again. *)
Theorem load_model_failure (model_key e : str) (w : World Model) :
  _models w !! model_key = None ->
  SentenceTransformer (settings.get_model_name model_key)
    (bool_decide (model_key = py "jina-small")) = inl e ->
  exists w1,
    load model_key w
      = (Raise (RuntimeError
           (py "Failed to load model " ++ model_key ++ py ": " ++ e)), w1) /\
    _models w1 = _models w /\
    calls w1 = calls w ++ [load_call model_key] /\
    exists w2,
      load model_key w1
        = (Raise (RuntimeError
             (py "Failed to load model " ++ model_key ++ py ": " ++ e)), w2) /\
      calls w2 = calls w ++ [load_call model_key; load_call model_key].
Proof.
  intros Hmiss Hfail. rewrite (load_model_miss _ _ Hmiss), Hfail.
  eexists. split; [done|]. split; [done|]. split; [done|].
  rewrite load_model_miss by done. rewrite Hfail. eexists. split; [done|].
  simpl. by rewrite <- app_assoc.
Qed.

(** X9.  After [unload_model] the key is not loaded, the other keys are as
    before and the provider has not been called; loading the key again
    calls the constructor. *)
Theorem unload_model_forgets (model_key : str) (w : World Model) :
  exists w1,
    unload_model Model model_key w = (Ok tt, w1) /\
    is_model_loaded Model model_key w1 = (Ok false, w1) /\
    (forall k, k <> model_key ->
       is_model_loaded Model k w1 = (fst (is_model_loaded Model k w), w1)) /\
    calls w1 = calls w /\
    calls (snd (load model_key w1)) = calls w ++ [load_call model_key].
Proof.
  assert (exists w1, unload_model Model model_key w = (Ok tt, w1) /\
            _models w1 = delete model_key (_models w) /\
            calls w1 = calls w) as (w1 & Hrun & Hmodels & Hcalls).
  { unfold unload_model.
    destruct (_models w !! model_key) as [model|] eqn:Hlook.
    - eexists. by split.
    - exists w. split; [done|]. split; [|done]. symmetry.
      by apply delete_id. }
  exists w1. split; [done|].
  assert (_models w1 !! model_key = None) as Hgone
    by (rewrite Hmodels; apply lookup_delete_eq).
  split; [|split; [|split; [done|]]].
  - unfold is_model_loaded. by rewrite Hgone.
  - intros k Hk. unfold is_model_loaded. simpl.
    rewrite Hmodels. by rewrite lookup_delete_ne.
  - rewrite load_model_miss by done.
    destruct (SentenceTransformer _ _); simpl; by rewrite Hcalls.
Qed.

(** X10.  [get_model_info] returns a record exactly for the keys of
    [settings.MODELS], the name in it being the name [settings] gives the
    key; for any other key it raises [ValueError]. *)
Theorem get_model_info_available (model_key : str) :
  (model_key ∈ settings.get_available_models ->
   exists info, get_model_info model_key = Ok info /\
     name info = settings.get_model_name model_key) /\
  (model_key ∉ settings.get_available_models ->
   get_model_info model_key
     = Raise (ValueError (py "Unknown model key: " ++ model_key))).
Proof.
  unfold get_model_info, settings.get_model_name, settings.get_available_models.
  unfold _model_info, settings.MODELS. simpl. split.
  - intros Hin. repeat (apply elem_of_cons in Hin as [->|Hin]);
      [by eexists..|by apply elem_of_nil in Hin].
  - intros Hout. rewrite !not_elem_of_cons in Hout.
    destruct Hout as (H1 & H2 & H3 & _).
    by rewrite !decide_False by done.
Qed.

End EmbeddingFacts.

(** A provider whose constructor fails. *)
Definition failing_transformer (model_name : str) (trust_remote_code : bool)
    : str + unit := inl (py "connection refused").

Lemma generate_embeddings_invalid_key_witness :
  (py "bert" ∉ settings.get_available_models) /\
  EmbeddingService.generate_embeddings unit unit_transformer unit_encode
      [py "some text"] (py "bert") fresh_world
    = (Raise (ValueError (py "Invalid model key: bert")), fresh_world).
Proof.
  assert (py "bert" ∉ settings.get_available_models) as Hkey.
  { unfold settings.get_available_models. simpl.
    rewrite !not_elem_of_cons. repeat split; try discriminate.
    apply not_elem_of_nil. }
  split; [exact Hkey|].
  exact (generate_embeddings_invalid_key unit unit_transformer unit_encode
           [py "some text"] (py "bert") fresh_world Hkey).
Defined.

Lemma load_model_cached_witness :
  let w1 : World unit :=
    {| _models := <[py "mpnet" := tt]> ∅; clock := 0;
       calls := [LoadCall (py "all-mpnet-base-v2") false] |} in
  EmbeddingService._load_model unit unit_transformer (py "mpnet") fresh_world
    = (Ok tt, w1) /\
  (_models w1 !! py "mpnet" = Some tt /\
   (forall k, k <> py "mpnet" -> _models w1 !! k = _models fresh_world !! k) /\
   EmbeddingService._load_model unit unit_transformer (py "mpnet") w1
     = (Ok tt, w1)).
Proof.
  intros w1.
  assert (EmbeddingService._load_model unit unit_transformer (py "mpnet")
            fresh_world = (Ok tt, w1)) as Hload by reflexivity.
  split; [exact Hload|].
  exact (load_model_cached unit unit_transformer (py "mpnet") tt fresh_world
           w1 Hload).
Defined.

Lemma load_model_failure_witness :
  _models fresh_world !! py "miniLM" = None /\
  failing_transformer (settings.get_model_name (py "miniLM"))
    (bool_decide (py "miniLM" = py "jina-small"))
    = inl (py "connection refused") /\
  exists w1,
    EmbeddingService._load_model unit failing_transformer (py "miniLM")
        fresh_world
      = (Raise (RuntimeError
           (py "Failed to load model " ++ py "miniLM" ++ py ": "
              ++ py "connection refused")), w1) /\
    _models w1 = _models fresh_world /\
    calls w1 = calls fresh_world ++ [load_call (py "miniLM")] /\
    exists w2,
      EmbeddingService._load_model unit failing_transformer (py "miniLM") w1
        = (Raise (RuntimeError
             (py "Failed to load model " ++ py "miniLM" ++ py ": "
                ++ py "connection refused")), w2) /\
      calls w2 = calls fresh_world
                   ++ [load_call (py "miniLM"); load_call (py "miniLM")].
Proof.
  split; [reflexivity|]. split; [reflexivity|].
  exact (load_model_failure unit failing_transformer (py "miniLM")
           (py "connection refused") fresh_world eq_refl eq_refl).
Defined.

(** ** [analyze_texts] *)

Section AnalyzeTexts.

Import SimilarityService EmbeddingService DetectionService.

Variable Model : Type.
Variable SentenceTransformer : str -> bool -> str + Model.
Variable encode : Model -> list str -> str + ndarray.
Variable np_dot : list float64 -> list float64 -> float64.
Variable time_time : nat -> float64.
Context `{!Reductions}.

#[local] Abbreviation embed :=
  (generate_embeddings Model SentenceTransformer encode).
#[local] Abbreviation analyze :=
  (analyze_texts Model SentenceTransformer encode np_dot time_time).

(** The state after one reading of the clock. *)
Definition tick (w : World Model) : World Model :=
  {| _models := _models w; clock := S (clock w); calls := calls w |}.

(** The engine's part of [analyze_texts], which touches no state. *)
Definition analysis (embeddings : ndarray) (texts : list str)
    (threshold : float64)
    : result (ndarray * list SimilarityPair * statistics) :=
  similarity_matrix ← calculate_similarity_matrix np_dot embeddings;
  similar_pairs_raw ← find_similar_pairs similarity_matrix threshold;
  plagiarized_pairs ← _create_similarity_pairs similar_pairs_raw texts;
  stats ← get_similarity_statistics similarity_matrix;
  Ok (similarity_matrix, plagiarized_pairs, stats).

Lemma analyze_texts_unfold (texts : list str) (model_key : str)
    (threshold : float64) (w : World Model) :
  analyze texts model_key threshold w =
    match embed texts model_key (tick w) with
    | (Raise e, w1) => (Raise e, w1)
    | (Ok embeddings, w1) =>
        match analysis embeddings texts threshold with
        | Raise e =>
            (Raise e,
             match calculate_similarity_matrix np_dot embeddings with
             | Ok m =>
                 match find_similar_pairs m threshold with
                 | Ok raw =>
                     match _create_similarity_pairs raw texts with
                     | Ok _ => tick w1
                     | Raise _ => w1
                     end
                 | Raise _ => w1
                 end
             | Raise _ => w1
             end)
        | Ok (m, pairs, stats) =>
            (Ok (m, pairs,
                 {| model_used := model_key; threshold_used := threshold;
                    total_comparisons :=
                      length texts * (length texts - 1) / 2;
                    execution_time :=
                      fsub (time_time (clock w1)) (time_time (clock w));
                    similarity_stats := stats |}),
             tick w1)
        end
    end.
Proof.
  unfold analyze_texts, analysis, mbind, M_bind, bindM, liftM, now, retM.
  simpl. fold (tick w).
  destruct (embed texts model_key (tick w)) as [[emb|e] w1]; [|done].
  destruct (calculate_similarity_matrix np_dot emb) as [m|e]; [|done]. simpl.
  destruct (find_similar_pairs m threshold) as [raw|e]; [|done]. simpl.
  destruct (_create_similarity_pairs raw texts) as [pairs|e]; [|done]. simpl.
  by destruct (get_similarity_statistics m) as [stats|e].
Qed.

Lemma calculate_similarity_matrix_square (embeddings m : ndarray) :
  calculate_similarity_matrix np_dot embeddings = Ok m ->
  square (length embeddings) m.
Proof.
  unfold calculate_similarity_matrix, shape0. case_decide; [done|].
  destruct (similarity_matrix_invariant np_dot embeddings)
    as (m' & -> & Hsq & _). by intros [= <-].
Qed.

Lemma get_similarity_statistics_total (n : nat) (m : ndarray) :
  square n m ->
  exists stats, get_similarity_statistics m = Ok stats /\
    total_pairs stats = n * (n - 1) / 2.
Proof.
  intros Hsq. unfold get_similarity_statistics.
  rewrite (upper_triangle_of_square n) by done. simpl.
  pose proof (length_upper_values n m Hsq) as Hlen.
  destruct (upper_values n m) as [|x l]; by eexists.
Qed.

Lemma create_similarity_pairs_defined (raw : list raw_pair)
    (texts : list str) :
  Forall (fun p => p.1.1 < length texts /\ p.1.2 < length texts) raw ->
  exists pairs,
    _create_similarity_pairs raw texts = Ok pairs /\
    mapM (pair_record texts) raw = Some pairs.
Proof.
  intros Hall. rewrite create_similarity_pairs_mapM.
  destruct (mapM (pair_record texts) raw) as [ps|] eqn:Hmap; [by eexists|].
  exfalso. apply mapM_None in Hmap. apply Exists_exists in Hmap.
  destruct Hmap as (p & Hp & Hnone). rewrite Forall_forall in Hall.
  apply Hall, pair_record_is_Some in Hp. rewrite Hnone in Hp. by destruct Hp.
Qed.

(** On vectors for every text, not all empty, and a valid threshold the
    engine's part of the analysis succeeds. *)
Lemma analysis_defined (embeddings : ndarray) (texts : list str)
    (threshold : float64) :
  length embeddings = length texts -> size embeddings <> 0 ->
  valid_threshold threshold = true ->
  exists m raw pairs stats,
    analysis embeddings texts threshold = Ok (m, pairs, stats) /\
    calculate_similarity_matrix np_dot embeddings = Ok m /\
    square (length texts) m /\
    find_similar_pairs m threshold = Ok raw /\
    _create_similarity_pairs raw texts = Ok pairs /\
    get_similarity_statistics m = Ok stats /\
    total_pairs stats = length texts * (length texts - 1) / 2.
Proof.
  intros Hlen Hsize Hvalid.
  destruct (similarity_matrix_invariant np_dot embeddings)
    as (m & Hrun & Hsq & _).
  assert (calculate_similarity_matrix np_dot embeddings = Ok m) as Hm.
  { unfold calculate_similarity_matrix, shape0.
    by rewrite decide_False by done. }
  rewrite Hlen in Hsq.
  pose proof (find_similar_pairs_square _ m threshold Hsq Hvalid) as Hraw.
  destruct (create_similarity_pairs_defined
    (sort_reverse score (upper_pairs (length texts) m threshold)) texts)
    as (pairs & Hpairs & _).
  { apply Forall_forall. intros [[i j] v]. rewrite sort_reverse_perm.
    rewrite elem_of_upper_pairs. simpl. lia. }
  destruct (get_similarity_statistics_total _ m Hsq) as (stats & Hstats & Htot).
  exists m, (sort_reverse score (upper_pairs (length texts) m threshold)),
    pairs, stats.
  unfold analysis. rewrite Hm. simpl. rewrite Hraw. simpl.
  rewrite Hpairs. simpl. rewrite Hstats. simpl. done.
Qed.

Lemma generate_embeddings_Ok (texts : list str) (model_key : str)
    (embeddings : ndarray) (w w1 : World Model) :
  embed texts model_key w = (Ok embeddings, w1) ->
  texts <> [] /\ model_key ∈ settings.get_available_models /\
  clock w1 = clock w /\
  exists model,
    _models w1 !! model_key = Some model /\
    encode model texts = inr embeddings /\
    (calls w1 = calls w ++ [EncodeCall texts] \/
     calls w1 = calls w ++ [load_call model_key; EncodeCall texts]).
Proof.
  unfold generate_embeddings. destruct texts as [|t texts]; [done|].
  destruct (bool_decide (model_key ∈ settings.get_available_models))
    eqn:Hkey; [|done].
  apply bool_decide_eq_true in Hkey. simpl.
  unfold mbind, M_bind, bindM, call_encode.
  destruct (_models w !! model_key) as [model|] eqn:Hlook.
  - rewrite (load_model_hit _ _ _ _ _ Hlook). simpl.
    destruct (encode model (t :: texts)) as [e|emb] eqn:Henc; [done|].
    intros [= <- <-]. simpl. split; [done|]. split; [done|]. split; [done|].
    exists model. split; [done|]. split; [done|]. by left.
  - rewrite (load_model_miss _ _ _ _ Hlook).
    destruct (SentenceTransformer _ _) as [e|model]; [done|]. simpl.
    destruct (encode model (t :: texts)) as [e|emb] eqn:Henc; [done|].
    intros [= <- <-]. simpl. split; [done|]. split; [done|]. split; [done|].
    exists model. split; [apply lookup_insert_eq|]. split; [done|]. right.
    by rewrite <- app_assoc.
Qed.

(** X11.  When [generate_embeddings] returns, the list of texts is not
    empty, the key is one of the available models, its model is in the
    cache, and the provider has encoded the whole list of texts in one
    call, after at most one load. *)
Theorem generate_embeddings_one_call (texts : list str) (model_key : str)
    (embeddings : ndarray) (w w1 : World Model) :
  embed texts model_key w = (Ok embeddings, w1) ->
  texts <> [] /\ model_key ∈ settings.get_available_models /\
  exists model,
    _models w1 !! model_key = Some model /\
    encode model texts = inr embeddings /\
    (calls w1 = calls w ++ [EncodeCall texts] \/
     calls w1 = calls w ++ [load_call model_key; EncodeCall texts]).
Proof.
  intros Hrun. apply generate_embeddings_Ok in Hrun. tauto.
Qed.

(** X12.  When the provider returns one vector for each text, not all
    empty, and the threshold is in [[0.0, 1.0]], [analyze_texts] returns:
    the matrix is square of the size of the list of texts, the pairs are
    the records of the output of [find_similar_pairs], [total_comparisons]
    equals the [total_pairs] of the statistics, and [execution_time] is the
    difference of two successive readings of the clock. *)
Theorem analyze_texts_succeeds (texts : list str) (model_key : str)
    (threshold : float64) (embeddings : ndarray) (w w1 : World Model) :
  embed texts model_key (tick w) = (Ok embeddings, w1) ->
  length embeddings = length texts -> size embeddings <> 0 ->
  valid_threshold threshold = true ->
  exists m pairs meta,
    analyze texts model_key threshold w = (Ok (m, pairs, meta), tick w1) /\
    calculate_similarity_matrix np_dot embeddings = Ok m /\
    square (length texts) m /\
    (exists raw, find_similar_pairs m threshold = Ok raw /\
                 _create_similarity_pairs raw texts = Ok pairs) /\
    model_used meta = model_key /\ threshold_used meta = threshold /\
    total_comparisons meta = length texts * (length texts - 1) / 2 /\
    total_pairs (similarity_stats meta) = total_comparisons meta /\
    execution_time meta
      = fsub (time_time (S (clock w))) (time_time (clock w)).
Proof.
  intros Hemb Hlen Hsize Hvalid.
  destruct (analysis_defined embeddings texts threshold Hlen Hsize Hvalid)
    as (m & raw & pairs & stats & Hrun & Hm & Hsq & Hraw & Hpairs & _ & Htot).
  rewrite analyze_texts_unfold, Hemb, Hrun.
  apply generate_embeddings_Ok in Hemb as (_ & _ & Hclock & _).
  do 3 eexists. split; [done|]. simpl. rewrite Hclock.
  split; [done|]. split; [done|]. split; [by exists raw|].
  split; [done|]. split; [done|]. split; [done|]. split; done.
Qed.

(** X13.  [analyze_texts] checks the threshold only in
    [find_similar_pairs]: with a threshold outside [[0.0, 1.0]] it raises
    [ValueError] after the provider has encoded the texts, the state being
    the one [generate_embeddings] left. *)
Theorem analyze_texts_invalid_threshold (texts : list str)
    (model_key : str) (threshold : float64) (embeddings : ndarray)
    (w w1 : World Model) :
  embed texts model_key (tick w) = (Ok embeddings, w1) ->
  size embeddings <> 0 ->
  valid_threshold threshold = false ->
  analyze texts model_key threshold w
    = (Raise (ValueError (py "Threshold must be between 0.0 and 1.0")), w1) /\
  exists loads, calls w1 = calls w ++ loads ++ [EncodeCall texts].
Proof.
  intros Hemb Hsize Hvalid. rewrite analyze_texts_unfold, Hemb.
  destruct (similarity_matrix_invariant np_dot embeddings)
    as (m & Hrun & _).
  assert (calculate_similarity_matrix np_dot embeddings = Ok m) as Hm.
  { unfold calculate_similarity_matrix, shape0.
    by rewrite decide_False by done. }
  unfold analysis. rewrite Hm. simpl.
  unfold find_similar_pairs. rewrite Hvalid. simpl. split; [done|].
  apply generate_embeddings_Ok in Hemb as (_ & _ & _ & model & _ & _ & Hcalls).
  destruct Hcalls as [Hcalls|Hcalls]; rewrite Hcalls; simpl.
  - by exists [].
  - by exists [load_call model_key].
Qed.

End AnalyzeTexts.

(** ** [detect_potential_plagiarism] and the handlers *)

Section Handlers.

Import SimilarityService EmbeddingService DetectionService.

Variable Model : Type.
Variable SentenceTransformer : str -> bool -> str + Model.
Variable encode : Model -> list str -> str + ndarray.
Variable np_dot : list float64 -> list float64 -> float64.
Variable time_time : nat -> float64.
Context `{!Reductions}.

#[local] Abbreviation embed :=
  (generate_embeddings Model SentenceTransformer encode).
#[local] Abbreviation analyze :=
  (analyze_texts Model SentenceTransformer encode np_dot time_time).
#[local] Abbreviation detect :=
  (detect_potential_plagiarism Model SentenceTransformer encode np_dot
     time_time).

Lemma detect_unfold (texts : list str) (model_key : str)
    (strict_threshold moderate_threshold : float64) (w : World Model) :
  detect texts model_key strict_threshold moderate_threshold w =
    match analyze texts model_key moderate_threshold w with
    | (Raise e, w1) => (Raise e, w1)
    | (Ok (m, _, meta), w1) =>
        (strict_pairs ← find_similar_pairs m strict_threshold;
         moderate_pairs ← find_similar_pairs m moderate_threshold;
         strict_similarity_pairs ←
           _create_similarity_pairs strict_pairs texts;
         moderate_similarity_pairs ←
           _create_similarity_pairs moderate_pairs texts;
         Ok {| high_confidence_plagiarism := strict_similarity_pairs;
               moderate_confidence_plagiarism := moderate_similarity_pairs;
               result_similarity_matrix := m;
               result_metadata := meta |},
         w1)
    end.
Proof.
  unfold detect_potential_plagiarism, mbind at 1, M_bind, bindM.
  destruct (analyze texts model_key moderate_threshold w)
    as [[[[m pairs] meta]|e] w1]; [|done].
  unfold mbind, M_bind, bindM, liftM, retM, result_bind.
  destruct (find_similar_pairs m strict_threshold); [|done].
  destruct (find_similar_pairs m moderate_threshold); [|done].
  destruct (_create_similarity_pairs _ texts); [|done].
  by destruct (_create_similarity_pairs _ texts).
Qed.

(** X14.  [detect_potential_plagiarism] changes the state as its one call
    of [analyze_texts] does, whatever the outcome: the texts are encoded
    once, and the two extractions of pairs work on the matrix already
    computed. *)
Theorem detect_potential_plagiarism_one_analysis (texts : list str)
    (model_key : str) (strict_threshold moderate_threshold : float64)
    (w : World Model) :
  snd (detect texts model_key strict_threshold moderate_threshold w)
    = snd (analyze texts model_key moderate_threshold w).
Proof.
  rewrite detect_unfold.
  by destruct (analyze texts model_key moderate_threshold w)
    as [[[[m pairs] meta]|e] w1].
Qed.

Lemma find_similar_pairs_Ok (m : ndarray) (threshold : float64)
    (l : list raw_pair) :
  find_similar_pairs m threshold = Ok l ->
  valid_threshold threshold = true /\
  l = sort_reverse score (upper_pairs (length m) m threshold).
Proof.
  unfold find_similar_pairs.
  destruct (valid_threshold threshold); [|done]. simpl.
  destruct (scan_pairs m threshold) as [l0|e] eqn:Hscan; [|done].
  intros [= <-]. split; [done|]. f_equal.
  rewrite scan_pairs_defined in Hscan; [congruence|].
  intros i j Hij Hj. by eapply scan_pairs_Ok_inv.
Qed.

Lemma create_similarity_pairs_elem (raw : list raw_pair) (texts : list str)
    (pairs : list SimilarityPair) (r : SimilarityPair) :
  _create_similarity_pairs raw texts = Ok pairs ->
  r ∈ pairs <-> exists p, p ∈ raw /\ pair_record texts p = Some r.
Proof.
  rewrite create_similarity_pairs_mapM.
  destruct (mapM (pair_record texts) raw) as [ps|] eqn:Hmap; [|done].
  intros [= <-]. apply mapM_Some in Hmap. split.
  - intros Hr. apply list_elem_of_lookup in Hr as [k Hk].
    destruct (Forall2_lookup_r _ _ _ _ _ Hmap Hk) as (p & Hp & Hpr).
    exists p. split; [|done]. by eapply list_elem_of_lookup_2.
  - intros (p & Hp & Hpr). apply list_elem_of_lookup in Hp as [k Hk].
    destruct (Forall2_lookup_l _ _ _ _ _ Hmap Hk) as (r' & Hr' & Hpr').
    assert (r' = r) as -> by congruence. by eapply list_elem_of_lookup_2.
Qed.

(** X15.  When [detect_potential_plagiarism] returns and the moderate
    threshold is not above the strict one, every pair of high confidence is
    also among the pairs of moderate confidence. *)
Theorem detect_potential_plagiarism_tiers (texts : list str)
    (model_key : str) (strict_threshold moderate_threshold : float64)
    (w w1 : World Model) (r : detection_result) :
  detect texts model_key strict_threshold moderate_threshold w = (Ok r, w1) ->
  fle moderate_threshold strict_threshold = true ->
  forall p, p ∈ high_confidence_plagiarism r ->
            p ∈ moderate_confidence_plagiarism r.
Proof.
  rewrite detect_unfold. intros Hrun Hle p.
  destruct (analyze texts model_key moderate_threshold w)
    as [[[[m pairs] meta]|e] w2]; [|done].
  destruct (find_similar_pairs m strict_threshold) as [rs|e] eqn:Hrs;
    [|done].
  destruct (find_similar_pairs m moderate_threshold) as [rm|e] eqn:Hrm;
    [|done].
  simpl in Hrun.
  destruct (_create_similarity_pairs rs texts) as [ps|e] eqn:Hps; [|done].
  destruct (_create_similarity_pairs rm texts) as [pm|e] eqn:Hpm; [|done].
  simpl in Hrun. injection Hrun as <- <-. simpl.
  rewrite (create_similarity_pairs_elem _ _ _ _ Hps).
  rewrite (create_similarity_pairs_elem _ _ _ _ Hpm).
  intros (q & Hq & Hrec). exists q. split; [|done].
  apply find_similar_pairs_Ok in Hrs as [_ ->].
  apply find_similar_pairs_Ok in Hrm as [_ ->].
  destruct q as [[i j] s]. rewrite sort_reverse_perm in Hq |- *.
  apply elem_of_upper_pairs in Hq as (Hij & Hj & Hs & Hge).
  apply elem_of_upper_pairs. repeat split; try done.
  unfold fge in *. by eapply fle_trans.
Qed.

(** An HTTP error of status 400 or 500. *)
Definition http_error (e : exn) : Prop :=
  exists detail,
    e = HTTPException 400 detail \/ e = HTTPException 500 detail.

Lemma try_except_http_error {A : Type} (body : M Model A)
    (handler : exn -> M Model A) (w : World Model) (e : exn) :
  (forall e0 w0, exists e1, handler e0 w0 = (Raise e1, w0) /\ http_error e1) ->
  fst (try_except body handler w) = Raise e -> http_error e.
Proof.
  intros Hhandler. unfold try_except.
  destruct (body w) as [[a|e0] w0]; [done|].
  destruct (Hhandler e0 w0) as (e1 & -> & He1). simpl. by intros [= <-].
Qed.

#[local] Abbreviation compare :=
  (compare_two_texts Model SentenceTransformer encode np_dot time_time).
#[local] Abbreviation analyze_handler :=
  (analyze_plagiarism Model SentenceTransformer encode np_dot time_time).
#[local] Abbreviation detailed_handler :=
  (analyze_plagiarism_detailed Model SentenceTransformer encode np_dot
     time_time).
#[local] Abbreviation health := (health_check Model SentenceTransformer).

(** X16.  No handler lets an exception other than an [HTTPException] of
    status 400 or 500 escape, whatever the provider does. *)
Theorem handlers_raise_http_errors (texts : list str)
    (text1 text2 model_key : str) (threshold : float64) (w : World Model)
    (e : exn) :
  (fst (compare text1 text2 model_key w) = Raise e -> http_error e) /\
  (fst (analyze_handler texts model_key threshold w) = Raise e ->
   http_error e) /\
  (fst (detailed_handler texts model_key threshold w) = Raise e ->
   http_error e) /\
  (fst (health w) = Raise e -> http_error e).
Proof.
  repeat split; apply try_except_http_error; intros e0 w0.
  - destruct e0; eexists; (split; [reflexivity|]); eexists; eauto.
  - destruct e0; eexists; (split; [reflexivity|]); eexists; eauto.
  - destruct e0; eexists; (split; [reflexivity|]); eexists; eauto.
  - eexists. split; [reflexivity|]. eexists; eauto.
Qed.

(** X17.  [health_check] always answers, with the status ["healthy"]: a
    failure to load the default model is only reported in [models_loaded],
    which tells whether that model is in the cache afterwards. *)
Theorem health_check_always_answers (w : World Model) :
  exists loaded w1,
    health w
      = (Ok {| status := py "healthy"; version := py "1.0.0";
               models_loaded := loaded |}, w1) /\
    w1 = snd (_load_model Model SentenceTransformer settings.DEFAULT_MODEL w)
    /\
    (loaded = true <-> is_Some (_models w1 !! settings.DEFAULT_MODEL)).
Proof.
  unfold health_check, try_except, mbind, M_bind, bindM, retM.
  destruct (_models w !! settings.DEFAULT_MODEL) as [model|] eqn:Hlook.
  - rewrite (load_model_hit _ _ _ _ _ Hlook). simpl.
    do 2 eexists. split; [done|]. split; [done|]. rewrite Hlook.
    split; [by eexists|done].
  - rewrite (load_model_miss _ _ _ _ Hlook).
    destruct (SentenceTransformer _ _) as [e|model]; simpl.
    + do 2 eexists. split; [done|]. split; [done|]. simpl. rewrite Hlook.
      split; [done|by intros [? ?]].
    + do 2 eexists. split; [done|]. split; [done|]. simpl.
      rewrite lookup_insert_eq. split; [by eexists|done].
Qed.

Lemma analyze_texts_rejected (texts : list str) (model_key : str)
    (threshold : float64) (w : World Model) :
  texts = [] \/ model_key ∉ settings.get_available_models ->
  analyze texts model_key threshold w =
    (Raise (ValueError
       (match texts with
        | [] => py "No texts provided for embedding generation"
        | _ => py "Invalid model key: " ++ model_key
        end)), tick Model w).
Proof.
  intros Hbad. rewrite analyze_texts_unfold. unfold generate_embeddings.
  destruct texts as [|t texts]; [done|].
  destruct Hbad as [Hbad|Hbad]; [done|].
  by rewrite bool_decide_eq_false_2.
Qed.

(** X18.  [/analyze] and [/analyze/detailed] answer a request with no text,
    or with a model key that is not available, by an HTTP 400 error that
    carries the message of the [ValueError]; the clock has been read once
    and the provider has not been called. *)
Theorem analyze_plagiarism_bad_request (texts : list str) (model_key : str)
    (threshold : float64) (w : World Model) :
  texts = [] \/ model_key ∉ settings.get_available_models ->
  let detail :=
    py "Invalid input: " ++
    match texts with
    | [] => py "No texts provided for embedding generation"
    | _ => py "Invalid model key: " ++ model_key
    end in
  analyze_handler texts model_key threshold w
    = (Raise (HTTPException 400 detail), tick Model w) /\
  detailed_handler texts model_key threshold w
    = (Raise (HTTPException 400 detail), tick Model w).
Proof.
  intros Hbad detail. split.
  - unfold analyze_plagiarism, try_except, analyze_plagiarism_try.
    unfold mbind, M_bind, bindM.
    by rewrite (analyze_texts_rejected _ _ _ _ Hbad).
  - unfold analyze_plagiarism_detailed, try_except.
    rewrite detect_unfold. by rewrite (analyze_texts_rejected _ _ _ _ Hbad).
Qed.

(** X19.  When the provider fails, so that [generate_embeddings] raises
    [RuntimeError], [/analyze] answers by an HTTP 500 error that carries
    the message, and [/analyze/detailed] by an HTTP 500 error that does
    not. *)
Theorem provider_failure_reported (texts : list str) (model_key msg : str)
    (threshold : float64) (w w1 : World Model) :
  embed texts model_key (tick Model w) = (Raise (RuntimeError msg), w1) ->
  analyze_handler texts model_key threshold w
    = (Raise (HTTPException 500 (py "Analysis failed: " ++ msg)), w1) /\
  detailed_handler texts model_key threshold w
    = (Raise (HTTPException 500
         (py "An unexpected error occurred during detailed analysis")), w1).
Proof.
  intros Hemb.
  assert (analyze texts model_key threshold w
          = (Raise (RuntimeError msg), w1)) as Hrun
    by (by rewrite analyze_texts_unfold, Hemb).
  split.
  - unfold analyze_plagiarism, try_except, analyze_plagiarism_try.
    unfold mbind, M_bind, bindM. by rewrite Hrun.
  - unfold analyze_plagiarism_detailed, try_except.
    rewrite detect_unfold. by rewrite Hrun.
Qed.

End Handlers.

(** *** Runs with the provider of the examples *)

(** A provider whose encoder fails. *)
Definition failing_encode (model : unit) (texts : list str) : str + ndarray :=
  inl (py "out of memory").

Definition two_texts : list str := [py "first text"; py "second text"].

(** The float [2.0]. *)
Definition f2_0 : float64 := S754_finite false 4503599627370496 (-51).

Lemma generate_embeddings_one_call_witness :
  exists emb w1,
    EmbeddingService.generate_embeddings unit unit_transformer unit_encode
        two_texts (py "miniLM") fresh_world = (Ok emb, w1) /\
    (two_texts <> [] /\ py "miniLM" ∈ settings.get_available_models /\
     exists model,
       _models w1 !! py "miniLM" = Some model /\
       unit_encode model two_texts = inr emb /\
       (calls w1 = calls fresh_world ++ [EncodeCall two_texts] \/
        calls w1 = calls fresh_world
                     ++ [load_call (py "miniLM"); EncodeCall two_texts])).
Proof.
  do 2 eexists.
  assert (EmbeddingService.generate_embeddings unit unit_transformer
            unit_encode two_texts (py "miniLM") fresh_world
          = (Ok [[one]; [one]],
             {| _models := <[py "miniLM" := tt]> ∅; clock := 0;
                calls := [load_call (py "miniLM"); EncodeCall two_texts] |}))
    as Hrun by reflexivity.
  split; [exact Hrun|].
  exact (generate_embeddings_one_call unit unit_transformer unit_encode
           two_texts (py "miniLM") _ fresh_world _ Hrun).
Defined.

Lemma analyze_texts_succeeds_witness :
  exists emb w1,
    EmbeddingService.generate_embeddings unit unit_transformer unit_encode
        two_texts (py "miniLM") (tick unit fresh_world) = (Ok emb, w1) /\
    length emb = length two_texts /\ size emb <> 0 /\
    SimilarityService.valid_threshold f0_7 = true /\
    exists m pairs meta,
      DetectionService.analyze_texts unit unit_transformer unit_encode dot1
          still_clock two_texts (py "miniLM") f0_7 fresh_world
        = (Ok (m, pairs, meta), tick unit w1) /\
      SimilarityService.calculate_similarity_matrix dot1 emb = Ok m /\
      square (length two_texts) m /\
      (exists raw,
         SimilarityService.find_similar_pairs m f0_7 = Ok raw /\
         DetectionService._create_similarity_pairs raw two_texts = Ok pairs) /\
      DetectionService.model_used meta = py "miniLM" /\
      DetectionService.threshold_used meta = f0_7 /\
      DetectionService.total_comparisons meta
        = length two_texts * (length two_texts - 1) / 2 /\
      SimilarityService.total_pairs (DetectionService.similarity_stats meta)
        = DetectionService.total_comparisons meta /\
      DetectionService.execution_time meta
        = fsub (still_clock (S (clock fresh_world)))
               (still_clock (clock fresh_world)).
Proof.
  do 2 eexists.
  assert (EmbeddingService.generate_embeddings unit unit_transformer
            unit_encode two_texts (py "miniLM") (tick unit fresh_world)
          = (Ok [[one]; [one]],
             {| _models := <[py "miniLM" := tt]> ∅; clock := 1;
                calls := [load_call (py "miniLM"); EncodeCall two_texts] |}))
    as Hrun by reflexivity.
  assert (size [[one]; [one]] <> 0) as Hsize by (vm_compute; lia).
  split; [exact Hrun|]. split; [reflexivity|]. split; [exact Hsize|].
  split; [reflexivity|].
  exact (analyze_texts_succeeds unit unit_transformer unit_encode dot1
           still_clock two_texts (py "miniLM") f0_7 _ fresh_world _ Hrun
           eq_refl Hsize eq_refl).
Defined.

Lemma analyze_texts_invalid_threshold_witness :
  exists emb w1,
    EmbeddingService.generate_embeddings unit unit_transformer unit_encode
        two_texts (py "miniLM") (tick unit fresh_world) = (Ok emb, w1) /\
    size emb <> 0 /\
    SimilarityService.valid_threshold f2_0 = false /\
    DetectionService.analyze_texts unit unit_transformer unit_encode dot1
        still_clock two_texts (py "miniLM") f2_0 fresh_world
      = (Raise (ValueError (py "Threshold must be between 0.0 and 1.0")),
         w1) /\
    exists loads,
      calls w1 = calls fresh_world ++ loads ++ [EncodeCall two_texts].
Proof.
  do 2 eexists.
  assert (EmbeddingService.generate_embeddings unit unit_transformer
            unit_encode two_texts (py "miniLM") (tick unit fresh_world)
          = (Ok [[one]; [one]],
             {| _models := <[py "miniLM" := tt]> ∅; clock := 1;
                calls := [load_call (py "miniLM"); EncodeCall two_texts] |}))
    as Hrun by reflexivity.
  assert (size [[one]; [one]] <> 0) as Hsize by (vm_compute; lia).
  split; [exact Hrun|]. split; [exact Hsize|]. split; [reflexivity|].
  exact (analyze_texts_invalid_threshold unit unit_transformer unit_encode
           dot1 still_clock two_texts (py "miniLM") f2_0 _ fresh_world _
           Hrun Hsize eq_refl).
Defined.

Lemma detect_potential_plagiarism_tiers_witness :
  exists r w1,
    DetectionService.detect_potential_plagiarism unit unit_transformer
        unit_encode dot1 still_clock two_texts (py "miniLM") f0_85 f0_7
        fresh_world = (Ok r, w1) /\
    fle f0_7 f0_85 = true /\
    forall p, p ∈ DetectionService.high_confidence_plagiarism r ->
              p ∈ DetectionService.moderate_confidence_plagiarism r.
Proof.
  do 2 eexists.
  assert (Hrun :
    DetectionService.detect_potential_plagiarism unit unit_transformer
        unit_encode dot1 still_clock two_texts (py "miniLM") f0_85 f0_7
        fresh_world
    = (Ok (match fst (DetectionService.detect_potential_plagiarism unit
                        unit_transformer unit_encode dot1 still_clock
                        two_texts (py "miniLM") f0_85 f0_7 fresh_world) with
           | Ok r => r
           | Raise _ =>
               {| DetectionService.high_confidence_plagiarism := [];
                  DetectionService.moderate_confidence_plagiarism := [];
                  DetectionService.result_similarity_matrix := [];
                  DetectionService.result_metadata :=
                    {| DetectionService.model_used := [];
                       DetectionService.threshold_used := zero;
                       DetectionService.total_comparisons := 0;
                       DetectionService.execution_time := zero;
                       DetectionService.similarity_stats :=
                         zero_statistics |} |}
           end),
       snd (DetectionService.detect_potential_plagiarism unit
              unit_transformer unit_encode dot1 still_clock two_texts
              (py "miniLM") f0_85 f0_7 fresh_world)))
    by reflexivity.
  split; [exact Hrun|]. split; [reflexivity|].
  exact (detect_potential_plagiarism_tiers unit unit_transformer unit_encode
           dot1 still_clock two_texts (py "miniLM") f0_85 f0_7 fresh_world
           _ _ Hrun eq_refl).
Defined.

Lemma analyze_plagiarism_bad_request_witness :
  (@nil str = [] \/ py "miniLM" ∉ settings.get_available_models) /\
  (DetectionService.analyze_plagiarism unit unit_transformer unit_encode
       dot1 still_clock [] (py "miniLM") f0_7 fresh_world
     = (Raise (HTTPException 400
          (py "Invalid input: No texts provided for embedding generation")),
        tick unit fresh_world) /\
   DetectionService.analyze_plagiarism_detailed unit unit_transformer
       unit_encode dot1 still_clock [] (py "miniLM") f0_7 fresh_world
     = (Raise (HTTPException 400
          (py "Invalid input: No texts provided for embedding generation")),
        tick unit fresh_world)).
Proof.
  assert (@nil str = [] \/ py "miniLM" ∉ settings.get_available_models)
    as Hbad by (left; reflexivity).
  split; [exact Hbad|].
  exact (analyze_plagiarism_bad_request unit unit_transformer unit_encode
           dot1 still_clock [] (py "miniLM") f0_7 fresh_world Hbad).
Defined.

Lemma provider_failure_reported_witness :
  exists w1,
    EmbeddingService.generate_embeddings unit unit_transformer failing_encode
        two_texts (py "miniLM") (tick unit fresh_world)
      = (Raise (RuntimeError
           (py "Failed to generate embeddings: out of memory")), w1) /\
    DetectionService.analyze_plagiarism unit unit_transformer failing_encode
        dot1 still_clock two_texts (py "miniLM") f0_7 fresh_world
      = (Raise (HTTPException 500
           (py "Analysis failed: "
              ++ py "Failed to generate embeddings: out of memory")), w1) /\
    DetectionService.analyze_plagiarism_detailed unit unit_transformer
        failing_encode dot1 still_clock two_texts (py "miniLM") f0_7
        fresh_world
      = (Raise (HTTPException 500
           (py "An unexpected error occurred during detailed analysis")), w1).
Proof.
  eexists.
  assert (EmbeddingService.generate_embeddings unit unit_transformer
            failing_encode two_texts (py "miniLM") (tick unit fresh_world)
          = (Raise (RuntimeError
               (py "Failed to generate embeddings: out of memory")),
             {| _models := <[py "miniLM" := tt]> ∅; clock := 1;
                calls := [load_call (py "miniLM"); EncodeCall two_texts] |}))
    as Hrun by reflexivity.
  split; [exact Hrun|].
  exact (provider_failure_reported unit unit_transformer failing_encode dot1
           still_clock two_texts (py "miniLM") _ f0_7 fresh_world _ Hrun).
Defined.

(** ** Text preprocessing *)

Section CleanText.

Import TextPreprocessor.

(** Every whitespace character of [s] is a space and follows a character
    that is not whitespace; with [after_ws], the first character is not
    whitespace either. *)
Fixpoint single_spaced (after_ws : bool) (s : str) : bool :=
  match s with
  | [] => true
  | c :: s' =>
      if isspace c then (c =? 32)%N && negb after_ws && single_spaced true s'
      else single_spaced false s'
  end.

(** The last character of [s] is whitespace. *)
Fixpoint ends_with_space (s : str) : bool :=
  match s with
  | [] => false
  | c :: s' =>
      match s' with
      | [] => isspace c
      | _ => ends_with_space s'
      end
  end.

(** A text in the form [clean_text] gives: its only whitespace characters
    are single spaces between two other characters. *)
Definition tidy (s : str) : Prop :=
  (forall c, c ∈ s -> isspace c = true -> c = 32%N) /\
  (forall i c d, s !! i = Some c -> s !! S i = Some d ->
     isspace c = true -> isspace d = false) /\
  (forall c, head s = Some c -> isspace c = false) /\
  (forall c, last s = Some c -> isspace c = false).

Lemma single_spaced_spec (b : bool) (s : str) :
  single_spaced b s = true <->
  (forall c, c ∈ s -> isspace c = true -> c = 32%N) /\
  (forall i c d, s !! i = Some c -> s !! S i = Some d ->
     isspace c = true -> isspace d = false) /\
  (b = true -> forall c, head s = Some c -> isspace c = false).
Proof.
  revert b. induction s as [|x s IH]; intros b; simpl.
  - split; [|done]. intros _. split; [by intros c ?%elem_of_nil|].
    split; [by intros [|?] ? ? ? ?|by intros _ ? ?].
  - destruct (isspace x) eqn:Hx.
    + rewrite !andb_true_iff, IH, N.eqb_eq, negb_true_iff. split.
      * intros [[-> ->] (Hall & Hadj & Hhead)]. split; [|split].
        -- intros c [->|Hc]%elem_of_cons ?; [done|by apply Hall].
        -- intros [|i] c d Hc Hd Hws; simpl in *.
           ++ apply Hhead; [done|]. by destruct s.
           ++ exact (Hadj i c d Hc Hd Hws).
        -- done.
      * intros (Hall & Hadj & Hhead). split; [split|split; [|split]].
        -- apply Hall; [left|done].
        -- destruct b; [|done]. by rewrite (Hhead eq_refl x eq_refl) in Hx.
        -- intros c Hc. apply Hall. by right.
        -- intros i c d Hc Hd. by apply (Hadj (S i)).
        -- intros _ c Hc. apply (Hadj 0 x c); [done| |done].
           by destruct s.
    + rewrite IH. split.
      * intros (Hall & Hadj & _). split; [|split].
        -- intros c [->|Hc]%elem_of_cons ?; [congruence|by apply Hall].
        -- intros [|i] c d Hc Hd Hws; simpl in *; [congruence|].
           exact (Hadj i c d Hc Hd Hws).
        -- intros _ c [= <-]. done.
      * intros (Hall & Hadj & Hhead). split; [|split].
        -- intros c Hc. apply Hall. by right.
        -- intros i c d Hc Hd. by apply (Hadj (S i)).
        -- done.
Qed.

Lemma ends_with_space_spec (s : str) :
  ends_with_space s = false <->
  forall c, last s = Some c -> isspace c = false.
Proof.
  induction s as [|x s IH]; [done|].
  destruct s as [|y s].
  - simpl. split; [by intros ? c [= <-]|by intros H; apply H].
  - change (ends_with_space (x :: y :: s)) with (ends_with_space (y :: s)).
    by rewrite IH.
Qed.

Lemma tidy_spec (s : str) :
  tidy s <-> single_spaced true s = true /\ ends_with_space s = false.
Proof.
  unfold tidy. rewrite single_spaced_spec, ends_with_space_spec.
  intuition.
Qed.

Lemma single_spaced_weaken (b : bool) (s : str) :
  single_spaced true s = true -> single_spaced b s = true.
Proof.
  destruct b; [done|]. destruct s as [|c s]; [done|]. simpl.
  destruct (isspace c); [|done]. by rewrite andb_false_r.
Qed.

(** *** [re.sub(r'\s+', ' ', text)] *)

Lemma collapse_single_spaced (b : bool) (s : str) :
  single_spaced b (collapse_whitespace b s) = true.
Proof.
  revert b. induction s as [|c s IH]; intros b; [done|]. simpl.
  destruct (isspace c) eqn:Hc.
  - destruct b; [apply IH|]. simpl. apply IH.
  - simpl. rewrite Hc. apply IH.
Qed.

Lemma collapse_fixed (b : bool) (s : str) :
  single_spaced b s = true -> collapse_whitespace b s = s.
Proof.
  revert b. induction s as [|c s IH]; intros b; [done|]. simpl.
  destruct (isspace c) eqn:Hc.
  - rewrite !andb_true_iff, N.eqb_eq, negb_true_iff.
    intros [[-> ->] Hs]. f_equal. by apply IH.
  - intros Hs. f_equal. by apply IH.
Qed.

Lemma collapse_length (b : bool) (s : str) :
  length (collapse_whitespace b s) <= length s.
Proof.
  revert b. induction s as [|c s IH]; intros b; [done|]. simpl.
  pose proof (IH true). pose proof (IH false).
  destruct (isspace c); [destruct b|]; simpl; lia.
Qed.

(** The characters that are not whitespace, in order. *)
Definition letters (s : str) : str :=
  List.filter (fun c => negb (isspace c)) s.

Lemma collapse_letters (b : bool) (s : str) :
  letters (collapse_whitespace b s) = letters s.
Proof.
  revert b. induction s as [|c s IH]; intros b; [done|]. simpl.
  destruct (isspace c) eqn:Hc; simpl.
  - destruct b; [apply IH|]. simpl. apply IH.
  - rewrite Hc. simpl. f_equal. apply IH.
Qed.

(** *** [strip] *)

Lemma lstrip_nil (s : str) :
  lstrip s = [] <-> forallb isspace s = true.
Proof.
  induction s as [|c s IH]; [done|]. simpl.
  destruct (isspace c); [done|]. split; [done|]. by intros ?.
Qed.

Lemma lstrip_app_space (s1 s2 : str) :
  forallb isspace s1 = true -> lstrip (s1 ++ s2) = lstrip s2.
Proof.
  induction s1 as [|c s1 IH]; [done|]. simpl.
  destruct (isspace c); [|done]. apply IH.
Qed.

Lemma lstrip_app_kept (s1 s2 : str) :
  lstrip s1 <> [] -> lstrip (s1 ++ s2) = lstrip s1 ++ s2.
Proof.
  induction s1 as [|c s1 IH]; [done|]. simpl.
  destruct (isspace c); [apply IH|done].
Qed.

Lemma rstrip_cons (c : N) (s : str) :
  rstrip (c :: s) =
    if isspace c && bool_decide (rstrip s = []) then [] else c :: rstrip s.
Proof.
  unfold rstrip. simpl.
  destruct (decide (lstrip (rev s) = [])) as [Hnil|Hkept].
  - rewrite lstrip_app_space by (by apply lstrip_nil).
    rewrite Hnil. simpl. by destruct (isspace c).
  - rewrite lstrip_app_kept by done. rewrite rev_app_distr. simpl.
    rewrite bool_decide_eq_false_2; [by rewrite andb_false_r|].
    intros Hrev. apply Hkept. apply (f_equal (@rev N)) in Hrev.
    by rewrite rev_involutive in Hrev.
Qed.

Lemma lstrip_single_spaced (b : bool) (s : str) :
  single_spaced b s = true -> single_spaced true (lstrip s) = true.
Proof.
  revert b. induction s as [|c s IH]; intros b; [done|]. simpl.
  destruct (isspace c) eqn:Hc.
  - rewrite !andb_true_iff. intros [_ Hs]. by eapply IH.
  - simpl. by rewrite Hc.
Qed.

Lemma rstrip_single_spaced (b : bool) (s : str) :
  single_spaced b s = true -> single_spaced b (rstrip s) = true.
Proof.
  revert b. induction s as [|c s IH]; intros b; [done|].
  rewrite rstrip_cons. simpl. destruct (isspace c) eqn:Hc; simpl.
  - rewrite !andb_true_iff. intros [Hc32 Hs].
    case_bool_decide; [done|]. simpl. rewrite Hc.
    rewrite !andb_true_iff. split; [done|]. by apply IH.
  - intros Hs. rewrite Hc. by apply IH.
Qed.

Lemma rstrip_ends (s : str) : ends_with_space (rstrip s) = false.
Proof.
  induction s as [|c s IH]; [done|]. rewrite rstrip_cons.
  destruct (isspace c) eqn:Hc; simpl.
  - case_bool_decide as Hnil; [done|]. simpl.
    destruct (rstrip s); [done|exact IH].
  - destruct (rstrip s); [exact Hc|exact IH].
Qed.

Lemma lstrip_fixed (s : str) :
  single_spaced true s = true -> lstrip s = s.
Proof.
  destruct s as [|c s]; [done|]. simpl. destruct (isspace c); [|done].
  by rewrite andb_false_r.
Qed.

Lemma rstrip_fixed (s : str) : ends_with_space s = false -> rstrip s = s.
Proof.
  induction s as [|c s IH]; [done|]. rewrite rstrip_cons.
  destruct s as [|d s].
  - simpl. by intros ->.
  - change (ends_with_space (c :: d :: s)) with (ends_with_space (d :: s)).
    intros Hs. rewrite IH by done.
    rewrite bool_decide_eq_false_2 by done. by rewrite andb_false_r.
Qed.

Lemma lstrip_letters (s : str) : letters (lstrip s) = letters s.
Proof.
  induction s as [|c s IH]; [done|]. simpl.
  destruct (isspace c) eqn:Hc; simpl; [done|]. by rewrite Hc.
Qed.

Lemma rstrip_letters (s : str) : letters (rstrip s) = letters s.
Proof.
  induction s as [|c s IH]; [done|]. rewrite rstrip_cons.
  destruct (isspace c) eqn:Hc; simpl.
  - case_bool_decide as Hnil; simpl; rewrite Hc; simpl; [|done].
    by rewrite <- IH, Hnil.
  - rewrite Hc. simpl. by rewrite IH.
Qed.

Lemma strip_length (s : str) : length (strip s) <= length s.
Proof.
  unfold strip. destruct (rstrip_take (lstrip s)) as [k ->].
  destruct (lstrip_drop s) as [j ->].
  rewrite length_take, length_drop. lia.
Qed.

(** *** [clean_text] *)

Lemma clean_text_eq (text : str) :
  clean_text text = strip (collapse_whitespace false text).
Proof. by destruct text. Qed.

Lemma clean_text_is_tidy (text : str) : tidy (clean_text text).
Proof.
  rewrite clean_text_eq. apply tidy_spec. unfold strip. split.
  - apply rstrip_single_spaced. eapply lstrip_single_spaced.
    apply collapse_single_spaced.
  - apply rstrip_ends.
Qed.

Lemma clean_text_of_tidy (text : str) : tidy text -> clean_text text = text.
Proof.
  intros [Hs He]%tidy_spec. rewrite clean_text_eq.
  rewrite collapse_fixed by (by apply single_spaced_weaken).
  unfold strip. rewrite lstrip_fixed by done. by apply rstrip_fixed.
Qed.

End CleanText.

Section PreprocessingFacts.

Import TextPreprocessor.

Variable lower : str -> str.
Variable sub_emails : str -> str.

(** X20.  [clean_text] returns a text whose only whitespace characters are
    single spaces between two other characters; the characters that are not
    whitespace are those of the input, in the same order, and the result is
    not longer than the input. *)
Theorem clean_text_normal_form (text : str) :
  tidy (clean_text text) /\
  List.filter (fun c => negb (isspace c)) (clean_text text)
    = List.filter (fun c => negb (isspace c)) text /\
  length (clean_text text) <= length text.
Proof.
  split; [apply clean_text_is_tidy|]. rewrite clean_text_eq. split.
  - unfold strip. fold (letters (rstrip (lstrip (collapse_whitespace false text)))).
    rewrite rstrip_letters, lstrip_letters. apply collapse_letters.
  - etrans; [apply strip_length|apply collapse_length].
Qed.

(** X21.  [clean_text] leaves unchanged a text that is already in that
    form, and so applying it twice is applying it once. *)
Theorem clean_text_idempotent (text : str) :
  (tidy text -> clean_text text = text) /\
  clean_text (clean_text text) = clean_text text.
Proof.
  split; [apply clean_text_of_tidy|].
  apply clean_text_of_tidy, clean_text_is_tidy.
Qed.

Lemma tidy_nil : tidy [].
Proof. by apply tidy_spec. Qed.

Lemma remove_urls_tidy (text : str) : tidy (remove_urls text).
Proof.
  destruct text; [apply tidy_nil|apply clean_text_is_tidy].
Qed.

Lemma remove_emails_tidy (text : str) : tidy (remove_emails sub_emails text).
Proof.
  destruct text; [apply tidy_nil|apply clean_text_is_tidy].
Qed.

Lemma normalize_text_tidy (text : str) (remove_punctuation : bool) :
  tidy (normalize_text lower text remove_punctuation).
Proof.
  destruct text; [apply tidy_nil|apply clean_text_is_tidy].
Qed.

Lemma preprocess_tidy (text : str) (u e n p : bool) :
  tidy (preprocess_for_similarity lower sub_emails text u e n p).
Proof.
  unfold preprocess_for_similarity. destruct text as [|c text];
    [apply tidy_nil|].
  destruct n; [apply normalize_text_tidy|].
  destruct e; [apply remove_emails_tidy|].
  destruct u; [apply remove_urls_tidy|apply clean_text_is_tidy].
Qed.

(** X22.  Whatever the flags, the lowercase mapping and the substitution of
    emails, [preprocess_for_similarity] returns a text whose only
    whitespace characters are single spaces between two other characters;
    [preprocess_texts] returns one such text for each text it is given. *)
Theorem preprocess_for_similarity_tidy (text : str) (texts : list str)
    (with_urls_removed with_emails_removed normalized remove_punctuation
       : bool) :
  tidy (preprocess_for_similarity lower sub_emails text with_urls_removed
          with_emails_removed normalized remove_punctuation) /\
  length (preprocess_texts lower sub_emails texts with_urls_removed
            with_emails_removed normalized remove_punctuation)
    = length texts /\
  Forall tidy
    (preprocess_texts lower sub_emails texts with_urls_removed
       with_emails_removed normalized remove_punctuation).
Proof.
  split; [apply preprocess_tidy|]. unfold preprocess_texts.
  split; [apply length_map|].
  apply Forall_forall. intros t Ht. apply list_elem_of_In in Ht.
  apply in_map_iff in Ht as (t0 & <- & _). apply preprocess_tidy.
Qed.

(** A character of the cleaned text is a character of the text or a
    space. *)
Lemma elem_of_clean_text (text : str) (c : N) :
  c ∈ clean_text text -> c ∈ text \/ c = 32%N.
Proof.
  intros Hc. destruct (isspace c) eqn:Hws.
  - right. by apply (proj1 (clean_text_is_tidy text)).
  - left. assert (c ∈ letters (clean_text text)) as Hin.
    { apply list_elem_of_In, filter_In. split; [by apply list_elem_of_In|].
      by rewrite Hws. }
    rewrite clean_text_eq in Hin. unfold strip in Hin.
    rewrite rstrip_letters, lstrip_letters, collapse_letters in Hin.
    apply list_elem_of_In, filter_In in Hin as [Hin _].
    by apply list_elem_of_In.
Qed.

(** X23.  With [remove_punctuation], [normalize_text] returns a text that
    holds no character of [string.punctuation]. *)
Theorem normalize_text_no_punctuation (text : str) (c : N) :
  c ∈ normalize_text lower text true -> c ∉ punctuation.
Proof.
  unfold normalize_text. destruct text as [|x text];
    [by intros ?%elem_of_nil|].
  intros [Hc| ->]%elem_of_clean_text.
  - unfold delete_chars in Hc. apply list_elem_of_In, filter_In in Hc.
    destruct Hc as [_ Hc]. apply negb_true_iff in Hc.
    by apply bool_decide_eq_false in Hc.
  - unfold punctuation. rewrite !not_elem_of_cons.
    repeat split; try discriminate. apply not_elem_of_nil.
Qed.

Lemma alnum_not_space (c : N) : alnum c = true -> isspace c = false.
Proof.
  unfold alnum, isspace. intros Hc. apply not_true_is_false. intros Hws.
  rewrite !orb_true_iff, !andb_true_iff, !N.leb_le in Hc.
  rewrite !orb_true_iff, !andb_true_iff, !N.leb_le, !N.eqb_eq in Hws.
  lia.
Qed.

(** X24.  [remove_special_characters] returns a text made of ASCII letters
    and digits and, when spaces are kept, of single spaces between them;
    when spaces are not kept it returns the letters and digits of the text
    in their order. *)
Theorem remove_special_characters_alnum (text : str) (keep_spaces : bool) :
  tidy (remove_special_characters text keep_spaces) /\
  (forall c, c ∈ remove_special_characters text keep_spaces ->
     alnum c = true \/ (keep_spaces = true /\ c = 32%N)) /\
  remove_special_characters text false = List.filter alnum text.
Proof.
  assert (Hfalse :
    remove_special_characters text false = List.filter alnum text).
  { unfold remove_special_characters. destruct text as [|x text]; [done|].
    apply clean_text_of_tidy, tidy_spec.
    generalize (x :: text). intros s. split.
    - assert (forall b, single_spaced b (List.filter alnum s) = true) as H;
        [|apply H].
      induction s as [|c s IH]; intros b; [done|]. simpl.
      destruct (alnum c) eqn:Hc; [|apply IH]. simpl.
      rewrite (alnum_not_space c Hc). apply IH.
    - induction s as [|c s IH]; [done|]. simpl.
      destruct (alnum c) eqn:Hc; [|apply IH].
      destruct (List.filter alnum s) eqn:Hs; [|exact IH].
      simpl. by apply alnum_not_space. }
  split; [|split; [|exact Hfalse]].
  - unfold remove_special_characters.
    destruct text; [apply tidy_nil|apply clean_text_is_tidy].
  - intros c. destruct keep_spaces.
    + unfold remove_special_characters. destruct text as [|x text];
        [by intros ?%elem_of_nil|].
      intros Hin. destruct (isspace c) eqn:Hws.
      * right. split; [done|].
        by apply (proj1 (clean_text_is_tidy
          (List.filter (fun c => alnum c || isspace c) (x :: text)))).
      * left. apply elem_of_clean_text in Hin as [Hc| ->]; [|done].
        apply list_elem_of_In, filter_In in Hc as [_ Hc].
        by rewrite Hws, orb_false_r in Hc.
    + rewrite Hfalse. intros Hc. left.
      by apply list_elem_of_In, filter_In in Hc as [_ Hc].
Qed.

End PreprocessingFacts.

Lemma normalize_text_no_punctuation_witness :
  (97%N ∈ TextPreprocessor.normalize_text (fun s => s) (py "a, b!") true) /\
  (97%N ∉ TextPreprocessor.punctuation).
Proof.
  assert (97%N ∈ TextPreprocessor.normalize_text (fun s => s) (py "a, b!")
                   true) as Hin.
  { vm_compute. by left. }
  split; [exact Hin|].
  exact (normalize_text_no_punctuation (fun s => s) (py "a, b!") 97%N Hin).
Defined.

(** ** [remove_urls] *)

Section RemoveUrls.

Import TextPreprocessor.

(** [w] occurs in [s]. *)
Definition occurs (w s : str) : Prop := exists pre rest, s = pre ++ w ++ rest.

Lemma starts_with_spec (p s : str) :
  starts_with p s = true <-> exists rest, s = p ++ rest.
Proof.
  revert s. induction p as [|x p IH]; intros s; simpl.
  - split; [by exists s|done].
  - destruct s as [|c s]; [split; [done|by intros [? ?]]|].
    rewrite andb_true_iff, N.eqb_eq, IH. split.
    + intros [-> [rest ->]]. by exists rest.
    + intros [rest [= -> ->]]. split; [done|by exists rest].
Qed.

Lemma run_length_app (f : N -> bool) (p s : str) :
  forallb f p = true ->
  run_length f (p ++ s) = length p + run_length f s.
Proof.
  induction p as [|x p IH]; [done|]. simpl.
  intros [-> Hp]%andb_true_iff. by rewrite IH.
Qed.

Lemma url_match_Some (s : str) (n : nat) :
  url_match s = Some n ->
  n = run_length url_char s /\
  exists h x rest,
    (h = py "https://" \/ h = py "http://") /\ s = h ++ x :: rest /\
    url_char x = true.
Proof.
  unfold url_match.
  destruct (starts_with (py "https://") s) eqn:Hs.
  - apply starts_with_spec in Hs as [rest ->].
    rewrite drop_app_length' by done.
    rewrite (run_length_app url_char (py "https://")) by done.
    destruct rest as [|x rest]; [done|]. simpl run_length at 1.
    destruct (url_char x) eqn:Hx; [|done]. intros [= <-].
    split; [simpl; rewrite Hx; lia|]. exists (py "https://"), x, rest. by split; [left|].
  - destruct (starts_with (py "http://") s) eqn:Hs'; [|done].
    apply starts_with_spec in Hs' as [rest ->].
    rewrite drop_app_length' by done.
    rewrite (run_length_app url_char (py "http://")) by done.
    destruct rest as [|x rest]; [done|]. simpl run_length at 1.
    destruct (url_char x) eqn:Hx; [|done]. intros [= <-].
    split; [simpl; rewrite Hx; lia|]. exists (py "http://"), x, rest. by split; [right|].
Qed.

Lemma url_match_here (h : str) (x : N) (rest : str) :
  h = py "https://" \/ h = py "http://" -> url_char x = true ->
  is_Some (url_match (h ++ x :: rest)).
Proof.
  intros [-> | ->] Hx; unfold url_match; simpl; rewrite Hx; by eexists.
Qed.

Lemma url_match_first (s : str) (n : nat) :
  url_match s = Some n ->
  exists c s' k, s = c :: s' /\ url_char c = true /\ n = S k /\
    k = run_length url_char s'.
Proof.
  intros Hm. destruct (url_match_Some s n Hm) as (-> & h & x & rest & Hh & -> & Hx).
  destruct Hh as [-> | ->]; simpl; do 3 eexists; done.
Qed.

Lemma url_match_not_url_char (c : N) (s : str) :
  url_char c = false -> url_match (c :: s) = None.
Proof.
  intros Hc. destruct (url_match (c :: s)) as [n|] eqn:Hm; [|done].
  apply url_match_first in Hm as (c' & s' & k & [= <- <-] & Hc' & _).
  congruence.
Qed.

Lemma sub_urls_step (c : N) (s : str) :
  sub_urls 0 (c :: s) =
    match url_match (c :: s) with
    | Some _ => sub_urls (run_length url_char s) s
    | None => c :: sub_urls 0 s
    end.
Proof.
  simpl sub_urls. destruct (url_match (c :: s)) as [n|] eqn:Hm; [|done].
  apply url_match_first in Hm as (c' & s' & k & [= <- <-] & _ & -> & ->).
  done.
Qed.

(** After a match is dropped the output goes on with a character that
    cannot stand in a URL, or ends. *)
Lemma sub_urls_after_run (s : str) :
  sub_urls (run_length url_char s) s = [] \/
  exists d t, sub_urls (run_length url_char s) s = d :: t /\
              url_char d = false.
Proof.
  induction s as [|c s IH]; [by left|]. simpl run_length.
  destruct (url_char c) eqn:Hc; [exact IH|].
  right. rewrite sub_urls_step, url_match_not_url_char by done.
  by eexists _, _.
Qed.

(** A word of URL characters at the start of the output stands at the start
    of the input. *)
Lemma sub_urls_prefix (s w : str) :
  forallb url_char w = true -> w `prefix_of` sub_urls 0 s -> w `prefix_of` s.
Proof.
  revert w. induction s as [|c s IH]; intros w Hw; [done|].
  rewrite sub_urls_step. destruct w as [|x w]; [intros _; apply prefix_nil|].
  simpl in Hw. apply andb_true_iff in Hw as [Hx Hw].
  destruct (url_match (c :: s)) as [n|].
  - destruct (sub_urls_after_run s) as [-> |(d & t & -> & Hd)].
    + by intros ?%prefix_nil_not.
    + intros Hpre. apply prefix_cons_inv_1 in Hpre. congruence.
  - intros Hpre. pose proof (prefix_cons_inv_1 _ _ _ _ Hpre) as ->.
    apply prefix_cons. apply IH; [done|]. by eapply prefix_cons_inv_2.
Qed.

Lemma url_word_chars (h : str) (x : N) :
  h = py "https://" \/ h = py "http://" -> url_char x = true ->
  forallb url_char (h ++ [x]) = true.
Proof. intros [-> | ->] Hx; simpl; by rewrite Hx. Qed.

Lemma sub_urls_no_match (skip : nat) (s pre suf : str) :
  sub_urls skip s = pre ++ suf -> url_match suf = None.
Proof.
  revert skip pre. induction s as [|c s IH]; intros skip pre.
  - simpl. intros Hnil. symmetry in Hnil.
    apply app_eq_nil in Hnil as [_ ->]. done.
  - destruct skip as [|k]; [|simpl; apply IH].
    rewrite sub_urls_step. destruct (url_match (c :: s)) as [n|] eqn:Hm;
      [apply IH|].
    destruct pre as [|p pre]; [|intros [= _ Hs]; by eapply IH].
    simpl. intros <-.
    destruct (url_match (c :: sub_urls 0 s)) as [n|] eqn:Hout; [|done].
    exfalso. apply url_match_Some in Hout as (_ & h & x & rest & Hh & Hs & Hx).
    assert ((h ++ [x]) `prefix_of` (c :: s)) as [rest' Hin].
    { apply sub_urls_prefix; [by apply url_word_chars|].
      rewrite sub_urls_step, Hm, Hs. exists rest. by rewrite <- app_assoc. }
    rewrite Hin, <- app_assoc in Hm. simpl in Hm.
    destruct (url_match_here h x rest' Hh Hx) as [n' Hn']. congruence.
Qed.

(** A text that holds no match is left as it is. *)
Lemma sub_urls_unchanged (s : str) :
  (forall pre suf, s = pre ++ suf -> url_match suf = None) ->
  sub_urls 0 s = s.
Proof.
  induction s as [|c s IH]; intros Hfree; [done|].
  rewrite sub_urls_step, (Hfree [] (c :: s)) by done. f_equal.
  apply IH. intros pre suf ->. by apply (Hfree (c :: pre)).
Qed.

(** *** Cleaning does not bring a URL about *)

Lemma collapse_prefix (s w : str) :
  forallb (fun c => negb (isspace c)) w = true ->
  w `prefix_of` collapse_whitespace false s -> w `prefix_of` s.
Proof.
  revert w. induction s as [|c s IH]; intros w Hw; [done|].
  destruct w as [|x w]; [intros _; apply prefix_nil|].
  simpl in Hw. apply andb_true_iff in Hw as [Hx Hw].
  simpl. destruct (isspace c) eqn:Hc.
  - intros Hpre. apply prefix_cons_inv_1 in Hpre. by subst.
  - intros Hpre. pose proof (prefix_cons_inv_1 _ _ _ _ Hpre) as ->.
    apply prefix_cons. apply IH; [done|]. by eapply prefix_cons_inv_2.
Qed.

Lemma collapse_occurs (b : bool) (s w : str) (x : N) :
  forallb (fun c => negb (isspace c)) (x :: w) = true ->
  occurs (x :: w) (collapse_whitespace b s) -> occurs (x :: w) s.
Proof.
  intros Hw. revert b. induction s as [|c s IH]; intros b.
  - simpl. intros (pre & rest & Hnil). by destruct pre.
  - assert (forall b', occurs (x :: w) (collapse_whitespace b' s) ->
                       occurs (x :: w) (c :: s)) as Hlater.
    { intros b' Hocc. destruct (IH b' Hocc) as (pre & rest & ->).
      by exists (c :: pre), rest. }
    simpl. destruct (isspace c) eqn:Hc.
    + destruct b; [apply Hlater|].
      intros (pre & rest & Heq). destruct pre as [|p pre].
      * simpl in Heq. injection Heq as <- _. by simpl in Hw.
      * injection Heq as _ Heq. apply (Hlater true). by exists pre, rest.
    + intros (pre & rest & Heq). destruct pre as [|p pre].
      * assert ((x :: w) `prefix_of` (c :: s)) as [rest' ->].
        { apply collapse_prefix; [done|]. simpl. rewrite Hc.
          exists rest. exact Heq. }
        by exists [], rest'.
      * injection Heq as _ Heq. apply (Hlater false). by exists pre, rest.
Qed.

Lemma strip_occurs (s w : str) : occurs w (strip s) -> occurs w s.
Proof.
  unfold strip. destruct (rstrip_take (lstrip s)) as [k ->].
  destruct (lstrip_drop s) as [j ->].
  intros (pre & rest & Heq).
  exists (take j s ++ pre), (rest ++ drop k (drop j s)).
  rewrite <- (take_drop j s) at 1. rewrite <- (take_drop k (drop j s)) at 1.
  rewrite Heq. by rewrite <- !app_assoc.
Qed.

Lemma url_char_not_space (c : N) : url_char c = true -> isspace c = false.
Proof.
  unfold url_char, isspace. intros Hc. apply not_true_is_false. intros Hws.
  rewrite !orb_true_iff, !andb_true_iff, !N.leb_le, ?N.eqb_eq in Hc.
  rewrite !orb_true_iff, !andb_true_iff, !N.leb_le, !N.eqb_eq in Hws.
  lia.
Qed.

(** X25.  In the text [remove_urls] returns, the pattern of URLs matches at
    no position; a text in which it matches at no position is only
    cleaned. *)
Theorem remove_urls_no_url (text : str) :
  (forall pre suf, remove_urls text = pre ++ suf -> url_match suf = None) /\
  ((forall pre suf, text = pre ++ suf -> url_match suf = None) ->
   remove_urls text = clean_text text).
Proof.
  split.
  - intros pre suf Heq.
    destruct (url_match suf) as [n|] eqn:Hm; [|done]. exfalso.
    apply url_match_Some in Hm as (_ & h & x & rest & Hh & -> & Hx).
    destruct text as [|c text]; [by destruct pre, h|].
    unfold remove_urls in Heq. rewrite clean_text_eq in Heq.
    assert (exists y w, h ++ [x] = y :: w) as (y & w & Hword)
      by (destruct Hh as [-> | ->]; by eexists _, _).
    assert (occurs (y :: w) (sub_urls 0 (c :: text)))
      as (pre' & rest' & Hocc).
    { apply (collapse_occurs false).
      - rewrite <- Hword. pose proof (url_word_chars h x Hh Hx) as Hall.
        rewrite forallb_forall in Hall. apply forallb_forall.
        intros z Hz. by rewrite url_char_not_space by (by apply Hall).
      - apply strip_occurs. rewrite Heq, <- Hword. exists pre, rest.
        by rewrite <- app_assoc. }
    destruct (url_match_here h x rest' Hh Hx) as [n' Hn'].
    rewrite (sub_urls_no_match 0 (c :: text) pre' (h ++ x :: rest')) in Hn';
      [done|].
    rewrite Hocc, <- Hword, <- app_assoc. done.
  - intros Hfree. unfold remove_urls. destruct text as [|c text]; [done|].
    by rewrite sub_urls_unchanged.
Qed.

End RemoveUrls.

Example remove_urls_example :
  TextPreprocessor.remove_urls
    (py "see http://example.com/a?b=1 and https://x.org/%7Euser now")
    = py "see and now".
Proof. vm_compute; reflexivity. Qed.

(** ** [get_text_similarity_report] *)

Section Report.

Import SimilarityService DetectionService.

Variable Model : Type.
Variable SentenceTransformer : str -> bool -> str + Model.
Variable encode : Model -> list str -> str + ndarray.
Variable np_dot : list float64 -> list float64 -> float64.
Variable time_time : nat -> float64.
Context `{!Reductions}.

(** X26.  A report that [get_text_similarity_report] returns is that of one
    analysis of the two texts at threshold [0.0]: its score is the entry
    [(0, 1)] of the matrix, its two flags compare that score with [0.85]
    and [0.7], so that a pair reported highly similar is also reported
    moderately similar, and its previews are those of the two texts. *)
Theorem get_text_similarity_report_consistent (text1 text2 model_key : str)
    (w w1 : World Model) (r : report) :
  get_text_similarity_report Model SentenceTransformer encode np_dot
      time_time text1 text2 model_key w = (Ok r, w1) ->
  (exists m pairs meta,
     analyze_texts Model SentenceTransformer encode np_dot time_time
         [text1; text2] model_key zero w = (Ok (m, pairs, meta), w1) /\
     getitem m 0 1 = Ok (similarity_score r) /\
     analysis_time r = execution_time meta) /\
  is_highly_similar r = fge (similarity_score r) f0_85 /\
  is_moderately_similar r = fge (similarity_score r) f0_7 /\
  (is_highly_similar r = true -> is_moderately_similar r = true) /\
  text1_preview r = _create_text_preview text1 100 /\
  text2_preview r = _create_text_preview text2 100 /\
  report_model_used r = model_key.
Proof.
  unfold get_text_similarity_report, mbind at 1, M_bind, bindM.
  destruct (analyze_texts _ _ _ _ _ [text1; text2] model_key zero w)
    as [[[[m pairs] meta]|e] w2]; [|done].
  unfold mbind, M_bind, bindM, liftM, retM.
  destruct (getitem m 0 1) as [s|e] eqn:Hs; [|done].
  intros [= <- <-]. simpl. split; [by exists m, pairs, meta|].
  split; [done|]. split; [done|]. split; [|done].
  unfold fge. intros Hhigh. eapply fle_trans; [|exact Hhigh]. reflexivity.
Qed.

End Report.

Lemma get_text_similarity_report_consistent_witness :
  exists r w1,
    DetectionService.get_text_similarity_report unit unit_transformer
        unit_encode dot1 still_clock (py "same") (py "same") (py "miniLM")
        fresh_world = (Ok r, w1) /\
    ((exists m pairs meta,
        DetectionService.analyze_texts unit unit_transformer unit_encode
            dot1 still_clock [py "same"; py "same"] (py "miniLM") zero
            fresh_world = (Ok (m, pairs, meta), w1) /\
        getitem m 0 1 = Ok (DetectionService.similarity_score r) /\
        DetectionService.analysis_time r
          = DetectionService.execution_time meta) /\
     DetectionService.is_highly_similar r
       = fge (DetectionService.similarity_score r) f0_85 /\
     DetectionService.is_moderately_similar r
       = fge (DetectionService.similarity_score r) f0_7 /\
     (DetectionService.is_highly_similar r = true ->
      DetectionService.is_moderately_similar r = true) /\
     DetectionService.text1_preview r
       = DetectionService._create_text_preview (py "same") 100 /\
     DetectionService.text2_preview r
       = DetectionService._create_text_preview (py "same") 100 /\
     DetectionService.report_model_used r = py "miniLM").
Proof.
  do 2 eexists.
  assert (Hrun :
    DetectionService.get_text_similarity_report unit unit_transformer
        unit_encode dot1 still_clock (py "same") (py "same") (py "miniLM")
        fresh_world
    = (Ok {| DetectionService.similarity_score := one;
             DetectionService.is_highly_similar := true;
             DetectionService.is_moderately_similar := true;
             DetectionService.text1_preview := py "same";
             DetectionService.text2_preview := py "same";
             DetectionService.report_model_used := py "miniLM";
             DetectionService.analysis_time := zero |},
       {| _models := <[py "miniLM" := tt]> ∅; clock := 2;
          calls := [load_call (py "miniLM");
                    EncodeCall [py "same"; py "same"]] |}))
    by reflexivity.
  split; [exact Hrun|].
  exact (get_text_similarity_report_consistent unit unit_transformer
           unit_encode dot1 still_clock (py "same") (py "same") (py "miniLM")
           fresh_world _ _ Hrun).
Defined.

(** ** [get_text_stats] *)

Section TextStats.

Import TextPreprocessor.

Lemma letters_nil (s : str) : letters s = [] <-> forallb isspace s = true.
Proof.
  induction s as [|c s IH]; [done|]. unfold letters in *. simpl.
  destruct (isspace c); simpl; [done|]. split; discriminate.
Qed.

Lemma strip_nil (s : str) : strip s = [] <-> forallb isspace s = true.
Proof.
  split.
  - intros Hs. apply letters_nil.
    rewrite <- (lstrip_letters s), <- (rstrip_letters (lstrip s)).
    fold (strip s). by rewrite Hs.
  - intros Hs. unfold strip. apply lstrip_nil in Hs. by rewrite Hs.
Qed.

Lemma blank_spec (s : str) :
  forallb isspace s = true <-> forall c, c ∈ s -> isspace c = true.
Proof.
  rewrite forallb_forall. split; intros H c Hc; apply H;
    by apply list_elem_of_In.
Qed.

Lemma not_blank_spec (s : str) :
  forallb isspace s = false <-> exists c, c ∈ s /\ isspace c = false.
Proof.
  induction s as [|c s IH]; simpl.
  - split; [done|]. by intros (c & Hc%elem_of_nil & _).
  - destruct (isspace c) eqn:Hc; simpl.
    + rewrite IH. split.
      * intros (d & Hd & Hws). exists d. split; [by right|done].
      * intros (d & [->|Hd]%elem_of_cons & Hws); [congruence|by exists d].
    + split; [|done]. intros _. exists c. split; [by left|done].
Qed.

(** *** The pieces counted *)

Lemma count_not_blank_zero (pieces : list str) :
  Forall (fun p => forallb isspace p = true) pieces ->
  count_not_blank pieces = 0.
Proof.
  unfold count_not_blank. induction 1 as [|p pieces Hp _ IH]; [done|].
  simpl. apply strip_nil in Hp. by rewrite bool_decide_eq_true_2.
Qed.

Lemma count_not_blank_pos (pieces : list str) (p : str) (c : N) :
  p ∈ pieces -> c ∈ p -> isspace c = false -> 1 <= count_not_blank pieces.
Proof.
  intros Hp Hc Hws. unfold count_not_blank.
  assert (p ∈ List.filter (fun s => negb (bool_decide (strip s = [])))
                pieces) as Hin.
  { apply list_elem_of_In, filter_In. split; [by apply list_elem_of_In|].
    apply negb_true_iff, bool_decide_eq_false. intros Hs%strip_nil.
    rewrite (proj1 (blank_spec p) Hs c Hc) in Hws. discriminate. }
  destruct (List.filter _ pieces); [by apply elem_of_nil in Hin|simpl; lia].
Qed.

(** *** [split_whitespace] *)

Lemma split_whitespace_nil (word text : str) :
  split_whitespace word text = [] <->
  word = [] /\ forallb isspace text = true.
Proof.
  revert word. induction text as [|c text IH]; intros word; simpl.
  - destruct word; split; try done. by intros [? _].
  - destruct (isspace c); simpl.
    + destruct word; [apply IH|]. split; [done|]. by intros [? _].
    + rewrite IH. split; [|by intros [_ ?]].
      intros [Hw _]. by destruct word.
Qed.

Lemma split_whitespace_length (word text : str) :
  length (split_whitespace word text)
  <= (match word with [] => 0 | _ => 1 end) + length text.
Proof.
  revert word. induction text as [|c text IH]; intros word; simpl.
  - destruct word; simpl; lia.
  - destruct (isspace c).
    + destruct word; simpl; specialize (IH []); simpl in IH; lia.
    + specialize (IH (word ++ [c])).
      destruct (word ++ [c]) eqn:Hw; [by destruct word|].
      destruct word; lia.
Qed.

(** *** [split_sentences] *)

Lemma split_sentences_elem (b : bool) (piece text p : str) (c : N) :
  p ∈ split_sentences b piece text -> c ∈ p -> c ∈ piece ++ text.
Proof.
  revert b piece. induction text as [|x text IH]; intros b piece; simpl.
  - intros ->%list_elem_of_singleton. by rewrite app_nil_r.
  - rewrite elem_of_app, elem_of_cons. destruct (sentence_end x).
    + destruct b.
      * intros Hp Hc.
        pose proof (IH _ _ Hp Hc) as [?|?]%elem_of_app; auto.
      * intros [->|Hp]%elem_of_cons Hc; [auto|].
        pose proof (IH _ _ Hp Hc) as [[]%elem_of_nil|?]%elem_of_app; auto.
    + intros Hp Hc. specialize (IH _ _ Hp Hc).
      rewrite !elem_of_app, list_elem_of_singleton in IH. tauto.
Qed.

Lemma split_sentences_keeps (b : bool) (piece text : str) (c : N) :
  c ∈ piece ++ text -> sentence_end c = false ->
  exists p, p ∈ split_sentences b piece text /\ c ∈ p.
Proof.
  revert b piece. induction text as [|x text IH]; intros b piece Hc He; simpl.
  - rewrite app_nil_r in Hc. exists piece. split; [by left|done].
  - destruct (sentence_end x) eqn:Hx.
    + assert (c <> x) as Hne by congruence.
      rewrite elem_of_app, elem_of_cons in Hc.
      destruct b.
      * apply IH; [|done]. apply elem_of_app. tauto.
      * destruct Hc as [Hc|[?|Hc]]; [|done|].
        -- exists piece. split; [by left|done].
        -- destruct (IH true []) as (p & Hp & Hin); [done|done|].
           exists p. split; [by right|done].
    + apply IH; [|done]. by rewrite <- app_assoc.
Qed.

(** *** [split_paragraphs] *)

Lemma split_paragraphs_elem (h : bool) (piece text p : str) (c : N) :
  p ∈ split_paragraphs h piece text -> c ∈ p ->
  c ∈ piece ++ text \/ c = 10%N.
Proof.
  revert h piece. induction text as [|x text IH]; intros h piece; simpl.
  - rewrite app_nil_r.
    destruct h; intros ->%list_elem_of_singleton; [|by left].
    rewrite elem_of_app, list_elem_of_singleton. tauto.
  - rewrite elem_of_app, elem_of_cons.
    destruct (N.eqb_spec x 10) as [->|Hx].
    + destruct h.
      * intros [->|Hp]%elem_of_cons Hc; [tauto|].
        destruct (IH _ _ Hp Hc) as [[[]%elem_of_nil|?]%elem_of_app|?]; tauto.
      * intros Hp Hc.
        destruct (IH _ _ Hp Hc) as [[?|?]%elem_of_app|?]; tauto.
    + intros Hp Hc. destruct (IH _ _ Hp Hc) as [Hin|]; [|by right].
      destruct h; rewrite !elem_of_app, ?elem_of_cons in Hin;
        rewrite ?elem_of_nil in Hin; tauto.
Qed.

Lemma split_paragraphs_keeps (h : bool) (piece text : str) (c : N) :
  c ∈ piece ++ text -> c <> 10%N ->
  exists p, p ∈ split_paragraphs h piece text /\ c ∈ p.
Proof.
  revert h piece. induction text as [|x text IH]; intros h piece Hc Hne;
    simpl.
  - rewrite app_nil_r in Hc.
    destruct h; eexists; (split; [by apply list_elem_of_singleton|]);
      [|done].
    apply elem_of_app. by left.
  - rewrite elem_of_app, elem_of_cons in Hc.
    destruct (N.eqb_spec x 10) as [->|Hx].
    + destruct h.
      * destruct Hc as [Hc|[?|Hc]]; [|done|].
        -- exists piece. split; [by left|done].
        -- destruct (IH false []) as (p & Hp & Hin); [done|done|].
           exists p. split; [by right|done].
      * apply IH; [|done]. apply elem_of_app. tauto.
    + apply IH; [|done].
      destruct h; rewrite !elem_of_app, ?elem_of_cons; tauto.
Qed.

(** X27.  For a text of whitespace only (the empty text included),
    [get_text_stats] counts the characters and no word, sentence or
    paragraph. *)
Theorem get_text_stats_blank (text : str) :
  forallb isspace text = true ->
  get_text_stats text
  = {| char_count := length text; word_count := 0; sentence_count := 0;
       paragraph_count := 0 |}.
Proof.
  intros Hb. destruct text as [|x text]; [done|].
  unfold get_text_stats. f_equal.
  - apply length_zero_iff_nil, split_whitespace_nil. done.
  - apply count_not_blank_zero, Forall_forall. intros p Hp.
    apply blank_spec. intros c Hc.
    apply (proj1 (blank_spec (x :: text)) Hb).
    exact (split_sentences_elem _ _ _ _ _ Hp Hc).
  - apply count_not_blank_zero, Forall_forall. intros p Hp.
    apply blank_spec. intros c Hc.
    destruct (split_paragraphs_elem _ _ _ _ _ Hp Hc) as [Hin| ->]; [|done].
    by apply (proj1 (blank_spec (x :: text)) Hb).
Qed.

(** X28.  For a text with a character that is not whitespace,
    [get_text_stats] counts at least one word and one paragraph, and no
    more words than characters; it counts at least one sentence when some
    character is neither whitespace nor one of [.], [!] and [?]. *)
Theorem get_text_stats_not_blank (text : str) :
  forallb isspace text = false ->
  char_count (get_text_stats text) = length text /\
  1 <= word_count (get_text_stats text) <= length text /\
  1 <= paragraph_count (get_text_stats text) /\
  ((exists c, c ∈ text /\ isspace c = false /\ sentence_end c = false) ->
   1 <= sentence_count (get_text_stats text)).
Proof.
  intros Hb. destruct text as [|x text]; [done|].
  unfold get_text_stats. cbn [char_count word_count sentence_count
                               paragraph_count].
  split; [done|]. split; [split|split].
  - destruct (split_whitespace [] (x :: text)) eqn:Hw; [|simpl; lia].
    apply split_whitespace_nil in Hw as [_ Hw]. congruence.
  - apply (split_whitespace_length [] (x :: text)).
  - apply not_blank_spec in Hb as (c & Hc & Hws).
    destruct (split_paragraphs_keeps false [] (x :: text) c)
      as (p & Hp & Hin); [done|by intros ->|].
    exact (count_not_blank_pos _ p c Hp Hin Hws).
  - intros (c & Hc & Hws & Hend).
    destruct (split_sentences_keeps false [] (x :: text) c Hc Hend)
      as (p & Hp & Hin).
    exact (count_not_blank_pos _ p c Hp Hin Hws).
Qed.

End TextStats.

Lemma get_text_stats_blank_witness :
  forallb isspace (py "   ") = true /\
  TextPreprocessor.get_text_stats (py "   ")
  = {| TextPreprocessor.char_count := 3; TextPreprocessor.word_count := 0;
       TextPreprocessor.sentence_count := 0;
       TextPreprocessor.paragraph_count := 0 |}.
Proof.
  split; [reflexivity|].
  exact (get_text_stats_blank (py "   ") eq_refl).
Defined.

Lemma get_text_stats_not_blank_witness :
  forallb isspace (py "Hi there. Bye!") = false /\
  TextPreprocessor.char_count
    (TextPreprocessor.get_text_stats (py "Hi there. Bye!")) = 14 /\
  1 <= TextPreprocessor.word_count
         (TextPreprocessor.get_text_stats (py "Hi there. Bye!")) <= 14 /\
  1 <= TextPreprocessor.paragraph_count
         (TextPreprocessor.get_text_stats (py "Hi there. Bye!")) /\
  ((exists c, c ∈ py "Hi there. Bye!" /\ isspace c = false /\
              TextPreprocessor.sentence_end c = false) ->
   1 <= TextPreprocessor.sentence_count
          (TextPreprocessor.get_text_stats (py "Hi there. Bye!"))).
Proof.
  split; [reflexivity|].
  exact (get_text_stats_not_blank (py "Hi there. Bye!") eq_refl).
Defined.

Example get_text_stats_example :
  TextPreprocessor.get_text_stats (py "Hi there. Bye!")
  = {| TextPreprocessor.char_count := 14; TextPreprocessor.word_count := 3;
       TextPreprocessor.sentence_count := 2;
       TextPreprocessor.paragraph_count := 1 |}.
Proof. vm_compute; reflexivity. Qed.
